(** * FOMOD designer: the node model of [src/nodes.py]

    A shallow embedding of the document model of the FOMOD designer
    (the node classes of [src/nodes.py]): the schema registry of node
    classes, the tree mutation methods of [_NodeElement], the sort
    method, and the metadata codec with its comment escaping.

    Python objects live in a heap indexed by object identity; the lxml
    tree is the [children] list and the [parent] reference of every
    object.  Methods are state transformers that may raise. *)

From Stdlib Require Import Ascii String ZArith.
From stdpp Require Import base list strings.

(** ** Python strings

    A [str] is modelled as a [string]: the sequence of its characters,
    each a code point below 256.  Comparison of strings is
    lexicographic on the character codes ([String.leb]), as in
    Python. *)

Module PyStr.

(** [sub in s]. *)
Fixpoint contains (sub s : string) : bool :=
  String.prefix sub s ||
  match s with
  | EmptyString => false
  | String _ s' => contains sub s'
  end.

(** The scan of [str.replace] for a non-empty [old]: [skip] counts the
    characters of a matched occurrence still to be passed over. *)
Fixpoint replace_from (old new : string) (skip : nat) (s : string) : string :=
  match s with
  | EmptyString => EmptyString
  | String c s' =>
      match skip with
      | S k => replace_from old new k s'
      | O =>
          if String.prefix old s
          then new +:+ replace_from old new (String.length old - 1) s'
          else String c (replace_from old new 0 s')
      end
  end.

(** [str.replace] with an empty [old] puts [new] around every character. *)
Fixpoint replace_empty (new s : string) : string :=
  match s with
  | EmptyString => new
  | String c s' => new +:+ String c (replace_empty new s')
  end.

(** [s.replace(old, new)]: every occurrence of [old], found from left
    to right without overlap, is replaced by [new]. *)
Definition replace (old new s : string) : string :=
  match old with
  | EmptyString => replace_empty new s
  | String _ _ => replace_from old new 0 s
  end.

(** [s.startswith(p)]. *)
Definition startswith (s p : string) : bool := String.prefix p s.

Fixpoint drop (n : nat) (s : string) : string :=
  match n, s with
  | O, _ => s
  | S _, EmptyString => EmptyString
  | S k, String _ s' => drop k s'
  end.

(** Characters for which [str.isspace] holds, and at which [str.split]
    cuts: among the code points below 256 these are 9 to 13, 28 to 32,
    133 (NEL) and 160 (no-break space). *)
Definition isspace (c : ascii) : bool :=
  let n := nat_of_ascii c in
  (Nat.leb 9 n && Nat.leb n 13) || (Nat.leb 28 n && Nat.leb n 32)
  || Nat.eqb n 133 || Nat.eqb n 160.

Fixpoint lstrip (s : string) : string :=
  match s with
  | EmptyString => EmptyString
  | String c s' => if isspace c then lstrip s' else s
  end.

(** The first whitespace-free word of [s] and what follows it. *)
Fixpoint span_word (s : string) : string * string :=
  match s with
  | EmptyString => (EmptyString, EmptyString)
  | String c s' =>
      if isspace c then (EmptyString, s)
      else let (w, r) := span_word s' in (String c w, r)
  end.

(** [s.split(maxsplit=1)]: leading whitespace is dropped, the first word
    is cut off, and the rest, without its leading whitespace, is the
    second item when it is not empty. *)
Definition split_maxsplit1 (s : string) : list string :=
  match lstrip s with
  | EmptyString => []
  | s1 =>
      let (w, r) := span_word s1 in
      match lstrip r with
      | EmptyString => [w]
      | r' => [w; r']
      end
  end.

Fixpoint zeros (n : nat) : string :=
  match n with
  | O => EmptyString
  | S k => String "0" (zeros k)
  end.

(** [s.zfill(width)]: zeros are put on the left, after a leading sign. *)
Definition zfill (width : nat) (s : string) : string :=
  let pad := zeros (width - String.length s) in
  match s with
  | String c s' =>
      if (Ascii.eqb c "+" || Ascii.eqb c "-")%bool
      then String c (pad +:+ s')
      else pad +:+ s
  | EmptyString => pad
  end.

End PyStr.

(** ** The comment escaping of hidden-node snapshots *)

(** [save_metadata], line 264:
    [node_string.replace("<!--", "<!- -").replace("-->", "- ->")]. *)
Definition escape_snapshot (node_string : string) : string :=
  PyStr.replace "-->" "- ->" (PyStr.replace "<!--" "<!- -" node_string).

(** [load_metadata], line 238:
    [node_string.replace("<!- -", "<!--").replace("- ->", "-->")]. *)
Definition unescape_snapshot (node_string : string) : string :=
  PyStr.replace "- ->" "-->" (PyStr.replace "<!- -" "<!--" node_string).


(** ** The schema registry

    Every attribute that [init] sets once and for all from the class
    ([name], [tag], [allowed_instances], [sort_order], the tuples of child
    classes, the keys of [properties]) is a function of the class. *)

Inductive xml_tag : Set :=
| ElementTag (tag_name : string)
| CommentTag.

(** The node classes: [NodeComment] and the subclasses of [_NodeElement],
    one per tag of the two grammars. *)
Inductive node_class : Set :=
| NodeComment
| NodeInfoRoot | NodeInfoName | NodeInfoAuthor | NodeInfoVersion
| NodeInfoID | NodeInfoWebsite | NodeInfoDescription | NodeInfoGroup
| NodeInfoElement | NodeConfigRoot | NodeConfigModName | NodeConfigModImage
| NodeConfigModDepend | NodeConfigReqFiles | NodeConfigInstallSteps
| NodeConfigCondInstall | NodeConfigDependFile | NodeConfigDependFlag
| NodeConfigDependGame | NodeConfigFile | NodeConfigFolder
| NodeConfigPatterns | NodeConfigPattern | NodeConfigFiles
| NodeConfigDependencies | NodeConfigNestedDependencies
| NodeConfigInstallStep | NodeConfigVisible | NodeConfigOptGroups
| NodeConfigGroup | NodeConfigPlugins | NodeConfigPlugin
| NodeConfigPluginDescription | NodeConfigImage | NodeConfigConditionFlags
| NodeConfigTypeDesc | NodeConfigFlag | NodeConfigDependencyType
| NodeConfigDefaultType | NodeConfigType | NodeConfigInstallPatterns
| NodeConfigInstallPattern.

(** [self.name], the display name given to [init]. *)
Definition name (c : node_class) : string :=
  match c with
  | NodeComment => "Comment"
  | NodeInfoRoot => "Info"
  | NodeInfoName | NodeConfigModName => "Name"
  | NodeInfoAuthor => "Author"
  | NodeInfoVersion => "Version"
  | NodeInfoID => "ID"
  | NodeInfoWebsite => "Website"
  | NodeInfoDescription | NodeConfigPluginDescription => "Description"
  | NodeInfoGroup => "Categories Group"
  | NodeInfoElement => "Category"
  | NodeConfigRoot => "Config"
  | NodeConfigModImage | NodeConfigImage => "Image"
  | NodeConfigModDepend => "Mod Dependencies"
  | NodeConfigReqFiles => "Mod Requirements"
  | NodeConfigInstallSteps => "Installation Steps"
  | NodeConfigCondInstall => "Conditional Installation"
  | NodeConfigDependFile => "File Dependency"
  | NodeConfigDependFlag => "Flag Dependency"
  | NodeConfigDependGame => "Game Dependency"
  | NodeConfigFile => "File"
  | NodeConfigFolder => "Folder"
  | NodeConfigPatterns | NodeConfigInstallPatterns => "Patterns"
  | NodeConfigPattern | NodeConfigInstallPattern => "Pattern"
  | NodeConfigFiles => "Files"
  | NodeConfigDependencies | NodeConfigNestedDependencies => "Dependencies"
  | NodeConfigInstallStep => "Install Step"
  | NodeConfigVisible => "Visibility"
  | NodeConfigOptGroups => "Option Group"
  | NodeConfigGroup => "Group"
  | NodeConfigPlugins => "Plugins"
  | NodeConfigPlugin => "Plugin"
  | NodeConfigConditionFlags => "Flags"
  | NodeConfigTypeDesc => "Type Descriptor"
  | NodeConfigFlag => "Flag"
  | NodeConfigDependencyType => "Dependency Type"
  | NodeConfigDefaultType => "Default Type"
  | NodeConfigType => "Type"
  end.

(** [self.tag]: the element name, or lxml's [etree.Comment] for a comment. *)
Definition tag (c : node_class) : xml_tag :=
  match c with
  | NodeComment => CommentTag
  | NodeInfoRoot => ElementTag "fomod"
  | NodeInfoName => ElementTag "Name"
  | NodeInfoAuthor => ElementTag "Author"
  | NodeInfoVersion => ElementTag "Version"
  | NodeInfoID => ElementTag "Id"
  | NodeInfoWebsite => ElementTag "Website"
  | NodeInfoDescription => ElementTag "Description"
  | NodeInfoGroup => ElementTag "Groups"
  | NodeInfoElement => ElementTag "element"
  | NodeConfigRoot => ElementTag "config"
  | NodeConfigModName => ElementTag "moduleName"
  | NodeConfigModImage => ElementTag "moduleImage"
  | NodeConfigModDepend => ElementTag "moduleDependencies"
  | NodeConfigReqFiles => ElementTag "requiredInstallFiles"
  | NodeConfigInstallSteps => ElementTag "installSteps"
  | NodeConfigCondInstall => ElementTag "conditionalFileInstalls"
  | NodeConfigDependFile => ElementTag "fileDependency"
  | NodeConfigDependFlag => ElementTag "flagDependency"
  | NodeConfigDependGame => ElementTag "gameDependency"
  | NodeConfigFile => ElementTag "file"
  | NodeConfigFolder => ElementTag "folder"
  | NodeConfigPatterns | NodeConfigInstallPatterns => ElementTag "patterns"
  | NodeConfigPattern | NodeConfigInstallPattern => ElementTag "pattern"
  | NodeConfigFiles => ElementTag "files"
  | NodeConfigDependencies | NodeConfigNestedDependencies
      => ElementTag "dependencies"
  | NodeConfigInstallStep => ElementTag "installStep"
  | NodeConfigVisible => ElementTag "visible"
  | NodeConfigOptGroups => ElementTag "optionalFileGroups"
  | NodeConfigGroup => ElementTag "group"
  | NodeConfigPlugins => ElementTag "plugins"
  | NodeConfigPlugin => ElementTag "plugin"
  | NodeConfigPluginDescription => ElementTag "description"
  | NodeConfigImage => ElementTag "image"
  | NodeConfigConditionFlags => ElementTag "conditionFlags"
  | NodeConfigTypeDesc => ElementTag "typeDescriptor"
  | NodeConfigFlag => ElementTag "flag"
  | NodeConfigDependencyType => ElementTag "dependencyType"
  | NodeConfigDefaultType => ElementTag "defaultType"
  | NodeConfigType => ElementTag "type"
  end.

(** [self.allowed_instances]: how many nodes of the class one parent takes;
    0 is no limit. *)
Definition allowed_instances (c : node_class) : nat :=
  match c with
  | NodeComment => 0
  | NodeInfoRoot | NodeInfoName | NodeInfoAuthor | NodeInfoVersion
  | NodeInfoID | NodeInfoWebsite | NodeInfoDescription | NodeInfoGroup
  | NodeConfigRoot | NodeConfigModName | NodeConfigModImage
  | NodeConfigModDepend | NodeConfigReqFiles | NodeConfigInstallSteps
  | NodeConfigCondInstall | NodeConfigDependGame | NodeConfigPatterns
  | NodeConfigFiles | NodeConfigDependencies | NodeConfigVisible
  | NodeConfigOptGroups | NodeConfigPlugins | NodeConfigPluginDescription
  | NodeConfigImage | NodeConfigConditionFlags | NodeConfigTypeDesc
  | NodeConfigDependencyType | NodeConfigDefaultType | NodeConfigType
  | NodeConfigInstallPatterns => 1
  | _ => 0
  end.

(** [self.sort_order], the rank of the class among its siblings. *)
Definition sort_order (c : node_class) : string :=
  match c with
  | NodeComment => "0"
  | NodeConfigModName | NodeConfigDependencies | NodeConfigVisible
  | NodeConfigPluginDescription | NodeConfigDefaultType => "1"
  | NodeConfigModImage | NodeConfigOptGroups | NodeConfigImage
  | NodeConfigType | NodeConfigInstallPatterns => "2"
  | NodeConfigModDepend | NodeConfigFiles | NodeConfigConditionFlags => "3"
  | NodeConfigReqFiles | NodeConfigTypeDesc => "4"
  | NodeConfigInstallSteps => "5"
  | NodeConfigCondInstall => "6"
  | _ => "0"
  end.

(** [self.allowed_children]. *)
Definition allowed_children (c : node_class) : list node_class :=
  match c with
  | NodeComment => []
  | NodeInfoRoot
      => [NodeInfoName; NodeInfoAuthor; NodeInfoDescription; NodeInfoID; NodeInfoGroup; NodeInfoVersion; NodeInfoWebsite]
  | NodeInfoGroup => [NodeInfoElement]
  | NodeConfigRoot
      => [NodeConfigModName; NodeConfigModImage; NodeConfigModDepend; NodeConfigInstallSteps; NodeConfigReqFiles; NodeConfigCondInstall]
  | NodeConfigModDepend | NodeConfigDependencies
  | NodeConfigNestedDependencies | NodeConfigVisible
      => [NodeConfigDependFile; NodeConfigDependFlag; NodeConfigDependGame; NodeConfigNestedDependencies]
  | NodeConfigReqFiles | NodeConfigFiles
      => [NodeConfigFile; NodeConfigFolder]
  | NodeConfigInstallSteps => [NodeConfigInstallStep]
  | NodeConfigCondInstall => [NodeConfigPatterns]
  | NodeConfigPatterns => [NodeConfigPattern]
  | NodeConfigPattern => [NodeConfigFiles; NodeConfigDependencies]
  | NodeConfigInstallStep => [NodeConfigVisible; NodeConfigOptGroups]
  | NodeConfigOptGroups => [NodeConfigGroup]
  | NodeConfigGroup => [NodeConfigPlugins]
  | NodeConfigPlugins => [NodeConfigPlugin]
  | NodeConfigPlugin
      => [NodeConfigPluginDescription; NodeConfigImage; NodeConfigFiles; NodeConfigConditionFlags; NodeConfigTypeDesc]
  | NodeConfigConditionFlags => [NodeConfigFlag]
  | NodeConfigTypeDesc => [NodeConfigDependencyType; NodeConfigType]
  | NodeConfigDependencyType
      => [NodeConfigInstallPatterns; NodeConfigDefaultType]
  | NodeConfigInstallPatterns => [NodeConfigInstallPattern]
  | NodeConfigInstallPattern => [NodeConfigType; NodeConfigDependencies]
  | _ => []
  end.

(** [self.required_children]. *)
Definition required_children (c : node_class) : list node_class :=
  match c with
  | NodeComment => []
  | NodeConfigRoot => [NodeConfigModName]
  | NodeConfigInstallSteps => [NodeConfigInstallStep]
  | NodeConfigCondInstall => [NodeConfigPatterns]
  | NodeConfigPatterns => [NodeConfigPattern]
  | NodeConfigPattern => [NodeConfigFiles; NodeConfigDependencies]
  | NodeConfigInstallStep => [NodeConfigOptGroups]
  | NodeConfigOptGroups => [NodeConfigGroup]
  | NodeConfigGroup => [NodeConfigPlugins]
  | NodeConfigPlugins => [NodeConfigPlugin]
  | NodeConfigPlugin => [NodeConfigPluginDescription; NodeConfigTypeDesc]
  | NodeConfigConditionFlags => [NodeConfigFlag]
  | NodeConfigDependencyType
      => [NodeConfigInstallPatterns; NodeConfigDefaultType]
  | NodeConfigInstallPatterns => [NodeConfigInstallPattern]
  | NodeConfigInstallPattern => [NodeConfigType; NodeConfigDependencies]
  | _ => []
  end.

(** [self.either_children_group]. *)
Definition either_children_group (c : node_class) : list node_class :=
  match c with
  | NodeComment => []
  | NodeConfigTypeDesc => [NodeConfigDependencyType; NodeConfigType]
  | _ => []
  end.

(** [self.at_least_one_children_group]. *)
Definition at_least_one_children_group (c : node_class) : list node_class :=
  match c with
  | NodeComment => []
  | NodeConfigRoot
      => [NodeConfigModDepend; NodeConfigInstallSteps; NodeConfigReqFiles; NodeConfigCondInstall]
  | _ => []
  end.

(** The keys of [self.properties], in their order. *)
Definition property_keys (c : node_class) : list string :=
  match c with
  | NodeComment => ["<node_text>"]
  | NodeInfoName | NodeInfoAuthor | NodeInfoVersion | NodeInfoID
  | NodeInfoWebsite | NodeInfoDescription | NodeInfoElement
  | NodeConfigPluginDescription => ["<node_text>"]
  | NodeConfigRoot
      => ["{http://www.w3.org/2001/XMLSchema-instance}noNamespaceSchemaLocation"]
  | NodeConfigModName => ["<node_text>"; "position"; "colour"]
  | NodeConfigModImage => ["path"; "showImage"; "showFade"; "height"]
  | NodeConfigModDepend | NodeConfigDependencies
  | NodeConfigNestedDependencies | NodeConfigVisible => ["operator"]
  | NodeConfigInstallSteps | NodeConfigOptGroups | NodeConfigPlugins
      => ["order"]
  | NodeConfigDependFile => ["file"; "state"]
  | NodeConfigDependFlag => ["flag"; "value"]
  | NodeConfigDependGame => ["version"]
  | NodeConfigFile | NodeConfigFolder
      => ["source"; "destination"; "priority"; "alwaysInstall"; "installIfUsable"]
  | NodeConfigInstallStep | NodeConfigPlugin | NodeConfigDefaultType
  | NodeConfigType => ["name"]
  | NodeConfigGroup => ["name"; "type"]
  | NodeConfigImage => ["path"]
  | NodeConfigFlag => ["name"; "<node_text>"]
  | _ => []
  end.

(** [name_editable], as given to [init]. *)
Definition name_editable (c : node_class) : bool :=
  match c with
  | NodeComment => false
  | NodeConfigPattern | NodeConfigInstallPattern => true
  | _ => false
  end.

#[global] Instance node_class_eq_dec : EqDecision node_class.
Proof. solve_decision. Defined.

#[global] Instance xml_tag_eq_dec : EqDecision xml_tag.
Proof. solve_decision. Defined.

(** ** Python values and dictionaries *)

(** The values that [jsonpickle.decode] builds from plain JSON text. *)
#[warnings="-register-all"]
Inductive pyvalue : Type :=
| PyNone
| PyBool (b : bool)
| PyInt (n : Z)
| PyStr (s : string)
| PyList (items : list pyvalue)
| PyDict (items : list (string * pyvalue)).

(** A [dict] keeps its keys in the order of their insertion. *)
Fixpoint dict_get (d : list (string * pyvalue)) (k : string) : option pyvalue :=
  match d with
  | [] => None
  | (k', v) :: d' => if String.eqb k' k then Some v else dict_get d' k
  end.

Fixpoint dict_set (d : list (string * pyvalue)) (k : string) (v : pyvalue)
  : list (string * pyvalue) :=
  match d with
  | [] => [(k, v)]
  | (k', v') :: d' =>
      if String.eqb k' k then (k', v) :: d' else (k', v') :: dict_set d' k v
  end.

Fixpoint dict_pop (d : list (string * pyvalue)) (k : string)
  : list (string * pyvalue) :=
  match d with
  | [] => []
  | (k', v') :: d' => if String.eqb k' k then d' else (k', v') :: dict_pop d' k
  end.

Inductive exn : Set :=
| AttributeError
| IndexError
| TypeError
| ValueError
| ReferenceError.

Inductive outcome (A : Type) : Type :=
| Ret (a : A)
| Raise (e : exn).
Arguments Ret {A} a.
Arguments Raise {A} e.

(** [x.get(k, v)]: only a [dict] has the method. *)
Definition py_get (x : pyvalue) (k : string) (v : pyvalue) : outcome pyvalue :=
  match x with
  | PyDict d => Ret (default v (dict_get d k))
  | _ => Raise AttributeError
  end.

(** [x[k] = v]. *)
Definition py_setitem (x : pyvalue) (k : string) (v : pyvalue) : outcome pyvalue :=
  match x with
  | PyDict d => Ret (PyDict (dict_set d k v))
  | _ => Raise TypeError
  end.

(** [x.pop(k, None)]: a [list] has a [pop] of one argument, the other
    values have none. *)
Definition py_pop (x : pyvalue) (k : string) : outcome pyvalue :=
  match x with
  | PyDict d => Ret (PyDict (dict_pop d k))
  | PyList _ => Raise TypeError
  | _ => Raise AttributeError
  end.

(** The truth value of [x], as [if x:] takes it. *)
Definition py_truth (x : pyvalue) : bool :=
  match x with
  | PyNone => false
  | PyBool b => b
  | PyInt n => negb (Z.eqb n 0)
  | PyStr s => negb (String.eqb s "")
  | PyList l => match l with [] => false | _ => true end
  | PyDict d => match d with [] => false | _ => true end
  end.

Fixpoint chars (s : string) : list pyvalue :=
  match s with
  | EmptyString => []
  | String c s' => PyStr (String c EmptyString) :: chars s'
  end.

(** The items that [for item in x] visits. *)
Definition py_iter (x : pyvalue) : outcome (list pyvalue) :=
  match x with
  | PyList l => Ret l
  | PyDict d => Ret (map (fun kv => PyStr (fst kv)) d)
  | PyStr s => Ret (chars s)
  | _ => Raise TypeError
  end.

(** ** Objects and the heap *)

(** A node object: its class and its mutable attributes.  [parent] and
    [children] are the lxml tree ([getparent()] and [list(self)], comments
    included); [item_text] is [model_item.text()]; [properties] holds the
    current [value] of every property, in its raw string form. *)
Record node : Type := Node {
  cls : node_class;
  parent : option nat;
  children : list nat;
  text : string;
  attrib : list (string * string);
  properties : list (string * string);
  item_text : string;
  user_sort_order : string;
  hidden_children : list nat;
  is_hidden : bool;
  metadata : pyvalue;
}.

Definition set_parent (v : option nat) (o : node) : node :=
  Node (cls o) v (children o) (text o) (attrib o) (properties o) (item_text o)
       (user_sort_order o) (hidden_children o) (is_hidden o) (metadata o).

Definition set_children (v : list nat) (o : node) : node :=
  Node (cls o) (parent o) v (text o) (attrib o) (properties o) (item_text o)
       (user_sort_order o) (hidden_children o) (is_hidden o) (metadata o).

Definition set_text (v : string) (o : node) : node :=
  Node (cls o) (parent o) (children o) v (attrib o) (properties o) (item_text o)
       (user_sort_order o) (hidden_children o) (is_hidden o) (metadata o).

Definition set_attrib (v : list (string * string)) (o : node) : node :=
  Node (cls o) (parent o) (children o) (text o) v (properties o) (item_text o)
       (user_sort_order o) (hidden_children o) (is_hidden o) (metadata o).

Definition set_properties (v : list (string * string)) (o : node) : node :=
  Node (cls o) (parent o) (children o) (text o) (attrib o) v (item_text o)
       (user_sort_order o) (hidden_children o) (is_hidden o) (metadata o).

Definition set_item_text (v : string) (o : node) : node :=
  Node (cls o) (parent o) (children o) (text o) (attrib o) (properties o) v
       (user_sort_order o) (hidden_children o) (is_hidden o) (metadata o).

Definition set_user_sort_order (v : string) (o : node) : node :=
  Node (cls o) (parent o) (children o) (text o) (attrib o) (properties o)
       (item_text o) v (hidden_children o) (is_hidden o) (metadata o).

Definition set_hidden_children (v : list nat) (o : node) : node :=
  Node (cls o) (parent o) (children o) (text o) (attrib o) (properties o)
       (item_text o) (user_sort_order o) v (is_hidden o) (metadata o).

Definition set_is_hidden (v : bool) (o : node) : node :=
  Node (cls o) (parent o) (children o) (text o) (attrib o) (properties o)
       (item_text o) (user_sort_order o) (hidden_children o) v (metadata o).

Definition set_metadata (v : pyvalue) (o : node) : node :=
  Node (cls o) (parent o) (children o) (text o) (attrib o) (properties o)
       (item_text o) (user_sort_order o) (hidden_children o) (is_hidden o) v.

(** The heap: the object of identity [i] is the [i]-th item. *)
Abbreviation heap := (list node).

Definition class_of (h : heap) (i : nat) : option node_class := cls <$> h !! i.

Definition children_of (h : heap) (i : nat) : list nat :=
  match h !! i with Some o => children o | None => [] end.

Definition parent_of (h : heap) (i : nat) : option nat :=
  match h !! i with Some o => parent o | None => None end.

(** [properties[key].value]. *)
Fixpoint assoc (l : list (string * string)) (key : string) : string :=
  match l with
  | [] => ""
  | (k, v) :: l' => if String.eqb k key then v else assoc l' key
  end.

Definition prop_value (o : node) (key : string) : string :=
  assoc (properties o) key.

(** [l.remove(x)], when [x] is in [l]. *)
Fixpoint remove_first (x : nat) (l : list nat) : list nat :=
  match l with
  | [] => []
  | y :: l' => if Nat.eqb y x then l' else y :: remove_first x l'
  end.

(** A method is a heap transformer that returns or raises; what it wrote
    before raising stays written. *)
Definition M (A : Type) : Type := heap -> outcome A * heap.

Definition ret {A} (a : A) : M A := fun h => (Ret a, h).

Definition raise {A} (e : exn) : M A := fun h => (Raise e, h).

Definition bind {A B} (m : M A) (k : A -> M B) : M B :=
  fun h =>
    match m h with
    | (Ret a, h') => k a h'
    | (Raise e, h') => (Raise e, h')
    end.

Notation "x <- m ;; k" := (bind m (fun x => k))
  (at level 100, m at next level, right associativity).
Notation "m ;;; k" := (bind m (fun _ => k))
  (at level 100, right associativity).

(** Reading the heap with a function that may raise. *)
Definition reads {A} (f : heap -> outcome A) : M A := fun h => (f h, h).

Definition lift {A} (r : outcome A) : M A := fun h => (r, h).

(** The object behind a reference. *)
Definition deref (i : nat) : M node :=
  reads (fun h => match h !! i with Some o => Ret o | None => Raise ReferenceError end).

(** Writing attributes of the object [i]. *)
Definition update (i : nat) (f : node -> node) : M unit :=
  fun h => (Ret tt, alter f i h).

(** A new object; its identity is returned. *)
Definition alloc (o : node) : M nat := fun h => (Ret (length h), h ++ [o]).

Fixpoint for_each {A} (l : list A) (body : A -> M unit) : M unit :=
  match l with
  | [] => ret tt
  | x :: l' => body x ;;; for_each l' body
  end.

(** ** The lxml tree *)

(** [child] leaves the children of its parent. *)
Definition etree_unlink (child : nat) : M unit :=
  c <- deref child ;;
  match parent c with
  | Some p =>
      update p (fun o => set_children (remove_first child (children o)) o) ;;;
      update child (set_parent None)
  | None => ret tt
  end.

(** [self.append(child)]: [child] is moved to the end of [self]. *)
Definition etree_append (self child : nat) : M unit :=
  etree_unlink child ;;;
  update self (fun o => set_children (children o ++ [child]) o) ;;;
  update child (set_parent (Some self)).

(** [child in self]: lxml compares the parent of [child] with [self]. *)
Definition etree_contains (h : heap) (self child : nat) : bool :=
  bool_decide (parent_of h child = Some self).

(** [self.remove(child)]. *)
Definition etree_remove (self child : nat) : M unit :=
  c <- deref child ;;
  if bool_decide (parent c = Some self) then etree_unlink child
  else raise ValueError.

(** [parent[:] = l], for a list [l] that rearranges the children of
    [parent]: the children are unlinked and linked again in the order
    of [l]. *)
Definition etree_assign_children (p : nat) (l : list nat) : M unit :=
  update p (set_children l) ;;;
  for_each l (fun x => update x (set_parent (Some p))).

Definition is_element (h : heap) (i : nat) : bool :=
  match h !! i with
  | Some o => negb (bool_decide (cls o = NodeComment))
  | None => false
  end.

(** The root of the document of [i]. *)
Fixpoint getroot (fuel : nat) (h : heap) (i : nat) : nat :=
  match fuel with
  | O => i
  | S f =>
      match parent_of h i with
      | Some p => getroot f h p
      | None => i
      end
  end.

(** The nodes below [i], itself included, in document order. *)
Fixpoint iter_tree (fuel : nat) (h : heap) (i : nat) : list nat :=
  i :: match fuel with
       | O => []
       | S f => flat_map (iter_tree f h) (children_of h i)
       end.

(** [self.xpath('//*[./*]')]: the path starts at the root of the
    document, so that the result is every element of the document of
    [self] with at least one element among its children. *)
Definition xpath_parents (h : heap) (self : nat) : list nat :=
  filter (fun i => is_element h i && existsb (is_element h) (children_of h i))
         (iter_tree (length h) h (getroot (length h) h self)).

(** ** [objectify.deannotate]

    [objectify.deannotate(element, cleanup_namespaces=True)] removes
    the attributes [py:pytype] and [xsi:type] from every element of the
    subtree of [element], [element] included; comments have no
    attributes.  The names are in Clark notation, as the keys of
    [attrib] are.  The namespace declarations that
    [cleanup_namespaces] drops are not part of an object here. *)
Definition PYTYPE_ATTRIBUTE : string :=
  "{http://codespeak.net/lxml/objectify/pytype}pytype".

Definition XML_SCHEMA_INSTANCE_TYPE_ATTR : string :=
  "{http://www.w3.org/2001/XMLSchema-instance}type".

Definition is_annotation (key : string) : bool :=
  String.eqb key PYTYPE_ATTRIBUTE || String.eqb key XML_SCHEMA_INSTANCE_TYPE_ATTR.

Definition strip_annotations (o : node) : node :=
  set_attrib (List.filter (fun kv => negb (is_annotation (fst kv))) (attrib o)) o.

(** The elements of the subtree of [element], in document order. *)
Definition subtree_elements (h : heap) (element : nat) : list nat :=
  filter (fun i => is_element h i) (iter_tree (length h) h element).

Definition deannotate (element : nat) : M unit :=
  elements <- reads (fun h => Ret (subtree_elements h element)) ;;
  for_each elements (fun x => update x strip_annotations).

(** ** Sorting *)

(** The key of [sort]: [x.sort_order + "." + x.user_sort_order]. *)
Definition sort_key (h : heap) (x : nat) : string :=
  match h !! x with
  | Some o => sort_order (cls o) +:+ "." +:+ user_sort_order o
  | None => ""
  end.

Fixpoint insert_by (key : nat -> string) (x : nat) (l : list nat) : list nat :=
  match l with
  | [] => [x]
  | y :: l' =>
      if String.leb (key x) (key y) then x :: y :: l' else y :: insert_by key x l'
  end.

(** [sorted(l, key=key)]: ascending, and stable. *)
Definition py_sorted (key : nat -> string) (l : list nat) : list nat :=
  fold_right (insert_by key) [] l.

Fixpoint is_sorted (key : nat -> string) (l : list nat) : bool :=
  match l with
  | [] => true
  | x :: l' =>
      match l' with
      | [] => true
      | y :: _ => String.leb (key x) (key y) && is_sorted key l'
      end
  end.

(** ** The node methods *)

Definition sentinel : string := "<designer.metadata.do.not.edit>".

(** The last item of [s.split(sep)]. *)
Fixpoint last_component (sep : ascii) (s : string) : string :=
  match s with
  | EmptyString => EmptyString
  | String c s' =>
      if PyStr.contains (String sep EmptyString) s' then last_component sep s'
      else if Ascii.eqb c sep then s' else s
  end.

Fixpoint assoc_set (l : list (string * string)) (key v : string)
  : list (string * string) :=
  match l with
  | [] => [(key, v)]
  | (k, w) :: l' =>
      if String.eqb k key then (k, v) :: l' else (k, w) :: assoc_set l' key v
  end.

Definition count_class (h : heap) (c : node_class) (l : list nat) : nat :=
  length (filter (fun item => bool_decide (class_of h item = Some c)) l).

(** The object that [init] leaves (lines 107-128). *)
Definition new_node (c : node_class) : node :=
  Node c None [] "" [] [] (name c) (PyStr.zfill 7 "0") [] false (PyDict []).

(** [_NodeElement.can_add_child] (lines 130-146). *)
Definition NodeElement_can_add_child (h : heap) (self child : node) : bool :=
  let full :=
    if negb (Nat.eqb (allowed_instances (cls child)) 0) then
      let instances := count_class h (cls child) (children self) in
      Nat.leb (allowed_instances (cls child)) instances
    else false in
  if full then false
  else if bool_decide (cls child ∈ allowed_children (cls self))
          || bool_decide (tag (cls child) = CommentTag)
       then true
       else false.

(** [NodeConfigTypeDesc.can_add_child] (lines 1231-1235). *)
Definition NodeConfigTypeDesc_can_add_child (h : heap) (self child : node) : bool :=
  if NodeElement_can_add_child h self child then
    if Nat.ltb (length (children self)) 1 then true else false
  else false.

(** [self.can_add_child(child)]; [NodeComment] has no such method. *)
Definition can_add_child (self child : nat) : M bool :=
  s <- deref self ;;
  match cls s with
  | NodeComment => raise AttributeError
  | NodeConfigTypeDesc =>
      c <- deref child ;;
      reads (fun h => Ret (NodeConfigTypeDesc_can_add_child h s c))
  | _ =>
      c <- deref child ;;
      reads (fun h => Ret (NodeElement_can_add_child h s c))
  end.

(** [_NodeElement.add_child] (lines 148-158), for a [child] whose
    [write_attribs] and [load_metadata] are [post]. *)
Definition add_child_with (post : nat -> M unit) (self child : nat) : M unit :=
  ok <- can_add_child self child ;;
  if ok then etree_append self child ;;; post child else ret tt.

(** [_NodeElement.remove_child] (lines 160-168). *)
Definition remove_child (self child : nat) : M unit :=
  s <- deref self ;;
  match cls s with
  | NodeComment => raise AttributeError
  | _ =>
      inside <- reads (fun h => Ret (etree_contains h self child)) ;;
      if inside then etree_remove self child else ret tt
  end.

(** [NodeComment.write_attribs] (lines 59-64). *)
Definition NodeComment_write_attribs (self : nat) : M unit :=
  update self (fun o => set_text (prop_value o "<node_text>") o).

(** [NodeComment.load_metadata], [save_metadata] and [sort] are [pass]. *)
Definition NodeComment_post (self : nat) : M unit :=
  NodeComment_write_attribs self ;;; ret tt.

(** [NodeComment(text)] with its property set to [text]. *)
Definition new_comment (v : string) : node :=
  Node NodeComment None [] "" [] [("<node_text>", v)] (name NodeComment)
       (PyStr.zfill 7 "0") [] false (PyDict []).

(** [_NodeElement.sort] (lines 180-185). *)
Definition NodeElement_sort (self : nat) : M unit :=
  parents <- reads (fun h => Ret (xpath_parents h self)) ;;
  for_each parents (fun p =>
    l <- reads (fun h => Ret (py_sorted (sort_key h) (children_of h p))) ;;
    etree_assign_children p l).

(** [self.sort()]. *)
Definition sort (self : nat) : M unit :=
  s <- deref self ;;
  match cls s with
  | NodeComment => ret tt
  | _ => NodeElement_sort self
  end.

Section Methods.

(** What the methods take from outside [nodes.py]: [os.sep];
    [jsonpickle.decode], with [None] for a [JSONDecodeError], and
    [jsonpickle.encode]; [etree.tostring], which serializes an element
    of the document as it stands; and the lines 239-243 of
    [load_metadata], which
    parse an unescaped snapshot with [etree.fromstring] and
    [io.copy_node] and then add, hide and sort the new node. *)
Variable os_sep : ascii.
Variable decode : string -> option pyvalue.
Variable encode : pyvalue -> string.
Variable tostring : heap -> nat -> string.
Variable restore_hidden_node : nat -> string -> M unit.

(** The comments among [l] that carry metadata are rewritten, or
    removed when there is nothing to store (lines 274-281); the result
    tells whether there was one. *)
Fixpoint update_meta_comments (self : nat) (md : pyvalue) (l : list nat) : M bool :=
  match l with
  | [] => ret false
  | child :: l' =>
      c <- deref child ;;
      hit <- (if bool_decide (cls c = NodeComment)
                 && PyStr.startswith (text c) sentinel
              then
                (if py_truth md
                 then update child (set_text (sentinel +:+ " " +:+ encode md))
                 else etree_remove self child) ;;;
                ret true
              else ret false) ;;
      rest <- update_meta_comments self md l' ;;
      ret (hit || rest)
  end.

(** The loop of lines 261-265: each hidden element is deannotated,
    serialized and escaped, in turn. *)
Fixpoint hidden_snapshots (l : list nat) : M (list pyvalue) :=
  match l with
  | [] => ret []
  | element :: l' =>
      deannotate element ;;;
      node_string <- reads (fun h => Ret (tostring h element)) ;;
      rest <- hidden_snapshots l' ;;
      ret (PyStr (escape_snapshot node_string) :: rest)
  end.

(** [_NodeElement.save_metadata] (lines 245-286). *)
Definition NodeElement_save_metadata (self : nat) : M unit :=
  s <- deref self ;;
  md <- lift (if negb (String.eqb (item_text s) (name (cls s)))
              then py_setitem (metadata s) "name" (PyStr (item_text s))
              else py_pop (metadata s) "name") ;;
  update self (set_metadata md) ;;;
  md <- lift (if negb (String.eqb (user_sort_order s) "")
                 && negb (String.eqb (user_sort_order s) (PyStr.zfill 7 "0"))
              then py_setitem md "user_sort"
                     (PyStr (PyStr.zfill 7 (user_sort_order s)))
              else py_pop md "user_sort") ;;
  update self (set_metadata md) ;;;
  md <- (match hidden_children s with
         | _ :: _ =>
             snapshots <- hidden_snapshots (hidden_children s) ;;
             lift (py_setitem md "hidden_nodes" (PyList snapshots))
         | [] => lift (py_pop md "hidden_nodes")
         end) ;;
  update self (set_metadata md) ;;;
  if match allowed_children (cls s) with [] => true | _ => false end
     && negb (bool_decide ("<node_text>" ∈ property_keys (cls s)))
  then ret tt
  else
    found <- update_meta_comments self md (children s) ;;
    if negb found && py_truth md then
      meta_comment <- alloc (new_comment (sentinel +:+ " " +:+ encode md)) ;;
      add_child_with NodeComment_post self meta_comment
    else ret tt.

(** [self.save_metadata()]. *)
Definition save_metadata (self : nat) : M unit :=
  s <- deref self ;;
  match cls s with
  | NodeComment => ret tt
  | _ => NodeElement_save_metadata self
  end.

(** [_NodeElement.write_attribs] (lines 200-211). *)
Definition NodeElement_write_attribs (self : nat) : M unit :=
  s <- deref self ;;
  update self (set_attrib []) ;;;
  for_each (property_keys (cls s)) (fun key =>
    if String.eqb key "<node_text>"
    then update self (set_text (prop_value s key))
    else update self (fun o => set_attrib (assoc_set (attrib o) key (prop_value s key)) o)) ;;;
  if is_hidden s then
    match parent s with
    | Some p => save_metadata p
    | None => raise AttributeError
    end
  else ret tt.

(** [update_item_name] of the element classes: the one of
    [_NodeElement] (lines 213-219) and its overrides. *)
Definition update_item_name (self : nat) : M string :=
  s <- deref self ;;
  match cls s with
  | NodeConfigFile | NodeConfigFolder =>
      if String.eqb (prop_value s "source") "" then
        update self (set_item_text (name (cls s))) ;;; ret (name (cls s))
      else
        let last := last_component os_sep (prop_value s "source") in
        update self (set_item_text last) ;;; ret last
  | NodeConfigInstallStep | NodeConfigGroup | NodeConfigPlugin
  | NodeConfigFlag | NodeConfigDefaultType | NodeConfigType =>
      if String.eqb (prop_value s "name") "" then
        update self (set_item_text (name (cls s))) ;;; ret (name (cls s))
      else
        update self (set_item_text (prop_value s "name")) ;;;
        ret (prop_value s "name")
  | _ => ret (name (cls s))
  end.

(** The first loop of [load_metadata] (lines 225-231): the payload of
    every metadata comment is decoded into [self.metadata]; only a
    [JSONDecodeError] is caught. *)
Definition load_metadata_scan (self : nat) : M unit :=
  s <- deref self ;;
  for_each (children s) (fun child =>
    c <- deref child ;;
    if bool_decide (cls c = NodeComment) && PyStr.startswith (text c) sentinel
    then
      match PyStr.split_maxsplit1 (text c) !! 1 with
      | Some payload =>
          match decode payload with
          | Some v => update self (set_metadata v)
          | None => ret tt
          end
      | None => raise IndexError
      end
    else ret tt).

(** [_NodeElement.load_metadata] (lines 221-243).  The label and the
    user rank are strings in this model.  A [name] that is not a string
    raises in [setText].  A [user_sort] that is not a string is outside
    the model, which raises at the assignment of line 234: the code
    assigns the value and fails later, where the rank is read as a
    string ([sort], [save_metadata]). *)
Definition NodeElement_load_metadata (self : nat) : M unit :=
  load_metadata_scan self ;;;
  s <- deref self ;;
  (match metadata s with PyDict _ => ret tt | _ => raise AttributeError end) ;;;
  label <- update_item_name self ;;
  v <- lift (py_get (metadata s) "name" (PyStr label)) ;;
  (match v with
   | PyStr t => update self (set_item_text t)
   | _ => raise TypeError
   end) ;;;
  v <- lift (py_get (metadata s) "user_sort" (PyStr (PyStr.zfill 7 "0"))) ;;
  (match v with
   | PyStr t => update self (set_user_sort_order t)
   | _ => raise TypeError
   end) ;;;
  match hidden_children s with
  | [] =>
      hidden_nodes <- lift (py_get (metadata s) "hidden_nodes" (PyList [])) ;;
      items <- lift (py_iter hidden_nodes) ;;
      for_each items (fun node_string =>
        match node_string with
        | PyStr t => restore_hidden_node self (unescape_snapshot t)
        | _ => raise AttributeError
        end)
  | _ :: _ => ret tt
  end.

(** [child.write_attribs()] then [child.load_metadata()]. *)
Definition post_add (child : nat) : M unit :=
  c <- deref child ;;
  match cls c with
  | NodeComment => NodeComment_post child
  | _ => NodeElement_write_attribs child ;;; NodeElement_load_metadata child
  end.

(** [self.add_child(child)]. *)
Definition add_child (self child : nat) : M unit :=
  add_child_with post_add self child.

(** [_NodeElement.set_hidden] (lines 170-178). *)
Definition set_hidden (self : nat) (hide : bool) : M unit :=
  s <- deref self ;;
  match cls s with
  | NodeComment => raise AttributeError
  | _ =>
      update self (set_is_hidden hide) ;;;
      match parent s with
      | None => raise AttributeError
      | Some p =>
          po <- deref p ;;
          (if hide then
             update p (set_hidden_children (hidden_children po ++ [self]))
           else if bool_decide (self ∈ hidden_children po) then
             update p (set_hidden_children (remove_first self (hidden_children po)))
           else raise ValueError) ;;;
          save_metadata p
      end
  end.

End Methods.

(** ** Well-formed trees *)

(** Every child names its parent: what lxml keeps true of its tree. *)
Definition tree_linked (h : heap) : bool :=
  forallb (fun p => forallb (fun c => bool_decide (parent_of h c = Some p))
                            (children_of h p))
          (seq 0 (length h)).

(** Two objects that differ in the order of their children only. *)
Definition same_but_order (o o' : node) : Prop :=
  o' = set_children (children o') o /\ children o' ≡ₚ children o.

(** Two heaps with the same objects, up to the order of children. *)
Definition reordered (h h' : heap) : Prop := Forall2 same_but_order h h'.

(** The children of [p], sorted. *)
Definition sort_children (p : nat) (h : heap) : heap :=
  alter (fun o => set_children (py_sorted (sort_key h) (children o)) o) p h.

(** The heap and the result that a run of [m] leaves. *)
Definition exec {A} (m : M A) (h : heap) : heap := snd (m h).

Definition result {A} (m : M A) (h : heap) : outcome A := fst (m h).

(** ** Example documents *)

(** A [config] document whose children are out of order at two places:
    [installSteps] (2) comes before [moduleName] (1) under the root (0),
    and [optionalFileGroups] (5) before [visible] (4) under the
    [installStep] (3). *)
Definition unsorted_config : heap :=
  [ set_children [2; 1] (new_node NodeConfigRoot);
    set_parent (Some 0) (new_node NodeConfigModName);
    set_children [3] (set_parent (Some 0) (new_node NodeConfigInstallSteps));
    set_children [5; 4] (set_parent (Some 2) (new_node NodeConfigInstallStep));
    set_parent (Some 3) (new_node NodeConfigVisible);
    set_parent (Some 3) (new_node NodeConfigOptGroups) ].

(** ** The predicate of the specification *)

(** [can_add_child] in the words of the specification: the class of
    the candidate is among the allowed children, or the candidate is a
    comment, and one more node of its class does not exceed
    [allowed_instances]. *)
Definition spec_can_add_child (h : heap) (self child : node) : bool :=
  (bool_decide (cls child ∈ allowed_children (cls self))
   || bool_decide (cls child = NodeComment))
  && (Nat.eqb (allowed_instances (cls child)) 0
      || Nat.leb (S (count_class h (cls child) (children self)))
                 (allowed_instances (cls child))).


(** A [typeDescriptor] (0) whose only child is a comment (1), and a
    [dependencyType] node (2) that is not in the tree. *)
Definition type_descriptor_with_comment : heap :=
  [ set_children [1] (new_node NodeConfigTypeDesc);
    set_text "a user comment" (set_parent (Some 0) (new_comment "a user comment"));
    new_node NodeConfigDependencyType ].

(** A [config] root (0) with its [moduleName] (1), and a second
    [moduleName] node (2) that is not in the tree. *)
Definition config_with_name : heap :=
  [ set_children [1] (new_node NodeConfigRoot);
    set_parent (Some 0) (new_node NodeConfigModName);
    new_node NodeConfigModName ].

(** An empty [typeDescriptor] (0), and a [dependencyType] (1) and a
    [type] (2) that are not in the tree. *)
Definition empty_type_descriptor : heap :=
  [ new_node NodeConfigTypeDesc;
    new_node NodeConfigDependencyType;
    new_node NodeConfigType ].

(** A node as a constructor leaves it: outside every tree, without
    children, hidden nodes or metadata. *)
Definition fresh (o : node) : Prop :=
  parent o = None /\ children o = [] /\ hidden_children o = [] /\
  is_hidden o = false /\ metadata o = PyDict [].

(** An update that leaves the tree, the class, the properties and the
    hidden state of an object as they are. *)
Definition structural (f : node -> node) : Prop :=
  forall o, cls (f o) = cls o /\ parent (f o) = parent o /\
            children (f o) = children o /\ metadata (f o) = metadata o /\
            hidden_children (f o) = hidden_children o /\
            is_hidden (f o) = is_hidden o /\ properties (f o) = properties o.

(** Stand-ins for what lies outside [nodes.py], for running examples. *)
Definition no_decode (s : string) : option pyvalue := None.

Definition no_encode (v : pyvalue) : string := "{}".

Definition no_tostring (h : heap) (i : nat) : string := "".

Definition no_restore (self : nat) (s : string) : M unit := ret tt.

(** A [plugin] (0) whose metadata comment (1) is the sentinel alone. *)
Definition plugin_with_bare_sentinel : heap :=
  [ set_children [1] (new_node NodeConfigPlugin);
    set_text sentinel (set_parent (Some 0) (new_comment sentinel)) ].


(** A [plugin] (0) whose metadata comment (1) carries a JSON list. *)
Definition plugin_with_list_payload : heap :=
  [ set_children [1] (new_node NodeConfigPlugin);
    set_text (sentinel +:+ " []")
      (set_parent (Some 0) (new_comment (sentinel +:+ " []"))) ].

(** A [plugin] (0) whose metadata comment (1) is not JSON. *)
Definition plugin_with_broken_payload : heap :=
  [ set_children [1] (new_node NodeConfigPlugin);
    set_text (sentinel +:+ " {name")
      (set_parent (Some 0) (new_comment (sentinel +:+ " {name"))) ].

(** A decoder that knows the empty list only. *)
Definition decode_list (s : string) : option pyvalue :=
  if String.eqb s "[]" then Some (PyList []) else None.

(** ** Metadata comments *)

(** A comment that carries metadata: [type(child) is NodeComment] and
    [child.text.startswith("<designer.metadata.do.not.edit>")]. *)
Definition is_meta_comment (o : node) : bool :=
  bool_decide (cls o = NodeComment) && PyStr.startswith (text o) sentinel.

Definition meta_at (h : heap) (i : nat) : bool :=
  match h !! i with Some o => is_meta_comment o | None => false end.

Definition text_of (h : heap) (i : nat) : string :=
  match h !! i with Some o => text o | None => "" end.

(** The heap that [deannotate] leaves. *)
Definition deannotated (h : heap) (element : nat) : heap :=
  fold_left (fun h x => alter strip_annotations x h) (subtree_elements h element) h.

(** The heap that the loop over the hidden elements leaves. *)
Definition deannotated_all (h : heap) (l : list nat) : heap :=
  fold_left deannotated l h.

(** The snapshots that the loop over the hidden elements makes. *)
Fixpoint snapshots (tostring : heap -> nat -> string) (h : heap) (l : list nat)
  : list pyvalue :=
  match l with
  | [] => []
  | element :: l' =>
      let h1 := deannotated h element in
      PyStr (escape_snapshot (tostring h1 element)) :: snapshots tostring h1 l'
  end.

(** The mapping that [save_metadata] computes (lines 249-267) from the
    mapping [d] of the node [s] of identity [self]. *)
Definition new_metadata (tostring : heap -> nat -> string) (h : heap)
    (self : nat) (s : node) (d : list (string * pyvalue)) : list (string * pyvalue) :=
  let d1 := if negb (String.eqb (item_text s) (name (cls s)))
            then dict_set d "name" (PyStr (item_text s))
            else dict_pop d "name" in
  let d2 := if negb (String.eqb (user_sort_order s) "")
               && negb (String.eqb (user_sort_order s) (PyStr.zfill 7 "0"))
            then dict_set d1 "user_sort" (PyStr (PyStr.zfill 7 (user_sort_order s)))
            else dict_pop d1 "user_sort" in
  let h2 := alter (set_metadata (PyDict d2)) self
              (alter (set_metadata (PyDict d1)) self h) in
  match hidden_children s with
  | _ :: _ =>
      dict_set d2 "hidden_nodes" (PyList (snapshots tostring h2 (hidden_children s)))
  | [] => dict_pop d2 "hidden_nodes"
  end.

(** A class whose nodes may carry a metadata comment (the test of
    lines 269-270). *)
Definition keeps_metadata (c : node_class) : bool :=
  negb (match allowed_children c with [] => true | _ => false end
        && negb (bool_decide ("<node_text>" ∈ property_keys c))).

(** The text of a metadata comment is rewritten. *)
Definition retext (v : string) (o : node) : node :=
  if is_meta_comment o then set_text v o else o.

(** Children are distinct, as in every tree. *)
Definition children_nodup (h : heap) : bool :=
  forallb (fun p => bool_decide (NoDup (children_of h p))) (seq 0 (length h)).

(** A metadata comment [c] leaves the children of [self]. *)
Definition unlink_meta (self : nat) (h : heap) (c : nat) : heap :=
  if meta_at h c then
    alter (set_parent None) c
      (alter (fun o => set_children (remove_first c (children o)) o) self h)
  else h.

(** Whether [o] lets a comment in: every element does, but for a
    [typeDescriptor] that has a child (lines 1231-1235). *)
Definition accepts_comment (o : node) : bool :=
  if decide (cls o = NodeConfigTypeDesc) then Nat.ltb (length (children o)) 1 else true.

(** The children of [p] are distinct and name [p] as their parent. *)
Definition owns (h : heap) (p : nat) : Prop :=
  NoDup (children_of h p) /\ forall c, c ∈ children_of h p -> parent_of h c = Some p.

(** ** What a method leaves as it was *)

(** [f] has the same value at every object of [h] in [h']. *)
Definition preserves {A} (f : node -> A) (h h' : heap) : Prop :=
  forall i o, h !! i = Some o -> exists o', h' !! i = Some o' /\ f o' = f o.

(** What the methods on metadata do not write: the class, the
    properties, the label, the user rank and the hidden state of an
    object. *)
Definition fixed_fields (o : node) :=
  (cls o, properties o, item_text o, user_sort_order o,
   hidden_children o, is_hidden o).

(** The elements that [save_metadata] on [s] deannotates: those of the
    subtrees of the hidden children of [s]. *)
Definition hidden_elements (h : heap) (s : node) : list nat :=
  flat_map (subtree_elements h) (hidden_children s).

(** ** Example nodes with metadata *)

(** A [file] (0), of a class without children or text, that holds a
    metadata comment (1). *)
Definition file_with_metadata_comment : heap :=
  [ set_children [1] (new_node NodeConfigFile);
    set_text (sentinel +:+ " {old}")
      (set_parent (Some 0) (new_comment (sentinel +:+ " {old}"))) ].

(** A [plugin] (0) with the label [Textures], a metadata comment (1)
    and a [description] (2). *)
Definition renamed_plugin : heap :=
  [ set_item_text "Textures" (set_children [1; 2] (new_node NodeConfigPlugin));
    set_text (sentinel +:+ " {old}")
      (set_parent (Some 0) (new_comment (sentinel +:+ " {old}")));
    set_parent (Some 0) (new_node NodeConfigPluginDescription) ].

(** A [plugin] (0) with the label of its class, a metadata comment (1)
    and a [description] (2). *)
Definition plain_plugin : heap :=
  [ set_children [1; 2] (new_node NodeConfigPlugin);
    set_text (sentinel +:+ " {old}")
      (set_parent (Some 0) (new_comment (sentinel +:+ " {old}")));
    set_parent (Some 0) (new_node NodeConfigPluginDescription) ].

(** A [plugin] (0) with the label [Textures] and a [description] (1). *)
Definition renamed_plugin_unsaved : heap :=
  [ set_item_text "Textures" (set_children [1] (new_node NodeConfigPlugin));
    set_parent (Some 0) (new_node NodeConfigPluginDescription) ].

(** A [typeDescriptor] (0) of user rank 3 that holds a [type] (1). *)
Definition ranked_type_descriptor : heap :=
  [ set_user_sort_order "0000003" (set_children [1] (new_node NodeConfigTypeDesc));
    set_parent (Some 0) (new_node NodeConfigType) ].

(** A [plugin] (0) with its [files] (1), one [file] (2) in them, and a
    [config] root (3) that stands alone. *)
Definition plugin_with_files : heap :=
  [ set_children [1] (new_node NodeConfigPlugin);
    set_children [2] (set_parent (Some 0) (new_node NodeConfigFiles));
    set_parent (Some 1) (new_node NodeConfigFile);
    new_node NodeConfigRoot ].

(** [unsorted_config] after sorting. *)
Definition sorted_config : heap :=
  [ set_children [1; 2] (new_node NodeConfigRoot);
    set_parent (Some 0) (new_node NodeConfigModName);
    set_children [3] (set_parent (Some 0) (new_node NodeConfigInstallSteps));
    set_children [4; 5] (set_parent (Some 2) (new_node NodeConfigInstallStep));
    set_parent (Some 3) (new_node NodeConfigVisible);
    set_parent (Some 3) (new_node NodeConfigOptGroups) ].

(** ** What [write_attribs] writes *)

(** The attributes that [write_attribs] leaves on [o]: one for each
    property but the text, in the order of the properties. *)
Definition written_attribs (o : node) : list (string * string) :=
  map (fun key => (key, prop_value o key))
      (List.filter (fun key => negb (String.eqb key "<node_text>"))
                   (property_keys (cls o))).

(** The text that [write_attribs] leaves on [o]. *)
Definition written_text (o : node) : string :=
  if bool_decide ("<node_text>" ∈ property_keys (cls o))
  then prop_value o "<node_text>" else text o.

(** A [file] (0) with two properties set and a stale attribute. *)
Definition file_with_stale_attribute : heap :=
  [ set_attrib [("obsolete", "1")]
      (set_properties [("source", "a/b.esp"); ("priority", "3")]
         (new_node NodeConfigFile)) ].

(** ** Payloads *)


(** ** The items of the view *)

(** [NodeStandardItem.__lt__] (lines 295-301), for the items of the
    nodes [a] and [b]. *)
Definition NodeStandardItem_lt (h : heap) (a b : nat) : bool :=
  let self_sort := sort_key h a in
  let other_sort := sort_key h b in
  if String.ltb self_sort other_sort then true else false.

(** A [plugin] (0) whose hidden [files] (1) carries an [xsi:type]
    annotation. *)
Definition plugin_with_hidden_files : heap :=
  [ set_hidden_children [1] (set_children [1] (new_node NodeConfigPlugin));
    set_attrib [(XML_SCHEMA_INSTANCE_TYPE_ATTR, "xsd:string")]
      (set_is_hidden true (set_parent (Some 0) (new_node NodeConfigFiles))) ].

(** * Properties *)

(** ** [str.replace] and the escaping of snapshots *)

Section ReplaceFacts.
Import PyStr.

Lemma prefix_cons_ne a o c s : a <> c -> String.prefix (String a o) (String c s) = false.
Proof. intros H. simpl. destruct (ascii_dec a c); [contradiction | reflexivity]. Qed.

Lemma prefix_cons_eq a p s : String.prefix (String a p) (String a s) = String.prefix p s.
Proof. simpl. destruct (ascii_dec a a); [reflexivity | contradiction]. Qed.

Lemma prefix_app p r : String.prefix p (p +:+ r) = true.
Proof.
  induction p as [|a p IH]; simpl.
  - now destruct r.
  - destruct (ascii_dec a a); [exact IH | contradiction].
Qed.


Lemma prefix_app_inv p s : String.prefix p s = true -> exists r, s = p +:+ r.
Proof.
  revert s. induction p as [|a p IH]; intros s H.
  - exists s. reflexivity.
  - destruct s as [|c s]; simpl in H; [discriminate|].
    destruct (ascii_dec a c) as [->|]; [|discriminate].
    destruct (IH _ H) as [r ->]. exists r. reflexivity.
Qed.

Lemma drop_app p r : drop (String.length p) (p +:+ r) = r.
Proof. induction p; simpl; [now destruct r | assumption]. Qed.

Lemma replace_from_skip old new k s :
  replace_from old new k s = replace_from old new 0 (drop k s).
Proof.
  revert k. induction s as [|c s IH]; intros [|k]; try reflexivity.
  simpl. apply IH.
Qed.

Lemma replace_nil a o new : replace (String a o) new "" = "".
Proof. reflexivity. Qed.

Lemma replace_match a o new r :
  replace (String a o) new (String a (o +:+ r)) = new +:+ replace (String a o) new r.
Proof.
  unfold replace.
  change (replace_from (String a o) new 0 (String a (o +:+ r)))
    with (if String.prefix (String a o) (String a (o +:+ r))
          then new +:+ replace_from (String a o) new (String.length (String a o) - 1) (o +:+ r)
          else String a (replace_from (String a o) new 0 (o +:+ r))).
  assert (E : String.prefix (String a o) (String a (o +:+ r)) = true)
    by exact (prefix_app (String a o) r).
  rewrite E, replace_from_skip.
  replace (String.length (String a o) - 1) with (String.length o)
    by (simpl; now rewrite Nat.sub_0_r).
  now rewrite drop_app.
Qed.

Lemma replace_nomatch a o new c s :
  String.prefix (String a o) (String c s) = false ->
  replace (String a o) new (String c s) = String c (replace (String a o) new s).
Proof.
  intros H. unfold replace.
  change (replace_from (String a o) new 0 (String c s))
    with (if String.prefix (String a o) (String c s)
          then new +:+ replace_from (String a o) new (String.length (String a o) - 1) s
          else String c (replace_from (String a o) new 0 s)).
  now rewrite H.
Qed.

Lemma replace_cons_ne a o new c s :
  a <> c -> replace (String a o) new (String c s) = String c (replace (String a o) new s).
Proof. intros H. apply replace_nomatch, prefix_cons_ne, H. Qed.

(** A pass whose pattern and replacement begin with the same character
    keeps the first character of its input. *)
Lemma replace_cons_inv a o n s c t :
  replace (String a o) (String a n) s = String c t ->
  exists s', s = String c s' /\ (c <> a -> t = replace (String a o) (String a n) s').
Proof.
  destruct s as [|d s]; [discriminate|].
  destruct (ascii_dec a d) as [<-|Hd].
  - destruct (String.prefix (String a o) (String a s)) eqn:E.
    + destruct (prefix_app_inv _ _ E) as [r Hr]. injection Hr as ->.
      rewrite replace_match. simpl. intros [= <- _].
      exists (o +:+ r). split; [reflexivity | congruence].
    + rewrite (replace_nomatch _ _ _ _ _ E). intros [= <- _].
      exists s. split; [reflexivity | congruence].
  - rewrite (replace_cons_ne _ _ _ _ _ Hd). intros [= <- <-].
    exists s. split; reflexivity.
Qed.


Lemma contains_cons sub c s : contains sub (String c s) = false -> contains sub s = false.
Proof. simpl. intros H; apply orb_false_elim in H; tauto. Qed.

Lemma contains_app sub w r : contains sub (w +:+ r) = false -> contains sub r = false.
Proof. induction w as [|c w IH]; [trivial|]. intros H. apply IH, (contains_cons _ c), H. Qed.

End ReplaceFacts.

Section EscapeFacts.
Import PyStr.

Local Abbreviation r1 := (replace "<!--" "<!- -").
Local Abbreviation r2 := (replace "-->" "- ->").
Local Abbreviation u1 := (replace "<!- -" "<!--").
Local Abbreviation u2 := (replace "- ->" "-->").









Lemma r1_match R :
  r1 (String "<" (String "!" (String "-" (String "-" R))))
  = String "<" (String "!" (String "-" (String " " (String "-" (r1 R))))).
Proof. exact (replace_match "<" "!--" "<!- -" R). Qed.

Lemma r2_match R :
  r2 (String "-" (String "-" (String ">" R)))
  = String "-" (String " " (String "-" (String ">" (r2 R)))).
Proof. exact (replace_match "-" "->" "- ->" R). Qed.






End EscapeFacts.

(** ** [sorted] *)

Section SortedFacts.
Variable key : nat -> string.

Lemma insert_by_perm x l : insert_by key x l ≡ₚ x :: l.
Proof.
  induction l as [|y l IH]; simpl; [reflexivity|].
  destruct (String.leb (key x) (key y)); [reflexivity|].
  rewrite IH. apply perm_swap.
Qed.

Lemma py_sorted_perm l : py_sorted key l ≡ₚ l.
Proof.
  induction l as [|x l IH]; simpl; [reflexivity|].
  rewrite insert_by_perm. now rewrite IH.
Qed.

Lemma is_sorted_cons x y l :
  is_sorted key (x :: y :: l) = String.leb (key x) (key y) && is_sorted key (y :: l).
Proof. reflexivity. Qed.

Lemma is_sorted_tail x l : is_sorted key (x :: l) = true -> is_sorted key l = true.
Proof.
  destruct l as [|y l]; [reflexivity|]. rewrite is_sorted_cons.
  intros H. apply andb_true_iff in H. tauto.
Qed.

Lemma insert_by_sorted x l :
  is_sorted key l = true -> is_sorted key (insert_by key x l) = true.
Proof.
  induction l as [|y l IH]; intros Hs; [reflexivity|].
  simpl insert_by. destruct (String.leb (key x) (key y)) eqn:E.
  - rewrite is_sorted_cons, E. exact Hs.
  - assert (Hyx : String.leb (key y) (key x) = true).
    { destruct (String.leb_total (key x) (key y)); congruence. }
    pose proof (IH (is_sorted_tail _ _ Hs)) as IH'.
    destruct l as [|z l]; simpl insert_by in *.
    + rewrite is_sorted_cons, Hyx. reflexivity.
    + rewrite is_sorted_cons in Hs. apply andb_true_iff in Hs as [Hyz Hs].
      destruct (String.leb (key x) (key z)).
      * rewrite is_sorted_cons, Hyx. exact IH'.
      * rewrite is_sorted_cons, Hyz. exact IH'.
Qed.

Lemma py_sorted_is_sorted l : is_sorted key (py_sorted key l) = true.
Proof.
  induction l as [|x l IH]; [reflexivity|]. now apply insert_by_sorted.
Qed.

(** Sorting a sorted list changes nothing. *)
Lemma py_sorted_id l : is_sorted key l = true -> py_sorted key l = l.
Proof.
  induction l as [|x l IH]; intros Hs; [reflexivity|].
  simpl. rewrite (IH (is_sorted_tail _ _ Hs)).
  destruct l as [|y l]; [reflexivity|].
  rewrite is_sorted_cons in Hs. apply andb_true_iff in Hs as [Hxy _].
  simpl. now rewrite Hxy.
Qed.

Lemma py_sorted_idem l : py_sorted key (py_sorted key l) = py_sorted key l.
Proof. apply py_sorted_id, py_sorted_is_sorted. Qed.
End SortedFacts.

Lemma insert_by_ext key key' x l :
key x = key' x -> (forall y, y ∈ l -> key y = key' y) ->
insert_by key x l = insert_by key' x l.
Proof.
intros Hx. induction l as [|y l IH]; intros H; [reflexivity|].
simpl. rewrite Hx, (H y) by left.
rewrite IH; [reflexivity|]. intros z Hz. apply H. now right.
Qed.

Lemma py_sorted_ext key key' l :
(forall y, y ∈ l -> key y = key' y) -> py_sorted key l = py_sorted key' l.
Proof.
induction l as [|x l IH]; intros H; [reflexivity|].
simpl. rewrite IH by (intros; apply H; now right).
apply insert_by_ext; [apply H; left|].
intros y Hy. apply H. right.
rewrite <- (py_sorted_perm key' l). exact Hy.
Qed.

Lemma is_sorted_ext key key' l :
(forall y, y ∈ l -> key y = key' y) -> is_sorted key l = is_sorted key' l.
Proof.
induction l as [|x l IH]; intros H; [reflexivity|].
destruct l as [|y l]; [reflexivity|].
rewrite !is_sorted_cons, IH by (intros; apply H; now right).
rewrite (H x) by left. rewrite (H y) by (right; left). reflexivity.
Qed.

(** ** Heaps *)

Lemma alter_id_at (f : node -> node) (i : nat) (h : heap) :
  (forall o, h !! i = Some o -> f o = o) -> alter f i h = h.
Proof.
  intros H. apply list_eq. intros j. destruct (decide (i = j)) as [<-|Hne].
  - rewrite list_lookup_alter_eq. destruct (h !! i) as [o|] eqn:E; [|reflexivity].
    simpl. now rewrite (H o).
  - now rewrite list_lookup_alter_ne.
Qed.

Lemma set_children_id o : set_children (children o) o = o.
Proof. now destruct o. Qed.

Lemma set_parent_id o : set_parent (parent o) o = o.
Proof. now destruct o. Qed.

Lemma tree_linked_spec h :
  tree_linked h = true <->
  forall p o c, h !! p = Some o -> c ∈ children o -> parent_of h c = Some p.
Proof.
  unfold tree_linked. rewrite forallb_forall. split.
  - intros H p o c Hp Hc.
    assert (Hlt : p < length h) by (eapply lookup_lt_Some; eauto).
    specialize (H p). rewrite in_seq in H. specialize (H ltac:(lia)).
    rewrite forallb_forall in H. specialize (H c).
    unfold children_of in H. rewrite Hp in H.
    apply list_elem_of_In in Hc. specialize (H Hc).
    now apply bool_decide_eq_true in H.
  - intros H p _. apply forallb_forall. intros c Hc.
    apply bool_decide_eq_true. unfold children_of in Hc.
    destruct (h !! p) as [o|] eqn:Hp; [|destruct Hc].
    apply (H p o c Hp). now apply list_elem_of_In.
Qed.

Section Reordered.

Lemma same_but_order_refl o : same_but_order o o.
Proof. split; [symmetry; apply set_children_id | reflexivity]. Qed.

Lemma same_but_order_trans o1 o2 o3 :
  same_but_order o1 o2 -> same_but_order o2 o3 -> same_but_order o1 o3.
Proof.
  intros [E1 P1] [E2 P2]. split; [|now rewrite P2].
  rewrite E2, E1. now destruct o1.
Qed.

Lemma reordered_refl h : reordered h h.
Proof. apply Forall2_same_length_lookup. split; [reflexivity|].
  intros i x y Hx Hy. assert (x = y) as -> by congruence. apply same_but_order_refl.
Qed.

Lemma reordered_trans h1 h2 h3 : reordered h1 h2 -> reordered h2 h3 -> reordered h1 h3.
Proof. apply Forall2_trans. exact same_but_order_trans. Qed.

Lemma reordered_length h h' : reordered h h' -> length h' = length h.
Proof. intros H. symmetry. exact (Forall2_length _ _ _ H). Qed.

Lemma reordered_lookup h h' i o :
  reordered h h' -> h !! i = Some o ->
  exists o', h' !! i = Some o' /\ same_but_order o o'.
Proof. intros H. exact (Forall2_lookup_l _ _ _ _ _ H). Qed.

Lemma reordered_lookup_None h h' i :
  reordered h h' -> h !! i = None -> h' !! i = None.
Proof.
  intros H E. apply lookup_ge_None. rewrite (reordered_length _ _ H).
  now apply lookup_ge_None.
Qed.

Lemma reordered_sort_key h h' x : reordered h h' -> sort_key h' x = sort_key h x.
Proof.
  intros H. unfold sort_key. destruct (h !! x) as [o|] eqn:E.
  - destruct (reordered_lookup _ _ _ _ H E) as (o' & -> & -> & _). reflexivity.
  - now rewrite (reordered_lookup_None _ _ _ H E).
Qed.

Lemma reordered_parent_of h h' x : reordered h h' -> parent_of h' x = parent_of h x.
Proof.
  intros H. unfold parent_of. destruct (h !! x) as [o|] eqn:E.
  - destruct (reordered_lookup _ _ _ _ H E) as (o' & -> & -> & _). reflexivity.
  - now rewrite (reordered_lookup_None _ _ _ H E).
Qed.

Lemma reordered_is_element h h' x : reordered h h' -> is_element h' x = is_element h x.
Proof.
  intros H. unfold is_element. destruct (h !! x) as [o|] eqn:E.
  - destruct (reordered_lookup _ _ _ _ H E) as (o' & -> & -> & _). reflexivity.
  - now rewrite (reordered_lookup_None _ _ _ H E).
Qed.

Lemma reordered_children_of h h' x : reordered h h' -> children_of h' x ≡ₚ children_of h x.
Proof.
  intros H. unfold children_of. destruct (h !! x) as [o|] eqn:E.
  - destruct (reordered_lookup _ _ _ _ H E) as (o' & -> & _ & HP). exact HP.
  - now rewrite (reordered_lookup_None _ _ _ H E).
Qed.

Lemma reordered_linked h h' :
  reordered h h' -> tree_linked h = true -> tree_linked h' = true.
Proof.
  intros H. rewrite !tree_linked_spec. intros L p o' c Hp Hc.
  rewrite (reordered_parent_of _ _ _ H).
  destruct (Forall2_lookup_r _ _ _ _ _ H Hp) as (o & Ho & _ & HP).
  apply (L p o c Ho). now rewrite <- HP.
Qed.

Lemma sort_children_reordered p h : reordered h (sort_children p h).
Proof.
  unfold sort_children. apply Forall2_alter_r; [apply reordered_refl|].
  intros x y Hx Hy [E HP]. split.
  - simpl. rewrite E. now destruct x.
  - simpl. now rewrite py_sorted_perm.
Qed.

End Reordered.

(** ** [sort] *)

Lemma reparent_linked p l (h : heap) :
  (forall x, x ∈ l -> parent_of h x = Some p) ->
  for_each l (fun x => update x (set_parent (Some p))) h = (Ret tt, h).
Proof.
  induction l as [|x l IH]; intros H; [reflexivity|].
  simpl. unfold bind, update at 1.
  rewrite alter_id_at.
  - apply IH. intros y Hy. apply H. now right.
  - intros o Ho. specialize (H x ltac:(left)). unfold parent_of in H.
    rewrite Ho in H. rewrite <- H. apply set_parent_id.
Qed.

Lemma parent_of_alter_children f p (h : heap) x :
  (forall o, parent (f o) = parent o) -> parent_of (alter f p h) x = parent_of h x.
Proof.
  intros Hf. unfold parent_of. destruct (decide (p = x)) as [<-|Hne].
  - rewrite list_lookup_alter_eq. destruct (h !! p); simpl; [apply Hf | reflexivity].
  - now rewrite list_lookup_alter_ne.
Qed.

Lemma assign_sorted p h :
  tree_linked h = true ->
  etree_assign_children p (py_sorted (sort_key h) (children_of h p)) h
  = (Ret tt, sort_children p h).
Proof.
  intros L. unfold etree_assign_children, bind, update at 1.
  assert (E : alter (set_children (py_sorted (sort_key h) (children_of h p))) p h
              = sort_children p h).
  { unfold sort_children. apply list_alter_ext; [|reflexivity].
    intros o Ho. unfold children_of. now rewrite Ho. }
  rewrite E. apply reparent_linked. intros x Hx.
  rewrite (reordered_parent_of _ _ _ (sort_children_reordered p h)).
  rewrite py_sorted_perm in Hx. unfold children_of in Hx.
  destruct (h !! p) as [o|] eqn:Ho; [|now apply elem_of_nil in Hx].
  exact (proj1 (tree_linked_spec h) L p o x Ho Hx).
Qed.

Lemma sort_loop ps : forall h,
  tree_linked h = true ->
  for_each ps (fun p =>
    l <- reads (fun h => Ret (py_sorted (sort_key h) (children_of h p))) ;;
    etree_assign_children p l) h
  = (Ret tt, fold_left (fun h p => sort_children p h) ps h).
Proof.
  induction ps as [|p ps IH]; intros h L; [reflexivity|].
  simpl. unfold bind at 1. unfold bind at 1, reads at 1.
  rewrite (assign_sorted p h L). apply IH.
  exact (reordered_linked _ _ (sort_children_reordered p h) L).
Qed.

Lemma NodeElement_sort_spec self h :
  tree_linked h = true ->
  NodeElement_sort self h
  = (Ret tt, fold_left (fun h p => sort_children p h) (xpath_parents h self) h).
Proof. intros L. unfold NodeElement_sort, bind, reads at 1. now apply sort_loop. Qed.

Lemma fold_sort_reordered ps : forall h,
  reordered h (fold_left (fun h p => sort_children p h) ps h).
Proof.
  induction ps as [|p ps IH]; intros h; [apply reordered_refl|].
  simpl. eapply reordered_trans; [apply sort_children_reordered | apply IH].
Qed.

Lemma children_of_sort_children q h p :
  children_of (sort_children q h) p
  = if decide (p = q) then py_sorted (sort_key h) (children_of h p) else children_of h p.
Proof.
  unfold children_of, sort_children. destruct (decide (p = q)) as [->|Hne].
  - rewrite list_lookup_alter_eq. now destruct (h !! q).
  - now rewrite list_lookup_alter_ne.
Qed.

Lemma sort_children_keeps_sorted q h p :
  is_sorted (sort_key h) (children_of h p) = true ->
  is_sorted (sort_key (sort_children q h)) (children_of (sort_children q h) p) = true.
Proof.
  intros Hs.
  rewrite (is_sorted_ext _ (sort_key h))
    by (intros; apply reordered_sort_key, sort_children_reordered).
  rewrite children_of_sort_children. destruct (decide (p = q)); [|exact Hs].
  apply py_sorted_is_sorted.
Qed.

Lemma fold_sort_keeps_sorted ps p : forall h,
  is_sorted (sort_key h) (children_of h p) = true ->
  let h' := fold_left (fun h p => sort_children p h) ps h in
  is_sorted (sort_key h') (children_of h' p) = true.
Proof.
  induction ps as [|q ps IH]; intros h Hs; [exact Hs|].
  simpl. apply IH. now apply sort_children_keeps_sorted.
Qed.

(** After the loop, the children of every parent it visited are sorted. *)
Lemma fold_sort_sorted ps p : forall h,
  p ∈ ps ->
  let h' := fold_left (fun h p => sort_children p h) ps h in
  is_sorted (sort_key h') (children_of h' p) = true.
Proof.
  induction ps as [|q ps IH]; intros h Hp; [now apply elem_of_nil in Hp|].
  simpl. apply elem_of_cons in Hp as [->|Hp].
  - apply fold_sort_keeps_sorted.
    rewrite (is_sorted_ext _ (sort_key h))
      by (intros; apply reordered_sort_key, sort_children_reordered).
    rewrite children_of_sort_children. destruct (decide (q = q)); [|congruence].
    apply py_sorted_is_sorted.
  - now apply IH.
Qed.

Lemma sort_children_sorted_id p h :
  is_sorted (sort_key h) (children_of h p) = true -> sort_children p h = h.
Proof.
  intros Hs. unfold sort_children. apply alter_id_at. intros o Ho.
  unfold children_of in Hs. rewrite Ho in Hs.
  rewrite (py_sorted_id _ _ Hs). apply set_children_id.
Qed.

Lemma fold_sort_sorted_id ps h :
  (forall p, p ∈ ps -> is_sorted (sort_key h) (children_of h p) = true) ->
  fold_left (fun h p => sort_children p h) ps h = h.
Proof.
  induction ps as [|q ps IH]; intros H; [reflexivity|].
  simpl. rewrite sort_children_sorted_id by (apply H; left).
  apply IH. intros p Hp. apply H. now right.
Qed.

Lemma getroot_reordered h h' : reordered h h' ->
  forall f i, getroot f h' i = getroot f h i.
Proof.
  intros H f. induction f as [|f IH]; intros i; [reflexivity|].
  simpl. rewrite (reordered_parent_of _ _ _ H).
  destruct (parent_of h i); [apply IH | reflexivity].
Qed.

Lemma iter_tree_reordered h h' : reordered h h' ->
  forall f r x, x ∈ iter_tree f h' r <-> x ∈ iter_tree f h r.
Proof.
  intros H f. induction f as [|f IH]; intros r x; [reflexivity|].
  cbn [iter_tree]. rewrite !elem_of_cons, !list_elem_of_In, !in_flat_map.
  split; intros [->|(y & Hy & Hx)]; try (now left); right; exists y;
    rewrite <- list_elem_of_In in Hy, Hx; rewrite <- !list_elem_of_In.
  - rewrite (reordered_children_of _ _ _ H) in Hy. now rewrite <- IH.
  - rewrite (reordered_children_of _ _ _ H). now rewrite IH.
Qed.

Lemma existsb_perm (P : nat -> bool) l l' : l ≡ₚ l' -> existsb P l = existsb P l'.
Proof.
  induction 1 as [|x l l' _ IH|x y l|l1 l2 l3 _ IH1 _ IH2]; simpl.
  - reflexivity.
  - now rewrite IH.
  - now rewrite !orb_assoc, (orb_comm (P y)).
  - congruence.
Qed.

Lemma existsb_ext_in (P Q : nat -> bool) l :
  (forall x, P x = Q x) -> existsb P l = existsb Q l.
Proof. intros H. induction l; simpl; [reflexivity | now rewrite H, IHl]. Qed.

Lemma xpath_parents_reordered h h' self x : reordered h h' ->
  x ∈ xpath_parents h' self -> x ∈ xpath_parents h self.
Proof.
  intros H. unfold xpath_parents. rewrite !list_elem_of_filter.
  rewrite (reordered_length _ _ H), (getroot_reordered _ _ H).
  rewrite (iter_tree_reordered _ _ H), (reordered_is_element _ _ _ H).
  rewrite (existsb_perm _ _ _ (reordered_children_of _ _ x H)).
  rewrite (existsb_ext_in _ (is_element h)); [tauto|].
  intros y. now apply reordered_is_element.
Qed.

Lemma NodeElement_sort_again self h :
  tree_linked h = true ->
  let h1 := fold_left (fun h p => sort_children p h) (xpath_parents h self) h in
  NodeElement_sort self h1 = (Ret tt, h1).
Proof.
  intros L h1.
  assert (R : reordered h h1) by apply fold_sort_reordered.
  rewrite NodeElement_sort_spec by exact (reordered_linked _ _ R L).
  f_equal. apply fold_sort_sorted_id. intros p Hp.
  apply (fold_sort_sorted (xpath_parents h self) p h).
  now apply (xpath_parents_reordered h h1).
Qed.

Lemma sort_run self h :
  tree_linked h = true ->
  sort self h = (Raise ReferenceError, h) \/
  exists h', sort self h = (Ret tt, h') /\ sort self h' = (Ret tt, h').
Proof.
  intros L. unfold sort, bind, deref, reads.
  destruct (h !! self) as [s|] eqn:Hs; [right | now left].
  destruct (decide (cls s = NodeComment)) as [Hc|Hc].
  - exists h. rewrite Hs, Hc. split; reflexivity.
  - assert (E : (match cls s with NodeComment => ret tt | _ => NodeElement_sort self end) h
                = NodeElement_sort self h) by (destruct (cls s); congruence).
    rewrite E, (NodeElement_sort_spec self h L).
    set (h1 := fold_left _ _ h). exists h1. split; [reflexivity|].
    assert (R : reordered h h1) by apply fold_sort_reordered.
    destruct (reordered_lookup _ _ _ _ R Hs) as (s1 & Hs1 & Es1 & _).
    rewrite Hs1. assert (Ec : cls s1 = cls s) by (rewrite Es1; reflexivity).
    assert (E1 : (match cls s1 with NodeComment => ret tt | _ => NodeElement_sort self end) h1
                = NodeElement_sort self h1) by (rewrite Ec; destruct (cls s); congruence).
    rewrite E1. exact (NodeElement_sort_again self h L).
Qed.

(** C7. Calling [sort()] twice in a row leaves every node of the heap,
    and so the child order of every node, as one call leaves it. *)
Theorem sort_idempotent (h : heap) (self : nat) :
  tree_linked h = true ->
  (sort self ;;; sort self) h = sort self h.
Proof.
  intros L. unfold bind.
  destruct (sort_run self h L) as [E|(h' & E & E')]; rewrite E; [reflexivity | exact E'].
Qed.

Lemma sort_idempotent_witness :
  tree_linked unsorted_config = true /\
  (sort 3 ;;; sort 3) unsorted_config = sort 3 unsorted_config.
Proof. split; [reflexivity | apply sort_idempotent; reflexivity]. Defined.

Lemma sort_reordered self h :
  tree_linked h = true -> reordered h (snd (sort self h)).
Proof.
  intros L. unfold sort, bind, deref, reads.
  destruct (h !! self) as [s|] eqn:Hs; [|apply reordered_refl].
  destruct (bool_decide (cls s = NodeComment)) eqn:Hc.
  - apply bool_decide_eq_true in Hc. rewrite Hc. apply reordered_refl.
  - apply bool_decide_eq_false in Hc.
    assert (E : (match cls s with NodeComment => ret tt | _ => NodeElement_sort self end) h
                = NodeElement_sort self h) by (destruct (cls s); congruence).
    rewrite E, (NodeElement_sort_spec self h L). apply fold_sort_reordered.
Qed.

(** C10. [sort()] creates no node and destroys none, and only the
    order of siblings changes: every node after the call is the node
    before it with its children in another order, so that its parent,
    its class and every other attribute are as before, and its
    children are a permutation of its children before. *)
Theorem sort_keeps_nodes (h : heap) (self : nat) :
  tree_linked h = true ->
  length (exec (sort self) h) = length h /\
  forall i o, h !! i = Some o ->
    exists o', exec (sort self) h !! i = Some o' /\
               o' = set_children (children o') o /\
               parent o' = parent o /\
               children o' ≡ₚ children o.
Proof.
  intros L. pose proof (sort_reordered self h L) as R. split.
  - exact (reordered_length _ _ R).
  - intros i o Ho. destruct (reordered_lookup _ _ _ _ R Ho) as (o' & Ho' & E & HP).
    exists o'. split; [exact Ho'|]. split; [exact E|]. split; [now rewrite E | exact HP].
Qed.

Lemma sort_keeps_nodes_witness :
  tree_linked unsorted_config = true /\
  exists o', exec (sort 3) unsorted_config !! 3 = Some o' /\
    o' = set_children (children o')
           (set_children [5; 4]
              (set_parent (Some 2) (new_node NodeConfigInstallStep))) /\
    parent o' = Some 2 /\
    children o' ≡ₚ [5; 4].
Proof.
  split; [reflexivity|].
  exact (proj2 (sort_keeps_nodes unsorted_config 3 eq_refl) 3 _ eq_refl).
Defined.

(** ** The escaping round trip *)




Example escape_unescape_placeholder :
  unescape_snapshot (escape_snapshot "<plugin><!--a- ->b--></plugin>")
  = "<plugin><!--a-->b--></plugin>".
Proof. vm_compute. reflexivity. Qed.

(** A bare [--] is left as it is. *)
Example escape_keeps_double_hyphen : escape_snapshot "a--b" = "a--b".
Proof. vm_compute. reflexivity. Qed.

(** ** [can_add_child] and [add_child] *)

Lemma tag_comment c : tag c = CommentTag <-> c = NodeComment.
Proof. split; [destruct c; (reflexivity || discriminate) | now intros ->]. Qed.

Lemma NodeElement_can_add_child_spec h p c :
  NodeElement_can_add_child h p c = spec_can_add_child h p c.
Proof.
  unfold NodeElement_can_add_child, spec_can_add_child.
  assert (E : bool_decide (tag (cls c) = CommentTag) = bool_decide (cls c = NodeComment))
    by (apply bool_decide_ext, tag_comment).
  rewrite E.
  destruct (Nat.eqb_spec (allowed_instances (cls c)) 0) as [Hz|Hz]; cbn [negb orb].
  - rewrite andb_true_r. now destruct (_ || _).
  - destruct (Nat.leb_spec (allowed_instances (cls c))
                           (count_class h (cls c) (children p))) as [Hle|Hlt];
      destruct (Nat.leb_spec (S (count_class h (cls c) (children p)))
                             (allowed_instances (cls c))); try lia;
      rewrite ?andb_false_r, ?andb_true_r; try reflexivity.
    now destruct (_ || _).
Qed.

Lemma can_add_child_run (h : heap) (P C : nat) (p c : node) :
  h !! P = Some p -> h !! C = Some c -> cls p <> NodeComment ->
  can_add_child P C h
  = (Ret (NodeElement_can_add_child h p c
          && (if decide (cls p = NodeConfigTypeDesc)
              then Nat.ltb (length (children p)) 1 else true)), h).
Proof.
  intros Hp Hc Hel. unfold can_add_child, bind, deref, reads. rewrite Hp.
  destruct (decide (cls p = NodeConfigTypeDesc)) as [E|E].
  - rewrite E, Hc. unfold NodeConfigTypeDesc_can_add_child.
    destruct (NodeElement_can_add_child h p c); [|reflexivity].
    now destruct (Nat.ltb _ _).
  - rewrite andb_true_r. destruct (cls p); try congruence; now rewrite Hc.
Qed.





Section AddChild.

Variable os_sep : ascii.
Variable decode : string -> option pyvalue.
Variable encode : pyvalue -> string.
Variable tostring : heap -> nat -> string.
Variable restore_hidden_node : nat -> string -> M unit.

Local Abbreviation add_child' :=
  (add_child os_sep decode encode tostring restore_hidden_node).

Lemma add_child_refused h P C :
  can_add_child P C h = (Ret false, h) -> add_child' P C h = (Ret tt, h).
Proof. intros E. unfold add_child, add_child_with, bind. now rewrite E. Qed.

Lemma can_add_child_full h P C p c :
  h !! P = Some p -> h !! C = Some c -> cls p <> NodeComment ->
  0 < allowed_instances (cls c) ->
  allowed_instances (cls c) <= count_class h (cls c) (children p) ->
  can_add_child P C h = (Ret false, h).
Proof.
  intros Hp Hc Hel Hpos Hfull.
  rewrite (can_add_child_run h P C p c Hp Hc Hel), NodeElement_can_add_child_spec.
  unfold spec_can_add_child.
  rewrite (proj2 (Nat.eqb_neq _ 0)) by lia.
  rewrite (proj2 (Nat.leb_gt _ _)) by lia.
  now rewrite andb_false_r.
Qed.

(** C2. When the parent [P] already has [N] children of the class of
    the candidate [C], [N > 0] being the [allowed_instances] of that
    class, [can_add_child] returns false and [add_child] returns
    without a change to any object. *)
Theorem add_child_at_limit (h : heap) (P C : nat) (p c : node) :
  h !! P = Some p -> h !! C = Some c -> cls p <> NodeComment ->
  0 < allowed_instances (cls c) ->
  count_class h (cls c) (children p) = allowed_instances (cls c) ->
  can_add_child P C h = (Ret false, h) /\ add_child' P C h = (Ret tt, h).
Proof.
  intros Hp Hc Hel Hpos Hn.
  assert (E : can_add_child P C h = (Ret false, h))
    by (apply (can_add_child_full h P C p c); auto; lia).
  split; [exact E | now apply add_child_refused].
Qed.

End AddChild.

Lemma add_child_at_limit_witness :
  can_add_child 0 2 config_with_name = (Ret false, config_with_name) /\
  add_child "/" no_decode no_encode no_tostring no_restore 0 2 config_with_name
  = (Ret tt, config_with_name).
Proof.
  apply (add_child_at_limit "/" no_decode no_encode no_tostring no_restore
           config_with_name 0 2 _ _ eq_refl eq_refl);
    [discriminate | vm_compute; lia | reflexivity].
Defined.

(** ** Adding a fresh node *)

Lemma structural_id : structural (fun o => o).
Proof. intros o. repeat split. Qed.

Lemma structural_compose f g : structural f -> structural g -> structural (f ∘ g).
Proof.
  intros Hf Hg o. unfold compose.
  destruct (Hf (g o)) as (-> & -> & -> & -> & -> & -> & ->). apply Hg.
Qed.

Lemma structural_set_text v : structural (set_text v).
Proof. intros o. repeat split. Qed.

Lemma structural_set_attrib (g : node -> list (string * string)) :
  structural (fun o => set_attrib (g o) o).
Proof. intros o. repeat split. Qed.

Lemma structural_set_item_text v : structural (set_item_text v).
Proof. intros o. repeat split. Qed.

Lemma structural_set_user_sort_order v : structural (set_user_sort_order v).
Proof. intros o. repeat split. Qed.

Lemma alter_id (C : nat) (h : heap) : alter (fun o => o) C h = h.
Proof. now apply list_alter_id. Qed.

Section AddFresh.

Variable os_sep : ascii.
Variable decode : string -> option pyvalue.
Variable encode : pyvalue -> string.
Variable tostring : heap -> nat -> string.
Variable restore_hidden_node : nat -> string -> M unit.

Local Abbreviation add_child' :=
  (add_child os_sep decode encode tostring restore_hidden_node).

Lemma write_loop C s keys :
  exists f, structural f /\ forall h : heap,
    for_each keys (fun key =>
      if String.eqb key "<node_text>"
      then update C (set_text (prop_value s key))
      else update C (fun o => set_attrib (assoc_set (attrib o) key (prop_value s key)) o)) h
    = (Ret tt, alter f C h).
Proof.
  induction keys as [|key keys (f & Hf & IH)].
  - exists (fun o => o). split; [apply structural_id|]. intros h. now rewrite alter_id.
  - destruct (String.eqb key "<node_text>") eqn:E.
    + exists (f ∘ set_text (prop_value s key)).
      split; [apply structural_compose; [exact Hf | apply structural_set_text]|].
      intros h. simpl. rewrite E. unfold bind, update at 1.
      rewrite IH. now rewrite list_alter_alter_eq.
    + exists (f ∘ (fun o => set_attrib (assoc_set (attrib o) key (prop_value s key)) o)).
      split; [apply structural_compose; [exact Hf | apply structural_set_attrib]|].
      intros h. simpl. rewrite E. unfold bind, update at 1.
      rewrite IH. now rewrite list_alter_alter_eq.
Qed.

Lemma write_attribs_visible C c (h : heap) :
  h !! C = Some c -> is_hidden c = false ->
  exists f, structural f /\
    NodeElement_write_attribs encode tostring C h = (Ret tt, alter f C h).
Proof.
  intros Hc Hv. destruct (write_loop C c (property_keys (cls c))) as (f & Hf & E).
  exists (f ∘ set_attrib []). split.
  - apply structural_compose; [exact Hf | apply (structural_set_attrib (fun _ => []))].
  - unfold NodeElement_write_attribs, bind, deref, reads. rewrite Hc.
    unfold update at 1. rewrite E, Hv. now rewrite list_alter_alter_eq.
Qed.

Lemma update_item_name_run C c (h : heap) :
  h !! C = Some c ->
  exists f label, structural f /\
    update_item_name os_sep C h = (Ret label, alter f C h).
Proof.
  intros Hc. unfold update_item_name, bind, deref, reads. rewrite Hc.
  assert (Hid : forall l, exists f label, structural f /\
            ret (A := string) l h = (Ret label, alter f C h)).
  { intros l. exists (fun o => o), l. split; [apply structural_id|].
    unfold ret. now rewrite alter_id. }
  assert (Hset : forall v l, exists f label, structural f /\
            (update C (set_item_text v) ;;; ret (A := string) l) h = (Ret label, alter f C h)).
  { intros v l. exists (set_item_text v), l. split; [apply structural_set_item_text|].
    reflexivity. }
  destruct (cls c); try apply Hid;
    match goal with |- context [if ?b then _ else _] => destruct b end; apply Hset.
Qed.

Lemma load_metadata_fresh C c (h : heap) :
  h !! C = Some c ->
  children c = [] -> hidden_children c = [] -> metadata c = PyDict [] ->
  exists f, structural f /\
    NodeElement_load_metadata os_sep decode restore_hidden_node C h
    = (Ret tt, alter f C h).
Proof.
  intros Hc Hch Hh Hm.
  destruct (update_item_name_run C c h Hc) as (f & label & Hf & E).
  exists (set_user_sort_order (PyStr.zfill 7 "0") ∘ (set_item_text label ∘ f)). split.
  - apply structural_compose; [apply structural_set_user_sort_order|].
    apply structural_compose; [apply structural_set_item_text | exact Hf].
  - unfold NodeElement_load_metadata, load_metadata_scan.
    unfold bind at 1. unfold bind at 1. unfold deref at 1, reads at 1.
    rewrite Hc, Hch. cbn [for_each]. unfold ret at 1.
    unfold bind at 1. unfold deref at 1, reads at 1. rewrite Hc, Hm.
    unfold bind at 1. unfold ret at 1.
    unfold bind at 1. rewrite E.
    unfold bind, lift, update, py_get, py_iter, ret; simpl. rewrite Hh.
    now rewrite !list_alter_alter_eq.
Qed.

Lemma post_add_fresh C c (h : heap) :
  h !! C = Some c -> cls c <> NodeComment ->
  children c = [] -> hidden_children c = [] -> metadata c = PyDict [] ->
  is_hidden c = false ->
  exists f, structural f /\
    post_add os_sep decode encode tostring restore_hidden_node C h
    = (Ret tt, alter f C h).
Proof.
  intros Hc Hel Hch Hh Hm Hv.
  destruct (write_attribs_visible C c h Hc Hv) as (f & Hf & E).
  destruct (Hf c) as (_ & _ & Hch' & Hm' & Hh' & _).
  assert (Hc' : alter f C h !! C = Some (f c))
    by (rewrite list_lookup_alter_eq, Hc; reflexivity).
  destruct (load_metadata_fresh C (f c) (alter f C h) Hc') as (g & Hg & E');
    try congruence.
  exists (g ∘ f). split; [now apply structural_compose|].
  unfold post_add, bind, deref, reads. rewrite Hc.
  assert (E2 : (match cls c with
                | NodeComment => NodeComment_post C
                | _ => fun h0 =>
                    match NodeElement_write_attribs encode tostring C h0 with
                    | (Ret _, h') =>
                        NodeElement_load_metadata os_sep decode restore_hidden_node C h'
                    | (Raise e, h') => (Raise e, h')
                    end
                end) h
               = match NodeElement_write_attribs encode tostring C h with
                 | (Ret _, h') =>
                     NodeElement_load_metadata os_sep decode restore_hidden_node C h'
                 | (Raise e, h') => (Raise e, h')
                 end) by (destruct (cls c); congruence).
  rewrite E2, E, E'. now rewrite list_alter_alter_eq.
Qed.

End AddFresh.

Lemma fresh_new_node c : fresh (new_node c).
Proof. repeat split. Qed.

Lemma etree_append_detached (h : heap) P C c :
  h !! C = Some c -> parent c = None ->
  etree_append P C h
  = (Ret tt, alter (set_parent (Some P)) C
               (alter (fun o => set_children (children o ++ [C]) o) P h)).
Proof.
  intros Hc Hp. unfold etree_append, etree_unlink, bind, deref, reads.
  now rewrite Hc, Hp.
Qed.

Lemma remove_child_run (h : heap) P D p d :
  h !! P = Some p -> cls p <> NodeComment ->
  h !! D = Some d -> parent d = Some P ->
  remove_child P D h
  = (Ret tt, alter (set_parent None) D
               (alter (fun o => set_children (remove_first D (children o)) o) P h)).
Proof.
  intros Hp Hel Hd Hpar.
  assert (E : (inside <- reads (fun h => Ret (etree_contains h P D)) ;;
               if inside then etree_remove P D else ret tt) h
              = (Ret tt, alter (set_parent None) D
                   (alter (fun o => set_children (remove_first D (children o)) o) P h))).
  { unfold bind, reads, etree_contains, parent_of. rewrite Hd, Hpar.
    rewrite bool_decide_eq_true_2 by reflexivity.
    unfold etree_remove, etree_unlink, bind, deref, reads. rewrite Hd, Hpar.
    rewrite bool_decide_eq_true_2 by reflexivity. now rewrite Hd, Hpar. }
  unfold remove_child, bind at 1, deref, reads at 1. rewrite Hp.
  destruct (cls p); try congruence; exact E.
Qed.

Section Scenario.

Variable os_sep : ascii.
Variable decode : string -> option pyvalue.
Variable encode : pyvalue -> string.
Variable tostring : heap -> nat -> string.
Variable restore_hidden_node : nat -> string -> M unit.

Local Abbreviation add_child' :=
  (add_child os_sep decode encode tostring restore_hidden_node).

(** An accepted fresh node is put at the end of the children of [P];
    of [P] only the children change, and of [C], besides its parent,
    only what [write_attribs] and [load_metadata] write. *)
Lemma add_child_fresh (h : heap) P C p c :
  h !! P = Some p -> h !! C = Some c -> P <> C ->
  cls c <> NodeComment -> fresh c ->
  can_add_child P C h = (Ret true, h) ->
  exists f, structural f /\
    add_child' P C h
    = (Ret tt, alter (f ∘ set_parent (Some P)) C
                 (alter (fun o => set_children (children o ++ [C]) o) P h)).
Proof.
  intros Hp Hc Hne Hel (Hpar & Hch & Hh & Hv & Hm) Hok.
  set (h1 := alter (set_parent (Some P)) C
               (alter (fun o => set_children (children o ++ [C]) o) P h)).
  assert (Hc1 : h1 !! C = Some (set_parent (Some P) c)).
  { unfold h1. rewrite list_lookup_alter_eq, list_lookup_alter_ne, Hc by exact Hne.
    reflexivity. }
  destruct (post_add_fresh os_sep decode encode tostring restore_hidden_node
              C _ h1 Hc1) as (f & Hf & E); auto.
  exists f. split; [exact Hf|].
  unfold add_child, add_child_with, bind. rewrite Hok.
  rewrite (etree_append_detached h P C c Hc Hpar). fold h1. rewrite E.
  unfold h1. now rewrite list_alter_alter_eq.
Qed.

End Scenario.

Section TypeDescriptor.

Variable os_sep : ascii.
Variable decode : string -> option pyvalue.
Variable encode : pyvalue -> string.
Variable tostring : heap -> nat -> string.
Variable restore_hidden_node : nat -> string -> M unit.

Local Abbreviation add_child' :=
  (add_child os_sep decode encode tostring restore_hidden_node).

(** The either-group of a [typeDescriptor].  A [typeDescriptor] [P]
    without any child accepts a fresh [dependencyType] [D]; with [D] in
    it, a fresh [type] [T] is refused and [add_child] changes nothing;
    once [D] is removed, [T] is accepted and becomes the only child. *)
Theorem type_descriptor_either (h : heap) (P D T : nat) (p d t : node) :
  h !! P = Some p -> cls p = NodeConfigTypeDesc -> children p = [] ->
  h !! D = Some d -> cls d = NodeConfigDependencyType -> fresh d ->
  h !! T = Some t -> cls t = NodeConfigType -> fresh t ->
  let h1 := exec (add_child' P D) h in
  let h2 := exec (remove_child P D) h1 in
  let h3 := exec (add_child' P T) h2 in
  can_add_child P D h = (Ret true, h) /\
  result (add_child' P D) h = Ret tt /\ children_of h1 P = [D] /\
  can_add_child P T h1 = (Ret false, h1) /\
  add_child' P T h1 = (Ret tt, h1) /\
  result (remove_child P D) h1 = Ret tt /\ children_of h2 P = [] /\
  can_add_child P T h2 = (Ret true, h2) /\
  result (add_child' P T) h2 = Ret tt /\ children_of h3 P = [T].
Proof.
  intros Hp Hcp Hchp Hd Hcd Fd Ht Hct Ft h1 h2 h3.
  assert (HPD : P <> D) by (intros ->; congruence).
  assert (HPT : P <> T) by (intros ->; congruence).
  assert (HDT : D <> T) by (intros ->; congruence).
  (* the dependencyType is accepted *)
  assert (E0 : can_add_child P D h = (Ret true, h)).
  { rewrite (can_add_child_run h P D p d Hp Hd), NodeElement_can_add_child_spec by congruence.
    unfold spec_can_add_child, count_class. rewrite Hcp, Hcd, Hchp. reflexivity. }
  destruct (add_child_fresh os_sep decode encode tostring restore_hidden_node
              h P D p d Hp Hd HPD ltac:(congruence) Fd E0) as (f & Hf & E1).
  assert (Eh1 : h1 = alter (f ∘ set_parent (Some P)) D
                       (alter (fun o => set_children (children o ++ [D]) o) P h))
    by (unfold h1, exec; now rewrite E1).
  assert (Hp1 : h1 !! P = Some (set_children [D] p)).
  { rewrite Eh1, list_lookup_alter_ne, list_lookup_alter_eq, Hp by congruence.
    simpl. now rewrite Hchp. }
  assert (Hd1 : h1 !! D = Some (f (set_parent (Some P) d))).
  { rewrite Eh1, list_lookup_alter_eq, list_lookup_alter_ne, Hd by congruence.
    reflexivity. }
  assert (Ht1 : h1 !! T = Some t).
  { rewrite Eh1, !list_lookup_alter_ne by congruence. exact Ht. }
  destruct (Hf (set_parent (Some P) d)) as (Hfc & Hfp & _).
  (* the type is refused *)
  assert (E2 : can_add_child P T h1 = (Ret false, h1)).
  { rewrite (can_add_child_run h1 P T _ t Hp1 Ht1), NodeElement_can_add_child_spec by (simpl; congruence).
    simpl. rewrite Hcp. destruct (decide _); [|congruence].
    now rewrite andb_false_r. }
  (* the dependencyType is removed *)
  assert (E3 : remove_child P D h1
               = (Ret tt, alter (set_parent None) D
                    (alter (fun o => set_children (remove_first D (children o)) o) P h1))).
  { eapply (remove_child_run h1 P D _ _ Hp1); [simpl; congruence | exact Hd1 |].
    rewrite Hfp. reflexivity. }
  assert (Eh2 : h2 = alter (set_parent None) D
                       (alter (fun o => set_children (remove_first D (children o)) o) P h1))
    by (unfold h2, exec; now rewrite E3).
  assert (Hp2 : h2 !! P = Some (set_children [] p)).
  { rewrite Eh2, list_lookup_alter_ne, list_lookup_alter_eq, Hp1 by congruence.
    simpl. now rewrite Nat.eqb_refl. }
  assert (Ht2 : h2 !! T = Some t).
  { rewrite Eh2, !list_lookup_alter_ne by congruence. exact Ht1. }
  (* the type is accepted *)
  assert (E4 : can_add_child P T h2 = (Ret true, h2)).
  { rewrite (can_add_child_run h2 P T _ t Hp2 Ht2), NodeElement_can_add_child_spec by (simpl; congruence).
    unfold spec_can_add_child, count_class. simpl. rewrite Hcp, Hct. reflexivity. }
  destruct (add_child_fresh os_sep decode encode tostring restore_hidden_node
              h2 P T _ t Hp2 Ht2 HPT ltac:(congruence) Ft E4) as (g & Hg & E5).
  assert (Hp3 : h3 !! P = Some (set_children [T] (set_children [] p))).
  { unfold h3, exec. rewrite E5. simpl.
    rewrite list_lookup_alter_ne, list_lookup_alter_eq, Hp2 by congruence.
    reflexivity. }
  repeat split.
  - exact E0.
  - unfold result. now rewrite E1.
  - unfold children_of. now rewrite Hp1.
  - exact E2.
  - now apply add_child_refused.
  - unfold result. now rewrite E3.
  - unfold children_of. now rewrite Hp2.
  - exact E4.
  - unfold result. now rewrite E5.
  - unfold children_of. now rewrite Hp3.
Qed.

End TypeDescriptor.

Lemma type_descriptor_either_witness :
  children_of
    (exec (add_child "/" no_decode no_encode no_tostring no_restore 0 2)
       (exec (remove_child 0 1)
          (exec (add_child "/" no_decode no_encode no_tostring no_restore 0 1)
             empty_type_descriptor))) 0 = [2].
Proof.
  apply (type_descriptor_either "/" no_decode no_encode no_tostring no_restore
           empty_type_descriptor 0 1 2 _ _ _ eq_refl eq_refl eq_refl
           eq_refl eq_refl (fresh_new_node _) eq_refl eq_refl (fresh_new_node _)).
Defined.

(** C6 fails on the code. A [typeDescriptor] whose only child is a
    comment has no element among its children, and refuses a
    [dependencyType]: the method of [_NodeElement] accepts it, and the
    override refuses it, since [len(self)] counts the comment. *)
Lemma type_descriptor_with_comment_refuses :
  existsb (is_element type_descriptor_with_comment)
          (children_of type_descriptor_with_comment 0) = false /\
  NodeElement_can_add_child type_descriptor_with_comment
    (set_children [1] (new_node NodeConfigTypeDesc))
    (new_node NodeConfigDependencyType) = true /\
  can_add_child 0 2 type_descriptor_with_comment
  = (Ret false, type_descriptor_with_comment) /\
  add_child "/" no_decode no_encode no_tostring no_restore 0 2
    type_descriptor_with_comment
  = (Ret tt, type_descriptor_with_comment).
Proof. repeat split. Qed.

(** ** [sort] beyond the subtree *)

(** C3 fails on the code. In [unsorted_config], [sort()] on the
    [moduleName] leaf (1), whose subtree is itself alone, reorders the
    children of the root (0) and of the [installStep] (3). *)
Theorem sort_reaches_outside_subtree :
  iter_tree (length unsorted_config) unsorted_config 1 = [1] /\
  children_of unsorted_config 0 = [2; 1] /\
  children_of unsorted_config 3 = [5; 4] /\
  result (sort 1) unsorted_config = Ret tt /\
  children_of (exec (sort 1) unsorted_config) 0 = [1; 2] /\
  children_of (exec (sort 1) unsorted_config) 3 = [4; 5].
Proof. repeat split. Qed.

(** What [sort()] does do: whatever node of a document it is called on,
    the children of every element that the XPath selects end up
    sorted. *)
Lemma sort_sorts_document (h : heap) (self : nat) (s : node) :
  tree_linked h = true -> h !! self = Some s -> cls s <> NodeComment ->
  forall p, p ∈ xpath_parents h self ->
    is_sorted (sort_key (exec (sort self) h)) (children_of (exec (sort self) h) p) = true.
Proof.
  intros L Hs Hel p Hp. unfold exec, sort, bind, deref, reads. rewrite Hs.
  assert (E : (match cls s with NodeComment => ret tt | _ => NodeElement_sort self end) h
              = NodeElement_sort self h) by (destruct (cls s); congruence).
  rewrite E, (NodeElement_sort_spec self h L). simpl.
  now apply (fold_sort_sorted (xpath_parents h self) p h).
Qed.

(** ** Undecodable metadata *)

(** C4 fails on the code. A metadata comment that is the sentinel alone
    makes [load_metadata] raise [IndexError]: [split(maxsplit=1)] has
    one item, and [JSONDecodeError] is the only exception caught. *)
Theorem load_metadata_bare_sentinel
    (os_sep : ascii) (decode : string -> option pyvalue)
    (restore_hidden_node : nat -> string -> M unit) :
  NodeElement_load_metadata os_sep decode restore_hidden_node 0
    plugin_with_bare_sentinel
  = (Raise IndexError, plugin_with_bare_sentinel).
Proof. reflexivity. Qed.

(** A payload that decodes, but not to a mapping, makes it raise
    [AttributeError], with the decoded value left in [metadata]. *)
Lemma load_metadata_list_payload
    (os_sep : ascii) (restore_hidden_node : nat -> string -> M unit) :
  result (NodeElement_load_metadata os_sep decode_list restore_hidden_node 0)
    plugin_with_list_payload = Raise AttributeError.
Proof. reflexivity. Qed.

(** A payload that [decode] rejects is skipped, and the node is loaded
    as one without metadata. *)
Lemma load_metadata_broken_payload
    (os_sep : ascii) (restore_hidden_node : nat -> string -> M unit) :
  NodeElement_load_metadata os_sep no_decode restore_hidden_node 0
    plugin_with_broken_payload
  = (Ret tt, plugin_with_broken_payload).
Proof. reflexivity. Qed.

(** ** [save_metadata] *)

Lemma children_nodup_spec h :
  children_nodup h = true <-> forall p o, h !! p = Some o -> NoDup (children o).
Proof.
  unfold children_nodup. rewrite forallb_forall. split.
  - intros H p o Hp.
    assert (Hlt : p < length h) by (eapply lookup_lt_Some; eauto).
    specialize (H p). rewrite in_seq in H. specialize (H ltac:(lia)).
    apply bool_decide_eq_true in H. unfold children_of in H. now rewrite Hp in H.
  - intros H p _. apply bool_decide_eq_true. unfold children_of.
    destruct (h !! p) as [o|] eqn:Hp; [eauto | constructor].
Qed.

Lemma startswith_sentinel v : PyStr.startswith (sentinel +:+ v) sentinel = true.
Proof. apply prefix_app. Qed.

Lemma is_meta_comment_retext v o :
  is_meta_comment (retext (sentinel +:+ v) o) = is_meta_comment o.
Proof.
  unfold retext. destruct (is_meta_comment o) eqn:E; [|exact E].
  unfold is_meta_comment in *. apply andb_true_iff in E as [E _].
  cbn [cls text set_text]. now rewrite E, startswith_sentinel.
Qed.

Lemma retext_idem v o :
  retext (sentinel +:+ v) (retext (sentinel +:+ v) o) = retext (sentinel +:+ v) o.
Proof.
  unfold retext at 1. rewrite is_meta_comment_retext.
  unfold retext. destruct (is_meta_comment o); [|reflexivity]. now destruct o.
Qed.

Lemma meta_at_retext v c (h : heap) i :
  meta_at (alter (retext (sentinel +:+ v)) c h) i = meta_at h i.
Proof.
  unfold meta_at. destruct (decide (c = i)) as [->|Hne].
  - rewrite list_lookup_alter_eq. destruct (h !! i); [|reflexivity].
    apply is_meta_comment_retext.
  - now rewrite list_lookup_alter_ne.
Qed.

Section SaveMetadata.

Variable encode : pyvalue -> string.
Variable tostring : heap -> nat -> string.

Lemma meta_loop_retext self md l :
  py_truth md = true ->
  forall h : heap, (forall c, c ∈ l -> is_Some (h !! c)) ->
  update_meta_comments encode self md l h
  = (Ret (existsb (meta_at h) l),
     fold_left (fun h c => alter (retext (sentinel +:+ " " +:+ encode md)) c h) l h).
Proof.
  intros Ht. induction l as [|c l IH]; intros h Hall; [reflexivity|].
  destruct (Hall c ltac:(left)) as [co Hco].
  cbn [update_meta_comments fold_left existsb].
  unfold bind at 1, deref at 1, reads at 1. rewrite Hco.
  assert (Hrest : forall c', c' ∈ l ->
            is_Some (alter (retext (sentinel +:+ " " +:+ encode md)) c h !! c')).
  { intros c' Hc'. apply lookup_lt_is_Some. rewrite length_alter.
    apply lookup_lt_is_Some, Hall. now right. }
  assert (Hex : existsb (meta_at (alter (retext (sentinel +:+ " " +:+ encode md)) c h)) l
                = existsb (meta_at h) l).
  { apply existsb_ext_in. intros x. apply (meta_at_retext (" " +:+ encode md)). }
  assert (Hm : meta_at h c = is_meta_comment co) by (unfold meta_at; now rewrite Hco).
  rewrite Hm. unfold is_meta_comment at 1.
  destruct (bool_decide (cls co = NodeComment) && PyStr.startswith (text co) sentinel) eqn:E.
  - rewrite Ht. unfold bind at 1. unfold bind at 1. unfold update at 1.
    assert (Ea : alter (set_text (sentinel +:+ " " +:+ encode md)) c h
                 = alter (retext (sentinel +:+ " " +:+ encode md)) c h).
    { apply list_alter_ext; [|reflexivity]. intros o Ho.
      assert (o = co) as -> by congruence.
      unfold retext, is_meta_comment. now rewrite E. }
    rewrite Ea. unfold ret at 1. unfold bind at 1.
    rewrite (IH _ Hrest), Hex. reflexivity.
  - unfold bind at 1. unfold ret at 1. unfold bind at 1.
    assert (Ea : alter (retext (sentinel +:+ " " +:+ encode md)) c h = h).
    { apply alter_id_at. intros o Ho. assert (o = co) as -> by congruence.
      unfold retext, is_meta_comment. now rewrite E. }
    rewrite Ea in *. rewrite (IH _ (fun c' Hc' => Hall c' ltac:(now right))).
    reflexivity.
Qed.

End SaveMetadata.

Lemma meta_at_alter f c (h : heap) i :
  (forall o, cls (f o) = cls o /\ text (f o) = text o) ->
  meta_at (alter f c h) i = meta_at h i.
Proof.
  intros Hf. unfold meta_at. destruct (decide (c = i)) as [->|Hne].
  - rewrite list_lookup_alter_eq. destruct (h !! i) as [o|]; [|reflexivity].
    simpl. unfold is_meta_comment. destruct (Hf o) as [-> ->]. reflexivity.
  - now rewrite list_lookup_alter_ne.
Qed.

Lemma meta_at_unlink_meta self (h : heap) c i :
  meta_at (unlink_meta self h c) i = meta_at h i.
Proof.
  unfold unlink_meta. destruct (meta_at h c); [|reflexivity].
  rewrite !meta_at_alter; [reflexivity | |]; intros o; split; reflexivity.
Qed.

Lemma parent_of_unlink_meta self (h : heap) c i :
  i <> c -> parent_of (unlink_meta self h c) i = parent_of h i.
Proof.
  intros Hne. unfold unlink_meta. destruct (meta_at h c); [|reflexivity].
  unfold parent_of at 1. rewrite list_lookup_alter_ne by congruence.
  apply parent_of_alter_children. reflexivity.
Qed.

Lemma parent_of_Some (h : heap) c p :
  parent_of h c = Some p -> exists o, h !! c = Some o /\ parent o = Some p.
Proof. unfold parent_of. destruct (h !! c) as [o|]; [eauto | discriminate]. Qed.

Section SaveMetadataRemove.

Variable encode : pyvalue -> string.

Lemma meta_loop_remove self md l :
  py_truth md = false ->
  forall h : heap, NoDup l -> (forall c, c ∈ l -> parent_of h c = Some self) ->
  update_meta_comments encode self md l h
  = (Ret (existsb (meta_at h) l), fold_left (unlink_meta self) l h).
Proof.
  intros Ht. induction l as [|c l IH]; intros h Hnd Hall; [reflexivity|].
  apply NoDup_cons in Hnd as [Hc Hnd].
  destruct (parent_of_Some h c self (Hall c ltac:(left))) as (co & Hco & Hpar).
  cbn [update_meta_comments fold_left existsb].
  unfold bind at 1, deref at 1, reads at 1. rewrite Hco.
  assert (Hrest : forall c', c' ∈ l -> parent_of (unlink_meta self h c) c' = Some self).
  { intros c' Hc'. rewrite parent_of_unlink_meta by (intros ->; contradiction).
    apply Hall. now right. }
  assert (Hex : existsb (meta_at (unlink_meta self h c)) l = existsb (meta_at h) l).
  { apply existsb_ext_in. intros x. apply meta_at_unlink_meta. }
  assert (Hm : meta_at h c = is_meta_comment co) by (unfold meta_at; now rewrite Hco).
  specialize (IH (unlink_meta self h c) Hnd Hrest). rewrite Hex in IH.
  unfold unlink_meta in IH |- *. rewrite Hm in *. unfold is_meta_comment in *.
  destruct (bool_decide (cls co = NodeComment) && PyStr.startswith (text co) sentinel).
  - rewrite Ht. unfold bind at 1. unfold bind at 1.
    unfold etree_remove, etree_unlink, bind at 1, deref at 1, reads at 1.
    rewrite Hco, Hpar. rewrite bool_decide_eq_true_2 by reflexivity.
    unfold bind at 1, deref at 1, reads at 1. rewrite Hco, Hpar.
    unfold bind at 1, update at 1. unfold update at 1. unfold ret at 1.
    unfold bind at 1. rewrite IH. reflexivity.
  - unfold bind at 1. unfold ret at 1. unfold bind at 1. rewrite IH. reflexivity.
Qed.

End SaveMetadataRemove.

(** ** [deannotate] *)

Lemma alter_comm (f g : node -> node) i j (h : heap) :
  (forall o, f (g o) = g (f o)) -> alter f i (alter g j h) = alter g j (alter f i h).
Proof.
  intros Hfg. destruct (decide (i = j)) as [->|Hne].
  - rewrite !list_alter_alter_eq. apply list_alter_ext; [|reflexivity].
    intros o _. apply Hfg.
  - now apply list_alter_alter_ne.
Qed.

Lemma text_of_alter f c (h : heap) i :
  (forall o, text (f o) = text o) -> text_of (alter f c h) i = text_of h i.
Proof.
  intros Hf. unfold text_of. destruct (decide (c = i)) as [<-|Hne].
  - rewrite list_lookup_alter_eq. destruct (h !! c); simpl; [apply Hf | reflexivity].
  - now rewrite list_lookup_alter_ne.
Qed.

Lemma lookup_alter_Some (g : node -> node) j (h : heap) i o :
  h !! i = Some o ->
  alter g j h !! i = Some (if decide (j = i) then g o else o).
Proof.
  intros Ho. destruct (decide (j = i)) as [->|Hne].
  - now rewrite list_lookup_alter_eq, Ho.
  - now rewrite list_lookup_alter_ne.
Qed.

Lemma children_of_alter g j (h : heap) x :
  (forall o, children (g o) = children o) -> children_of (alter g j h) x = children_of h x.
Proof.
  intros Hg. unfold children_of. destruct (decide (j = x)) as [<-|Hne].
  - rewrite list_lookup_alter_eq. destruct (h !! j); simpl; [apply Hg | reflexivity].
  - now rewrite list_lookup_alter_ne.
Qed.

Lemma for_each_update (f : node -> node) l : forall h : heap,
  for_each l (fun x => update x f) h = (Ret tt, fold_left (fun h x => alter f x h) l h).
Proof. induction l as [|x l IH]; intros h; [reflexivity|]. cbn. apply IH. Qed.

Lemma deannotate_run element (h : heap) :
  deannotate element h = (Ret tt, deannotated h element).
Proof. unfold deannotate, bind, reads. apply for_each_update. Qed.

Lemma fold_alter_length (f : node -> node) l : forall h : heap,
  length (fold_left (fun h x => alter f x h) l h) = length h.
Proof.
  induction l as [|x l IH]; intros h; [reflexivity|]. cbn. now rewrite IH, length_alter.
Qed.

Lemma fold_alter_comm (f g : node -> node) j l : forall h : heap,
  (forall o, f (g o) = g (f o)) ->
  fold_left (fun h x => alter f x h) l (alter g j h)
  = alter g j (fold_left (fun h x => alter f x h) l h).
Proof.
  induction l as [|x l IH]; intros h Hfg; [reflexivity|].
  cbn. rewrite (alter_comm f g x j h Hfg). now apply IH.
Qed.

Lemma fold_alter_lookup (f : node -> node) l :
  (forall o, f (f o) = f o) ->
  forall (h : heap) i,
    fold_left (fun h x => alter f x h) l h !! i
    = if decide (i ∈ l) then f <$> h !! i else h !! i.
Proof.
  intros Hf. induction l as [|c l IH]; intros h i; cbn [fold_left].
  - destruct (decide (i ∈ [])) as [H|_]; [now apply elem_of_nil in H | reflexivity].
  - rewrite IH. destruct (decide (c = i)) as [->|Hne].
    + rewrite list_lookup_alter_eq.
      destruct (decide (i ∈ i :: l)) as [_|H]; [|exfalso; apply H; left].
      destruct (decide (i ∈ l)); [|reflexivity].
      destruct (h !! i); [|reflexivity]. simpl. now rewrite Hf.
    + rewrite list_lookup_alter_ne by exact Hne.
      destruct (decide (i ∈ l)) as [H|H];
        destruct (decide (i ∈ c :: l)) as [H'|H']; try reflexivity.
      * exfalso. apply H'. now right.
      * exfalso. apply elem_of_cons in H' as [->|H']; [now apply Hne | now apply H].
Qed.

Lemma filter_idem {A} (P : A -> bool) l :
  List.filter P (List.filter P l) = List.filter P l.
Proof.
  induction l as [|x l IH]; [reflexivity|]. cbn.
  destruct (P x) eqn:E; cbn; [rewrite E; f_equal; exact IH | exact IH].
Qed.

Lemma strip_annotations_idem o : strip_annotations (strip_annotations o) = strip_annotations o.
Proof.
  destruct o. unfold strip_annotations, set_attrib. cbn. now rewrite filter_idem.
Qed.

(** Two heaps whose objects differ in their attributes only. *)
Lemma iter_tree_ext (h h' : heap) :
  (forall i, children_of h' i = children_of h i) ->
  forall f i, iter_tree f h' i = iter_tree f h i.
Proof.
  intros Hc f. induction f as [|f IH]; intros i; [reflexivity|].
  cbn. f_equal. rewrite Hc. induction (children_of h i) as [|x l IHl]; [reflexivity|].
  cbn. now rewrite IH, IHl.
Qed.

Lemma subtree_elements_ext (h h' : heap) e :
  length h' = length h ->
  (forall i, children_of h' i = children_of h i) ->
  (forall i, is_element h' i = is_element h i) ->
  subtree_elements h' e = subtree_elements h e.
Proof.
  intros Hl Hc He. unfold subtree_elements. rewrite Hl, (iter_tree_ext h h' Hc).
  apply list_filter_iff. intros i. now rewrite He.
Qed.

Lemma is_element_alter g j (h : heap) i :
  (forall o, cls (g o) = cls o) -> is_element (alter g j h) i = is_element h i.
Proof.
  intros Hg. unfold is_element. destruct (decide (j = i)) as [<-|Hne].
  - rewrite list_lookup_alter_eq. destruct (h !! j); cbn; [now rewrite Hg | reflexivity].
  - now rewrite list_lookup_alter_ne.
Qed.

Lemma subtree_elements_alter g j (h : heap) e :
  (forall o, cls (g o) = cls o) -> (forall o, children (g o) = children o) ->
  subtree_elements (alter g j h) e = subtree_elements h e.
Proof.
  intros Hc Hch. apply subtree_elements_ext.
  - apply length_alter.
  - intros i. now apply children_of_alter.
  - intros i. now apply is_element_alter.
Qed.

Lemma deannotated_alter g j (h : heap) e :
  (forall o, cls (g o) = cls o) -> (forall o, children (g o) = children o) ->
  (forall o, strip_annotations (g o) = g (strip_annotations o)) ->
  deannotated (alter g j h) e = alter g j (deannotated h e).
Proof.
  intros Hc Hch Hs. unfold deannotated.
  rewrite (subtree_elements_alter g j h e Hc Hch). now apply fold_alter_comm.
Qed.

Lemma deannotated_all_alter g j l : forall h : heap,
  (forall o, cls (g o) = cls o) -> (forall o, children (g o) = children o) ->
  (forall o, strip_annotations (g o) = g (strip_annotations o)) ->
  deannotated_all (alter g j h) l = alter g j (deannotated_all h l).
Proof.
  unfold deannotated_all. induction l as [|e l IH]; intros h Hc Hch Hs; [reflexivity|].
  cbn. rewrite (deannotated_alter g j h e Hc Hch Hs). now apply IH.
Qed.

Lemma deannotated_subtree (h : heap) e e' :
  subtree_elements (deannotated h e) e' = subtree_elements h e'.
Proof.
  unfold deannotated. generalize (subtree_elements h e) as l. intros l. revert h.
  induction l as [|x l IH]; intros h; [reflexivity|].
  cbn [fold_left]. rewrite IH. now apply subtree_elements_alter.
Qed.

(** The elements that the loop over [l] deannotates. *)
Lemma deannotated_all_fold l : forall h : heap,
  deannotated_all h l
  = fold_left (fun h x => alter strip_annotations x h)
      (flat_map (subtree_elements h) l) h.
Proof.
  unfold deannotated_all. induction l as [|e l IH]; intros h; [reflexivity|].
  cbn [fold_left flat_map]. rewrite fold_left_app. fold (deannotated h e).
  rewrite IH. f_equal. clear IH.
  induction l as [|e' l IHl]; [reflexivity|].
  cbn. now rewrite deannotated_subtree, IHl.
Qed.

Lemma deannotated_all_lookup (h : heap) l i :
  deannotated_all h l !! i
  = if decide (i ∈ flat_map (subtree_elements h) l)
    then strip_annotations <$> h !! i else h !! i.
Proof.
  rewrite deannotated_all_fold. apply fold_alter_lookup, strip_annotations_idem.
Qed.

Lemma deannotated_all_length (h : heap) l : length (deannotated_all h l) = length h.
Proof. rewrite deannotated_all_fold. apply fold_alter_length. Qed.

Lemma deannotated_all_nil (h : heap) : deannotated_all h [] = h.
Proof. reflexivity. Qed.

(** [deannotate] writes attributes only. *)
Lemma deannotated_all_Some (h : heap) l i o :
  h !! i = Some o ->
  exists a, deannotated_all h l !! i = Some (set_attrib a o).
Proof.
  intros Ho. rewrite deannotated_all_lookup, Ho.
  destruct (decide _); cbn.
  - now eexists.
  - exists (attrib o). now destruct o.
Qed.

Lemma deannotated_all_None (h : heap) l i :
  h !! i = None -> deannotated_all h l !! i = None.
Proof. intros Ho. rewrite deannotated_all_lookup, Ho. now destruct (decide _). Qed.

Lemma deannotated_all_proj {A} (f : node -> A) d (h : heap) l i :
  (forall a o, f (set_attrib a o) = f o) ->
  match deannotated_all h l !! i with Some o => f o | None => d end
  = match h !! i with Some o => f o | None => d end.
Proof.
  intros Hf. destruct (h !! i) as [o|] eqn:Ho.
  - destruct (deannotated_all_Some h l i o Ho) as [a ->]. apply Hf.
  - now rewrite deannotated_all_None.
Qed.

Lemma children_of_deannotated (h : heap) l i :
  children_of (deannotated_all h l) i = children_of h i.
Proof. apply (deannotated_all_proj children []). reflexivity. Qed.

Lemma parent_of_deannotated (h : heap) l i :
  parent_of (deannotated_all h l) i = parent_of h i.
Proof. apply (deannotated_all_proj parent None). reflexivity. Qed.

Lemma meta_at_deannotated (h : heap) l i :
  meta_at (deannotated_all h l) i = meta_at h i.
Proof. apply (deannotated_all_proj is_meta_comment false). reflexivity. Qed.

Lemma text_of_deannotated (h : heap) l i :
  text_of (deannotated_all h l) i = text_of h i.
Proof. apply (deannotated_all_proj text EmptyString). reflexivity. Qed.

Lemma set_metadata_twice a b (self : nat) (h : heap) :
  alter (set_metadata a) self (alter (set_metadata b) self h)
  = alter (set_metadata a) self h.
Proof. rewrite list_alter_alter_eq. apply list_alter_ext; [|reflexivity]. now intros []. Qed.

Section SaveMetadataRun.

Variable encode : pyvalue -> string.
Variable tostring : heap -> nat -> string.

Lemma hidden_snapshots_run l : forall h : heap,
  hidden_snapshots tostring l h = (Ret (snapshots tostring h l), deannotated_all h l).
Proof.
  induction l as [|e l IH]; intros h; [reflexivity|].
  cbn [hidden_snapshots snapshots]. unfold bind at 1. rewrite deannotate_run.
  unfold bind at 1, reads at 1. unfold bind at 1. rewrite IH. reflexivity.
Qed.

(** [save_metadata] up to the test of lines 269-270: the hidden
    elements are deannotated and the mapping is written. *)
Lemma NodeElement_save_metadata_run self s d (h : heap) :
  h !! self = Some s -> metadata s = PyDict d ->
  let md := PyDict (new_metadata tostring h self s d) in
  let h0 := alter (set_metadata md) self (deannotated_all h (hidden_children s)) in
  NodeElement_save_metadata encode tostring self h
  = if keeps_metadata (cls s) then
      (found <- update_meta_comments encode self md (children s) ;;
       if negb found && py_truth md then
         meta_comment <- alloc (new_comment (sentinel +:+ " " +:+ encode md)) ;;
         add_child_with NodeComment_post self meta_comment
       else ret tt) h0
    else (Ret tt, h0).
Proof.
  intros Hs Hm md h0. subst md h0.
  unfold NodeElement_save_metadata, new_metadata, keeps_metadata.
  unfold bind at 1, deref at 1, reads at 1. rewrite Hs, Hm.
  set (d1 := if negb (String.eqb (item_text s) (name (cls s)))
             then dict_set d "name" (PyStr (item_text s)) else dict_pop d "name").
  set (c2 := negb (String.eqb (user_sort_order s) "")
             && negb (String.eqb (user_sort_order s) (PyStr.zfill 7 "0"))).
  set (d2 := if c2 then dict_set d1 "user_sort" (PyStr (PyStr.zfill 7 (user_sort_order s)))
             else dict_pop d1 "user_sort").
  assert (E1 : (if negb (String.eqb (item_text s) (name (cls s)))
                then py_setitem (PyDict d) "name" (PyStr (item_text s))
                else py_pop (PyDict d) "name") = Ret (PyDict d1))
    by (unfold d1; now destruct (negb _)).
  unfold bind at 1, lift at 1. rewrite E1.
  unfold bind at 1, update at 1.
  assert (E2 : (if c2 then py_setitem (PyDict d1) "user_sort"
                             (PyStr (PyStr.zfill 7 (user_sort_order s)))
                else py_pop (PyDict d1) "user_sort") = Ret (PyDict d2))
    by (unfold d2; now destruct c2).
  unfold bind at 1, lift at 1. rewrite E2.
  unfold bind at 1, update at 1.
  set (h2 := alter (set_metadata (PyDict d2)) self (alter (set_metadata (PyDict d1)) self h)).
  assert (E3 : forall X l, alter (set_metadata X) self (deannotated_all h2 l)
                           = alter (set_metadata X) self (deannotated_all h l)).
  { intros X l. unfold h2.
    rewrite !deannotated_all_alter by reflexivity. now rewrite !set_metadata_twice. }
  destruct (hidden_children s) as [|e es] eqn:Hh.
  - unfold bind at 1, lift at 1. cbn [py_pop].
    unfold bind at 1, update at 1. rewrite <- (E3 _ []). rewrite !deannotated_all_nil.
    match goal with |- context [negb (?a && ?b)] => now destruct (a && b) end.
  - unfold bind at 1. unfold bind at 1. rewrite hidden_snapshots_run.
    unfold lift at 1. cbn [py_setitem].
    unfold bind at 1, update at 1. rewrite E3.
    match goal with |- context [negb (?a && ?b)] => now destruct (a && b) end.
Qed.

End SaveMetadataRun.

Lemma fold_retext_lookup v l : forall (h : heap) i,
  fold_left (fun h c => alter (retext (sentinel +:+ v)) c h) l h !! i
  = if decide (i ∈ l) then retext (sentinel +:+ v) <$> h !! i else h !! i.
Proof.
  induction l as [|c l IH]; intros h i; cbn [fold_left].
  - destruct (decide (i ∈ [])) as [H|_]; [now apply elem_of_nil in H | reflexivity].
  - rewrite IH. destruct (decide (c = i)) as [->|Hne].
    + rewrite list_lookup_alter_eq.
      destruct (decide (i ∈ i :: l)) as [_|H]; [|exfalso; apply H; left].
      destruct (decide (i ∈ l)); [|reflexivity].
      destruct (h !! i); [|reflexivity]. simpl. now rewrite retext_idem.
    + rewrite list_lookup_alter_ne by exact Hne.
      destruct (decide (i ∈ l)) as [H|H];
        destruct (decide (i ∈ c :: l)) as [H'|H']; try reflexivity.
      * exfalso. apply H'. now right.
      * exfalso. apply elem_of_cons in H' as [->|H']; [now apply Hne | now apply H].
Qed.

Lemma fold_retext_none v l : forall h : heap,
  existsb (meta_at h) l = false ->
  fold_left (fun h c => alter (retext v) c h) l h = h.
Proof.
  induction l as [|c l IH]; intros h H; [reflexivity|].
  cbn [existsb] in H. apply orb_false_elim in H as [Hc Hl].
  cbn [fold_left]. rewrite alter_id_at; [now apply IH|].
  intros o Ho. unfold meta_at in Hc. rewrite Ho in Hc. unfold retext. now rewrite Hc.
Qed.

Lemma fold_unlink_none self l : forall h : heap,
  existsb (meta_at h) l = false -> fold_left (unlink_meta self) l h = h.
Proof.
  induction l as [|c l IH]; intros h H; [reflexivity|].
  cbn [existsb] in H. apply orb_false_elim in H as [Hc Hl].
  cbn [fold_left]. unfold unlink_meta at 2. rewrite Hc. now apply IH.
Qed.

Lemma filter_all (P : nat -> Prop) `{!forall x, Decision (P x)} (l : list nat) :
  (forall x, x ∈ l -> P x) -> filter P l = l.
Proof.
  induction l as [|y l IH]; intros Hall; [reflexivity|].
  rewrite filter_cons_True by (apply Hall; left).
  rewrite IH; [reflexivity|]. intros x Hx. apply Hall. now right.
Qed.

Lemma remove_first_filter x l :
  NoDup l -> remove_first x l = filter (fun y => y <> x) l.
Proof.
  induction l as [|y l IH]; intros Hnd; [reflexivity|].
  apply NoDup_cons in Hnd as [Hy Hnd]. cbn [remove_first].
  destruct (Nat.eqb_spec y x) as [->|Hne].
  - rewrite filter_cons_False by tauto.
    symmetry. apply filter_all. intros z Hz ->. contradiction.
  - rewrite filter_cons_True by exact Hne. now rewrite IH.
Qed.

Lemma filter_ext_in (P Q : nat -> Prop) `{!forall x, Decision (P x)}
    `{!forall x, Decision (Q x)} (l : list nat) :
  (forall x, x ∈ l -> P x <-> Q x) -> filter P l = filter Q l.
Proof.
  induction l as [|y l IH]; intros Hall; [reflexivity|].
  rewrite !filter_cons. rewrite IH by (intros x Hx; apply Hall; now right).
  destruct (decide (P y)) as [HP|HP], (decide (Q y)) as [HQ|HQ]; try reflexivity;
    exfalso; apply (Hall y ltac:(left)) in HP || apply (Hall y ltac:(left)) in HQ;
    contradiction.
Qed.

Lemma children_of_unlink_meta self (h : heap) c :
  meta_at h self = false ->
  children_of (unlink_meta self h c) self
  = if meta_at h c then remove_first c (children_of h self) else children_of h self.
Proof.
  intros Hself. unfold unlink_meta. destruct (meta_at h c) eqn:Hc; [|reflexivity].
  assert (Hne : c <> self) by (intros ->; congruence).
  unfold children_of. rewrite list_lookup_alter_ne, list_lookup_alter_eq by exact Hne.
  now destruct (h !! self).
Qed.

Lemma fold_unlink_children self l : forall h : heap,
  NoDup (children_of h self) -> meta_at h self = false ->
  children_of (fold_left (unlink_meta self) l h) self
  = filter (fun x => ~ (x ∈ l /\ meta_at h x = true)) (children_of h self).
Proof.
  induction l as [|c l IH]; intros h Hnd Hself; cbn [fold_left].
  - symmetry. apply filter_all. intros x _ [H _]. now apply elem_of_nil in H.
  - rewrite IH.
    + rewrite (children_of_unlink_meta self h c Hself).
      destruct (meta_at h c) eqn:Hc.
      * rewrite (remove_first_filter c _ Hnd), list_filter_filter.
        apply list_filter_iff. intros x. rewrite meta_at_unlink_meta, elem_of_cons.
        split.
        -- intros [H1 H2] [[->|H3] H4]; [now apply H2 | apply H1; now split].
        -- intros H. split; [intros [H1 H2]; apply H; split; auto|].
           intros ->. apply H. split; [now left | exact Hc].
      * apply list_filter_iff. intros x. rewrite meta_at_unlink_meta, elem_of_cons.
        split.
        -- intros H [[->|H3] H4]; [congruence | apply H; now split].
        -- intros H [H1 H2]. apply H. split; auto.
    + rewrite (children_of_unlink_meta self h c Hself).
      destruct (meta_at h c); [|exact Hnd].
      rewrite (remove_first_filter c _ Hnd). now apply NoDup_filter.
    + now rewrite meta_at_unlink_meta.
Qed.

Lemma fold_unlink_length self l : forall h : heap,
  length (fold_left (unlink_meta self) l h) = length h.
Proof.
  induction l as [|c l IH]; intros h; [reflexivity|].
  cbn [fold_left]. rewrite IH. unfold unlink_meta.
  destruct (meta_at h c); [now rewrite !length_alter | reflexivity].
Qed.

Lemma fold_retext_length v l : forall h : heap,
  length (fold_left (fun h c => alter (retext v) c h) l h) = length h.
Proof.
  induction l as [|c l IH]; intros h; [reflexivity|].
  cbn [fold_left]. now rewrite IH, length_alter.
Qed.

(** A new metadata comment: it is appended unless [self] is a
    [typeDescriptor] that has a child. *)
Lemma append_meta_comment self s v (h : heap) :
  h !! self = Some s -> cls s <> NodeComment ->
  (meta_comment <- alloc (new_comment v) ;;
   add_child_with NodeComment_post self meta_comment) h
  = if (if decide (cls s = NodeConfigTypeDesc)
        then Nat.ltb (length (children s)) 1 else true)
    then (Ret tt,
          alter (fun o => set_text (prop_value o "<node_text>") o) (length h)
            (alter (set_parent (Some self)) (length h)
               (alter (fun o => set_children (children o ++ [length h]) o) self
                  (h ++ [new_comment v]))))
    else (Ret tt, h ++ [new_comment v]).
Proof.
  intros Hs Hel. unfold bind at 1, alloc at 1.
  assert (Hs' : (h ++ [new_comment v]) !! self = Some s)
    by (rewrite lookup_app_l; [exact Hs | eapply lookup_lt_Some; eauto]).
  assert (Hn : (h ++ [new_comment v]) !! length h = Some (new_comment v))
    by (rewrite lookup_app_r, Nat.sub_diag by lia; reflexivity).
  unfold add_child_with, bind at 1.
  rewrite (can_add_child_run _ self (length h) s _ Hs' Hn Hel).
  assert (E : NodeElement_can_add_child (h ++ [new_comment v]) s (new_comment v) = true).
  { rewrite NodeElement_can_add_child_spec.
    unfold spec_can_add_child. cbn [cls new_comment allowed_instances].
    rewrite (bool_decide_eq_true_2 (NodeComment = NodeComment)) by reflexivity.
    now rewrite orb_true_r. }
  rewrite E, andb_true_l.
  destruct (if decide (cls s = NodeConfigTypeDesc)
            then Nat.ltb (length (children s)) 1 else true); [|reflexivity].
  unfold bind at 1. rewrite (etree_append_detached _ self (length h) _ Hn eq_refl).
  reflexivity.
Qed.

Lemma owns_linked h p :
  tree_linked h = true -> children_nodup h = true -> owns h p.
Proof.
  intros L D. split.
  - unfold children_of. destruct (h !! p) as [o|] eqn:Hp; [|constructor].
    exact (proj1 (children_nodup_spec h) D p o Hp).
  - intros c Hc. unfold children_of in Hc. destruct (h !! p) as [o|] eqn:Hp.
    + exact (proj1 (tree_linked_spec h) L p o c Hp Hc).
    + now apply elem_of_nil in Hc.
Qed.

Section SaveMetadataShape.

Variable encode : pyvalue -> string.
Variable tostring : heap -> nat -> string.

Lemma save_metadata_element self s (h : heap) :
  h !! self = Some s -> cls s <> NodeComment ->
  save_metadata encode tostring self h = NodeElement_save_metadata encode tostring self h.
Proof.
  intros Hs Hel. unfold save_metadata, bind at 1, deref at 1, reads at 1.
  rewrite Hs. now destruct (cls s).
Qed.

(** The heap after the mapping is written: what it shares with [h]. *)
Lemma saved_base_facts (md : pyvalue) self s l (h : heap) :
  h !! self = Some s ->
  let h0 := alter (set_metadata md) self (deannotated_all h l) in
  length h0 = length h /\
  (forall i, meta_at h0 i = meta_at h i) /\
  (forall i, children_of h0 i = children_of h i) /\
  (forall i, parent_of h0 i = parent_of h i) /\
  (forall i, text_of h0 i = text_of h i) /\
  (exists a, h0 !! self = Some (set_metadata md (set_attrib a s))) /\
  (forall i, is_Some (h !! i) -> is_Some (h0 !! i)).
Proof.
  intros Hs h0. unfold h0.
  split; [now rewrite length_alter, deannotated_all_length|].
  split; [intros i; rewrite meta_at_alter by (now intros o); apply meta_at_deannotated|].
  split; [intros i; rewrite children_of_alter by reflexivity; apply children_of_deannotated|].
  split; [intros i; rewrite parent_of_alter_children by reflexivity;
          apply parent_of_deannotated|].
  split; [intros i; rewrite text_of_alter by (now intros o); apply text_of_deannotated|].
  split.
  - destruct (deannotated_all_Some h l self s Hs) as [a Ha]. exists a.
    now rewrite list_lookup_alter_eq, Ha.
  - intros i [o Ho]. destruct (deannotated_all_Some h l i o Ho) as [a Ha].
    rewrite (lookup_alter_Some _ _ _ _ _ Ha). now eexists.
Qed.

(** The heap that [save_metadata] leaves, case by case. *)
Lemma save_metadata_shape self s d (h : heap) :
  h !! self = Some s -> cls s <> NodeComment -> metadata s = PyDict d ->
  owns h self ->
  let md := PyDict (new_metadata tostring h self s d) in
  let v := sentinel +:+ " " +:+ encode md in
  let h0 := alter (set_metadata md) self (deannotated_all h (hidden_children s)) in
  save_metadata encode tostring self h
  = (Ret tt,
     if keeps_metadata (cls s) then
       if py_truth md then
         if existsb (meta_at h) (children s) then
           fold_left (fun h c => alter (retext v) c h) (children s) h0
         else if accepts_comment s then
           alter (fun o => set_text (prop_value o "<node_text>") o) (length h)
             (alter (set_parent (Some self)) (length h)
                (alter (fun o => set_children (children o ++ [length h]) o) self
                   (h0 ++ [new_comment v])))
         else h0 ++ [new_comment v]
       else fold_left (unlink_meta self) (children s) h0
     else h0).
Proof.
  intros Hs Hel Hd [Hnd Hown] md v h0.
  unfold children_of in Hnd, Hown. rewrite Hs in Hnd, Hown.
  rewrite (save_metadata_element self s h Hs Hel).
  rewrite (NodeElement_save_metadata_run encode tostring self s d h Hs Hd).
  fold md. fold h0.
  destruct (keeps_metadata (cls s)); [|reflexivity].
  destruct (saved_base_facts md self s (hidden_children s) h Hs)
    as (Hlen & Hm & _ & Hpar & _ & (a & Hs0) & Hall).
  fold h0 in Hlen, Hm, Hpar, Hs0, Hall.
  assert (Hex : existsb (meta_at h0) (children s) = existsb (meta_at h) (children s))
    by (apply existsb_ext_in; exact Hm).
  destruct (py_truth md) eqn:Ht.
  - unfold bind at 1.
    rewrite (meta_loop_retext encode self md (children s) Ht h0).
    2:{ intros c Hc. destruct (parent_of_Some h c self (Hown c Hc)) as (o & Ho & _).
        apply Hall. now exists o. }
    rewrite Hex. fold v.
    destruct (existsb (meta_at h) (children s)) eqn:Hfound; [reflexivity|].
    cbn [negb andb].
    rewrite (fold_retext_none v (children s) h0) by (now rewrite Hex).
    rewrite (append_meta_comment self _ v h0 Hs0 Hel).
    unfold accepts_comment. cbn [cls children set_metadata set_attrib].
    rewrite Hlen.
    now destruct (if decide (cls s = NodeConfigTypeDesc)
                  then Nat.ltb (length (children s)) 1 else true).
  - unfold bind at 1.
    rewrite (meta_loop_remove encode self md (children s) Ht h0 Hnd).
    2:{ intros c Hc. rewrite Hpar. now apply Hown. }
    now rewrite andb_false_r.
Qed.

End SaveMetadataShape.

(** ** What [save_metadata] leaves as it was *)

Section Preserves.

Context {A : Type} (f : node -> A).

Lemma preserves_refl (h : heap) : preserves f h h.
Proof. intros i o Ho. now exists o. Qed.

Lemma preserves_trans (h1 h2 h3 : heap) :
  preserves f h1 h2 -> preserves f h2 h3 -> preserves f h1 h3.
Proof.
  intros H12 H23 i o Ho. destruct (H12 i o Ho) as (o2 & Ho2 & E2).
  destruct (H23 i o2 Ho2) as (o3 & Ho3 & E3). exists o3. split; [exact Ho3 | congruence].
Qed.

Lemma preserves_alter (g : node -> node) j (h : heap) :
  (forall o, f (g o) = f o) -> preserves f h (alter g j h).
Proof.
  intros Hg i o Ho. destruct (decide (j = i)) as [->|Hne].
  - exists (g o). now rewrite list_lookup_alter_eq, Ho.
  - exists o. now rewrite list_lookup_alter_ne.
Qed.

Lemma preserves_alter_new (g : node -> node) j (h h' : heap) :
  h !! j = None -> preserves f h h' -> preserves f h (alter g j h').
Proof.
  intros Hj H i o Ho. destruct (H i o Ho) as (o' & Ho' & E).
  exists o'. split; [|exact E].
  rewrite list_lookup_alter_ne; [exact Ho' | congruence].
Qed.

Lemma preserves_app (h l : heap) : preserves f h (h ++ l).
Proof.
  intros i o Ho. exists o. split; [|reflexivity].
  rewrite lookup_app_l; [exact Ho | eapply lookup_lt_Some; eauto].
Qed.

Lemma preserves_fold_retext v l :
  (forall o w, f (set_text w o) = f o) ->
  forall h : heap, preserves f h (fold_left (fun h c => alter (retext v) c h) l h).
Proof.
  intros Hf. induction l as [|c l IH]; intros h; [apply preserves_refl|].
  cbn [fold_left]. eapply preserves_trans; [|apply IH].
  apply preserves_alter. intros o. unfold retext. now destruct (is_meta_comment o).
Qed.

Lemma preserves_fold_unlink self l :
  (forall o x, f (set_parent x o) = f o) ->
  (forall o x, f (set_children x o) = f o) ->
  forall h : heap, preserves f h (fold_left (unlink_meta self) l h).
Proof.
  intros Hp Hc. induction l as [|c l IH]; intros h; [apply preserves_refl|].
  cbn [fold_left]. eapply preserves_trans; [|apply IH].
  unfold unlink_meta. destruct (meta_at h c); [|apply preserves_refl].
  eapply preserves_trans;
    [apply preserves_alter; intros; apply Hc | apply preserves_alter; intros; apply Hp].
Qed.

Lemma preserves_deannotated l (h : heap) :
  (forall a o, f (set_attrib a o) = f o) -> preserves f h (deannotated_all h l).
Proof.
  intros Hf i o Ho. destruct (deannotated_all_Some h l i o Ho) as [a Ha].
  exists (set_attrib a o). split; [exact Ha | apply Hf].
Qed.

End Preserves.

Section SaveMetadataFrame.

Variable encode : pyvalue -> string.
Variable tostring : heap -> nat -> string.

(** After the mapping is written, [save_metadata] writes texts and tree
    links only; it unlinks a node only when the mapping is empty. *)
Lemma save_metadata_after {A} (f : node -> A) self s d (h : heap) :
  h !! self = Some s -> cls s <> NodeComment -> metadata s = PyDict d ->
  owns h self ->
  (forall o w, f (set_text w o) = f o) ->
  (forall o x, f (set_children x o) = f o) ->
  (new_metadata tostring h self s d <> [] \/ forall o x, f (set_parent x o) = f o) ->
  preserves f
    (alter (set_metadata (PyDict (new_metadata tostring h self s d))) self
       (deannotated_all h (hidden_children s)))
    (exec (save_metadata encode tostring self) h).
Proof.
  intros Hs Hel Hd Hown Ht Hc Hp. unfold exec.
  rewrite (save_metadata_shape encode tostring self s d h Hs Hel Hd Hown).
  cbn [snd]. cbn [py_truth].
  set (md := PyDict (new_metadata tostring h self s d)).
  set (h0 := alter (set_metadata md) self (deannotated_all h (hidden_children s))).
  assert (Hlen : length h0 = length h)
    by (unfold h0; now rewrite length_alter, deannotated_all_length).
  destruct (keeps_metadata (cls s)); [|apply preserves_refl].
  destruct (new_metadata tostring h self s d) as [|kv m] eqn:Hm.
  - destruct Hp as [Hp|Hp]; [congruence|]. now apply preserves_fold_unlink.
  - destruct (existsb (meta_at h) (children s)); [now apply preserves_fold_retext|].
    destruct (accepts_comment s); [|apply preserves_app].
    assert (Hnew : h0 !! length h = None)
      by (apply lookup_ge_None; rewrite Hlen; lia).
    apply preserves_alter_new; [exact Hnew|].
    apply preserves_alter_new; [exact Hnew|].
    eapply preserves_trans; [apply preserves_app|]. now apply preserves_alter.
Qed.

End SaveMetadataFrame.

Lemma fold_unlink_lookup_other self l i : forall h : heap,
  i <> self -> meta_at h i = false ->
  fold_left (unlink_meta self) l h !! i = h !! i.
Proof.
  induction l as [|c l IH]; intros h Hne Hi; [reflexivity|].
  cbn [fold_left]. rewrite IH; [|exact Hne | now rewrite meta_at_unlink_meta].
  unfold unlink_meta. destruct (meta_at h c) eqn:Hc; [|reflexivity].
  assert (c <> i) by congruence.
  now rewrite !list_lookup_alter_ne by congruence.
Qed.

Lemma parent_of_unlink_None self (h : heap) x c :
  parent_of h c = None -> parent_of (unlink_meta self h x) c = None.
Proof.
  intros Hc. destruct (decide (c = x)) as [->|Hne].
  - unfold unlink_meta. destruct (meta_at h x); [|exact Hc].
    unfold parent_of. rewrite list_lookup_alter_eq.
    now destruct (alter _ self h !! x).
  - now rewrite parent_of_unlink_meta.
Qed.

Lemma fold_unlink_parent_None self l c : forall h : heap,
  parent_of h c = None -> parent_of (fold_left (unlink_meta self) l h) c = None.
Proof.
  induction l as [|x l IH]; intros h Hc; [exact Hc|].
  cbn [fold_left]. apply IH. now apply parent_of_unlink_None.
Qed.

Lemma fold_unlink_parent self l c : forall h : heap,
  c ∈ l -> meta_at h c = true ->
  parent_of (fold_left (unlink_meta self) l h) c = None.
Proof.
  induction l as [|x l IH]; intros h Hin Hc; [now apply elem_of_nil in Hin|].
  cbn [fold_left]. destruct (decide (c = x)) as [->|Hne].
  - apply fold_unlink_parent_None. unfold unlink_meta. rewrite Hc.
    unfold parent_of. rewrite list_lookup_alter_eq.
    now destruct (alter _ self h !! x).
  - apply elem_of_cons in Hin as [->|Hin]; [contradiction|].
    apply IH; [exact Hin | now rewrite meta_at_unlink_meta].
Qed.

Lemma keeps_metadata_element c : keeps_metadata c = false -> c <> NodeComment.
Proof. intros H ->. discriminate. Qed.

Lemma dict_set_nonempty d k v : dict_set d k v <> [].
Proof. destruct d as [|[k' v'] d]; cbn; [discriminate|]. now destruct (String.eqb k' k). Qed.

Lemma fold_unlink_lookup_frame self l i : forall h : heap,
  i <> self -> (i ∈ l -> meta_at h i = false) ->
  fold_left (unlink_meta self) l h !! i = h !! i.
Proof.
  induction l as [|c l IH]; intros h Hne Hi; [reflexivity|].
  cbn [fold_left]. rewrite IH.
  - unfold unlink_meta. destruct (meta_at h c) eqn:Hc; [|reflexivity].
    assert (c <> i) by (intros ->; rewrite Hi in Hc by (now left); discriminate).
    now rewrite !list_lookup_alter_ne by congruence.
  - exact Hne.
  - intros Hin. rewrite meta_at_unlink_meta. apply Hi. now right.
Qed.

Lemma new_metadata_nil tostring (h : heap) self s d :
  new_metadata tostring h self s d = [] -> hidden_children s = [].
Proof.
  unfold new_metadata. destruct (hidden_children s); [reflexivity|].
  intros E. now apply dict_set_nonempty in E.
Qed.

Section SaveMetadataEffects.

Variable encode : pyvalue -> string.
Variable tostring : heap -> nat -> string.

(** A node of a class that has neither children nor text gets its
    hidden elements deannotated and its mapping written, and nothing
    else: [save_metadata] does not give it a metadata comment, and does
    not touch one that it holds. *)
Theorem save_metadata_leaf self s d (h : heap) :
  h !! self = Some s -> metadata s = PyDict d ->
  keeps_metadata (cls s) = false ->
  save_metadata encode tostring self h
  = (Ret tt, alter (set_metadata (PyDict (new_metadata tostring h self s d))) self
               (deannotated_all h (hidden_children s))).
Proof.
  intros Hs Hd Hk.
  rewrite (save_metadata_element encode tostring self s h Hs
             (keeps_metadata_element _ Hk)).
  rewrite (NodeElement_save_metadata_run encode tostring self s d h Hs Hd).
  now rewrite Hk.
Qed.

(** When the mapping is not empty and the node holds metadata comments,
    [save_metadata] writes the sentinel, a space and the encoded mapping
    into each of them, in place: the node has its new mapping, and
    every other object is as the deannotation of the hidden elements
    left it. *)
Theorem save_metadata_rewrites self s d (h : heap) :
  tree_linked h = true -> children_nodup h = true ->
  h !! self = Some s -> cls s <> NodeComment -> metadata s = PyDict d ->
  keeps_metadata (cls s) = true ->
  new_metadata tostring h self s d <> [] ->
  existsb (meta_at h) (children s) = true ->
  let md := PyDict (new_metadata tostring h self s d) in
  let h1 := deannotated_all h (hidden_children s) in
  let h' := exec (save_metadata encode tostring self) h in
  result (save_metadata encode tostring self) h = Ret tt /\
  length h' = length h /\
  h' !! self = set_metadata md <$> h1 !! self /\
  (forall c, c ∈ children s -> meta_at h c = true ->
     h' !! c = set_text (sentinel +:+ " " +:+ encode md) <$> h1 !! c) /\
  (forall i, i <> self -> (i ∈ children s -> meta_at h i = false) ->
     h' !! i = h1 !! i).
Proof.
  intros L N Hs Hel Hd Hk Hm Hex md h1 h'.
  unfold h', exec, result.
  rewrite (save_metadata_shape encode tostring self s d h Hs Hel Hd (owns_linked h self L N)).
  rewrite Hk, Hex. fold md. fold h1. cbn [fst snd].
  assert (Ht : py_truth md = true)
    by (unfold md; cbn [py_truth]; now destruct (new_metadata tostring h self s d)).
  rewrite Ht.
  destruct (saved_base_facts md self s (hidden_children s) h Hs)
    as (Hlen & Hm0 & _ & _ & _ & (a & Hs0) & _).
  fold h1 in Hlen, Hm0, Hs0.
  split; [reflexivity|]. split; [now rewrite fold_retext_length|].
  assert (Hmh1 : forall i, meta_at h1 i = meta_at h i)
    by (intros i; apply meta_at_deannotated).
  split; [|split].
  - rewrite fold_retext_lookup, Hs0.
    assert (E : retext (sentinel +:+ " " +:+ encode md) (set_metadata md (set_attrib a s))
                = set_metadata md (set_attrib a s)).
    { unfold retext, is_meta_comment. cbn [cls set_metadata set_attrib].
      now rewrite (bool_decide_eq_false_2 _ Hel). }
    rewrite list_lookup_alter_eq in Hs0. rewrite Hs0.
    destruct (decide (self ∈ children s)); cbn; now rewrite ?E.
  - intros c Hc Hmc. rewrite fold_retext_lookup.
    destruct (decide (c ∈ children s)) as [_|n]; [|contradiction].
    assert (Hne : self <> c).
    { intros <-. unfold meta_at, is_meta_comment in Hmc. rewrite Hs in Hmc.
      now rewrite (bool_decide_eq_false_2 _ Hel) in Hmc. }
    rewrite list_lookup_alter_ne by exact Hne.
    rewrite <- Hmh1 in Hmc. unfold meta_at in Hmc.
    destruct (h1 !! c) as [o|]; [|discriminate].
    cbn. unfold retext. now rewrite Hmc.
  - intros i Hne Hi. rewrite fold_retext_lookup.
    rewrite list_lookup_alter_ne by congruence.
    destruct (decide (i ∈ children s)) as [Hin|_]; [|reflexivity].
    specialize (Hi Hin). rewrite <- Hmh1 in Hi. unfold meta_at in Hi.
    destruct (h1 !! i) as [o|]; [|reflexivity]. cbn. unfold retext. now rewrite Hi.
Qed.

(** When the mapping is empty, [save_metadata] removes every metadata
    comment of the node: they leave its children and lose their parent,
    and no object changes but the node and these comments. *)
Theorem save_metadata_removes self s d (h : heap) :
  tree_linked h = true -> children_nodup h = true ->
  h !! self = Some s -> cls s <> NodeComment -> metadata s = PyDict d ->
  keeps_metadata (cls s) = true ->
  new_metadata tostring h self s d = [] ->
  let h' := exec (save_metadata encode tostring self) h in
  result (save_metadata encode tostring self) h = Ret tt /\
  length h' = length h /\
  children_of h' self = filter (fun c => meta_at h c = false) (children s) /\
  (forall c, c ∈ children s -> meta_at h c = true -> parent_of h' c = None) /\
  (forall i, i <> self -> (i ∈ children s -> meta_at h i = false) ->
     h' !! i = h !! i).
Proof.
  intros L N Hs Hel Hd Hk Hm h'.
  unfold h', exec, result.
  rewrite (save_metadata_shape encode tostring self s d h Hs Hel Hd (owns_linked h self L N)).
  rewrite Hk, Hm, (new_metadata_nil tostring h self s d Hm). cbn [py_truth fst snd].
  rewrite deannotated_all_nil.
  set (h0 := alter (set_metadata (PyDict [])) self h).
  assert (Hm0 : forall i, meta_at h0 i = meta_at h i)
    by (intros i; apply meta_at_alter; now intros o).
  assert (Hself : meta_at h self = false).
  { unfold meta_at, is_meta_comment. rewrite Hs.
    now rewrite (bool_decide_eq_false_2 _ Hel). }
  assert (Hch : children_of h0 self = children s)
    by (unfold children_of, h0; now rewrite list_lookup_alter_eq, Hs).
  split; [reflexivity|]. split; [unfold h0; now rewrite fold_unlink_length, length_alter|].
  split; [|split].
  - rewrite fold_unlink_children, Hch.
    + apply filter_ext_in. intros x Hx. rewrite Hm0. split.
      * intros H. destruct (meta_at h x); [exfalso; now apply H | reflexivity].
      * intros H [_ H']. congruence.
    + rewrite Hch. exact (proj1 (children_nodup_spec h) N self s Hs).
    + now rewrite Hm0.
  - intros c Hc Hmc. apply fold_unlink_parent; [exact Hc | now rewrite Hm0].
  - intros i Hne Hi. rewrite fold_unlink_lookup_frame.
    + unfold h0. now rewrite list_lookup_alter_ne by congruence.
    + exact Hne.
    + intros Hin. rewrite Hm0. now apply Hi.
Qed.

(** When the mapping is not empty and the node holds no metadata
    comment, [save_metadata] appends one, unless the node is a
    [typeDescriptor] that has a child: a new comment with the sentinel,
    a space and the encoded mapping becomes the last child, and every
    other object is as the deannotation of the hidden elements left
    it. *)
Theorem save_metadata_appends self s d (h : heap) :
  tree_linked h = true -> children_nodup h = true ->
  h !! self = Some s -> cls s <> NodeComment -> metadata s = PyDict d ->
  keeps_metadata (cls s) = true ->
  new_metadata tostring h self s d <> [] ->
  existsb (meta_at h) (children s) = false ->
  accepts_comment s = true ->
  let md := PyDict (new_metadata tostring h self s d) in
  let v := sentinel +:+ " " +:+ encode md in
  let h1 := deannotated_all h (hidden_children s) in
  let h' := exec (save_metadata encode tostring self) h in
  result (save_metadata encode tostring self) h = Ret tt /\
  length h' = S (length h) /\
  h' !! self
  = (fun o => set_children (children s ++ [length h]) (set_metadata md o)) <$> h1 !! self /\
  h' !! length h = Some (set_text v (set_parent (Some self) (new_comment v))) /\
  (forall i, i <> self -> i <> length h -> h' !! i = h1 !! i).
Proof.
  intros L N Hs Hel Hd Hk Hm Hex Hacc md v h1 h'.
  unfold h', exec, result.
  rewrite (save_metadata_shape encode tostring self s d h Hs Hel Hd (owns_linked h self L N)).
  rewrite Hk, Hex, Hacc. fold md. fold v. fold h1. cbn [fst snd].
  assert (Ht : py_truth md = true)
    by (unfold md; cbn [py_truth]; now destruct (new_metadata tostring h self s d)).
  rewrite Ht.
  destruct (saved_base_facts md self s (hidden_children s) h Hs)
    as (Hlen & _ & _ & _ & _ & (a & Hs0) & _).
  fold h1 in Hlen, Hs0.
  set (h0 := alter (set_metadata md) self h1) in *.
  assert (Hlen1 : length h1 = length h) by apply deannotated_all_length.
  assert (Hlt : self < length h) by (eapply lookup_lt_Some; eauto).
  assert (Hne : self <> length h) by lia.
  split; [reflexivity|].
  split; [rewrite !length_alter, length_app, Hlen; cbn; lia|].
  split; [|split].
  - rewrite !list_lookup_alter_ne by congruence.
    rewrite list_lookup_alter_eq, lookup_app_l by (rewrite Hlen; lia).
    unfold h0. rewrite list_lookup_alter_eq.
    destruct (deannotated_all_Some h (hidden_children s) self s Hs) as [a' Ha'].
    fold h1 in Ha'. rewrite Ha'. reflexivity.
  - rewrite !list_lookup_alter_eq.
    rewrite list_lookup_alter_ne by exact Hne.
    rewrite lookup_app_r, Hlen, Nat.sub_diag by (rewrite Hlen; lia).
    reflexivity.
  - intros i Hi Hi'. rewrite !list_lookup_alter_ne by congruence.
    destruct (decide (i < length h)) as [Hlt'|Hge].
    + rewrite lookup_app_l by (rewrite Hlen; lia).
      unfold h0. now rewrite list_lookup_alter_ne by congruence.
    + rewrite (proj2 (lookup_ge_None h1 i)) by lia.
      apply lookup_ge_None. rewrite length_app, Hlen. cbn. lia.
Qed.

(** A [typeDescriptor] that has a child and no metadata comment does
    not get one: [save_metadata] deannotates the hidden elements,
    writes the mapping and makes the comment, [add_child] refuses it,
    and the comment stays outside the tree. *)
Theorem save_metadata_type_descriptor self s d (h : heap) :
  tree_linked h = true -> children_nodup h = true ->
  h !! self = Some s -> cls s = NodeConfigTypeDesc -> metadata s = PyDict d ->
  children s <> [] ->
  new_metadata tostring h self s d <> [] ->
  existsb (meta_at h) (children s) = false ->
  let md := PyDict (new_metadata tostring h self s d) in
  save_metadata encode tostring self h
  = (Ret tt, alter (set_metadata md) self (deannotated_all h (hidden_children s))
               ++ [new_comment (sentinel +:+ " " +:+ encode md)]).
Proof.
  intros L N Hs Hc Hd Hch Hm Hex md.
  assert (Hel : cls s <> NodeComment) by (rewrite Hc; discriminate).
  rewrite (save_metadata_shape encode tostring self s d h Hs Hel Hd (owns_linked h self L N)).
  rewrite Hex. fold md.
  assert (Ht : py_truth md = true)
    by (unfold md; cbn [py_truth]; now destruct (new_metadata tostring h self s d)).
  rewrite Ht. rewrite Hc. cbn [keeps_metadata].
  unfold accepts_comment. rewrite Hc.
  destruct (children s); [contradiction|]. reflexivity.
Qed.

(** [save_metadata] writes the mapping of the node, texts of comments,
    tree links and the annotations of the hidden elements, and nothing
    else: the class, the properties, the label, the user rank and the
    hidden state of every object are as before, and so are its
    attributes, but for the annotations [py:pytype] and [xsi:type] of
    the elements in the subtrees of the hidden children, which are
    gone. *)
Theorem save_metadata_keeps_fields self s d (h : heap) :
  tree_linked h = true -> children_nodup h = true ->
  h !! self = Some s -> cls s <> NodeComment -> metadata s = PyDict d ->
  let h' := exec (save_metadata encode tostring self) h in
  preserves fixed_fields h h' /\
  forall i o, h !! i = Some o ->
    exists o', h' !! i = Some o' /\
      attrib o' = attrib (if decide (i ∈ hidden_elements h s)
                          then strip_annotations o else o).
Proof.
  intros L N Hs Hel Hd h'. split.
  - eapply preserves_trans; [apply (preserves_deannotated fixed_fields
                                      (hidden_children s) h); reflexivity|].
    eapply preserves_trans;
      [|apply (save_metadata_after encode tostring fixed_fields self s d h Hs Hel Hd
                 (owns_linked h self L N)); try reflexivity; now right].
    apply preserves_alter. reflexivity.
  - intros i o Ho.
    assert (Hd1 : deannotated_all h (hidden_children s) !! i
                  = Some (if decide (i ∈ hidden_elements h s)
                          then strip_annotations o else o)).
    { rewrite deannotated_all_lookup, Ho. unfold hidden_elements.
      now destruct (decide _). }
    destruct (save_metadata_after encode tostring attrib self s d h Hs Hel Hd
                (owns_linked h self L N) ltac:(reflexivity) ltac:(reflexivity)
                (or_intror (fun _ _ => eq_refl)) i _
                (eq_trans (lookup_alter_Some _ _ _ _ _ Hd1) eq_refl))
      as (o' & Ho' & E).
    exists o'. split; [exact Ho'|]. rewrite E. now destruct (decide (self = i)).
Qed.

End SaveMetadataEffects.

Lemma save_metadata_leaf_witness :
  keeps_metadata NodeConfigFile = false /\
  save_metadata no_encode no_tostring 0 file_with_metadata_comment
  = (Ret tt, file_with_metadata_comment).
Proof.
  split; [reflexivity|].
  exact (save_metadata_leaf no_encode no_tostring 0 _ [] file_with_metadata_comment
           eq_refl eq_refl eq_refl).
Defined.

Lemma save_metadata_rewrites_witness :
  text_of renamed_plugin 1 = sentinel +:+ " {old}" /\
  text <$> exec (save_metadata no_encode no_tostring 0) renamed_plugin !! 1
  = Some (sentinel +:+ " {}").
Proof.
  split; [reflexivity|].
  pose proof (save_metadata_rewrites no_encode no_tostring 0 _ [] renamed_plugin
                eq_refl eq_refl eq_refl ltac:(discriminate) eq_refl eq_refl
                ltac:(discriminate) eq_refl) as (_ & _ & _ & H & _).
  rewrite (H 1); [reflexivity | left | reflexivity].
Defined.

Lemma save_metadata_removes_witness :
  children_of plain_plugin 0 = [1; 2] /\
  children_of (exec (save_metadata no_encode no_tostring 0) plain_plugin) 0 = [2].
Proof.
  split; [reflexivity|].
  pose proof (save_metadata_removes no_encode no_tostring 0 _ [] plain_plugin
                eq_refl eq_refl eq_refl ltac:(discriminate) eq_refl eq_refl
                eq_refl) as (_ & _ & H & _).
  exact H.
Defined.

Lemma save_metadata_appends_witness :
  exec (save_metadata no_encode no_tostring 0) renamed_plugin_unsaved !! 2
  = Some (set_text (sentinel +:+ " {}")
            (set_parent (Some 0) (new_comment (sentinel +:+ " {}")))).
Proof.
  pose proof (save_metadata_appends no_encode no_tostring 0 _ [] renamed_plugin_unsaved
                eq_refl eq_refl eq_refl ltac:(discriminate) eq_refl eq_refl
                ltac:(discriminate) eq_refl eq_refl) as (_ & _ & _ & H & _).
  exact H.
Defined.

Lemma save_metadata_type_descriptor_witness :
  children_of (exec (save_metadata no_encode no_tostring 0) ranked_type_descriptor) 0
  = [1] /\
  parent_of (exec (save_metadata no_encode no_tostring 0) ranked_type_descriptor) 2
  = None.
Proof.
  unfold exec.
  rewrite (save_metadata_type_descriptor no_encode no_tostring 0 _ [] ranked_type_descriptor
             eq_refl eq_refl eq_refl eq_refl eq_refl ltac:(discriminate)
             ltac:(discriminate) eq_refl).
  split; reflexivity.
Defined.

Lemma save_metadata_keeps_fields_witness :
  attrib <$> plugin_with_hidden_files !! 1
  = Some [(XML_SCHEMA_INSTANCE_TYPE_ATTR, "xsd:string")] /\
  exists o', exec (save_metadata no_encode no_tostring 0) plugin_with_hidden_files !! 1
             = Some o' /\ attrib o' = [].
Proof.
  split; [reflexivity|].
  exact (proj2 (save_metadata_keeps_fields no_encode no_tostring 0 _ []
                  plugin_with_hidden_files eq_refl eq_refl eq_refl
                  ltac:(discriminate) eq_refl) 1 _ eq_refl).
Defined.

(** ** [set_hidden] *)

Lemma owns_same (h h' : heap) p :
  children_of h' p = children_of h p ->
  (forall c, c ∈ children_of h p -> parent_of h' c = parent_of h c) ->
  owns h p -> owns h' p.
Proof.
  intros Hc Hp [Hnd Hown]. split; rewrite Hc; [exact Hnd|].
  intros c Hin. rewrite Hp by exact Hin. now apply Hown.
Qed.

Lemma owns_alter g j (h : heap) p :
  (forall o, children (g o) = children o) -> (forall o, parent (g o) = parent o) ->
  owns h p -> owns (alter g j h) p.
Proof.
  intros Hc Hp. apply owns_same.
  - now apply children_of_alter.
  - intros c _. now apply parent_of_alter_children.
Qed.

Section SetHidden.

Variable encode : pyvalue -> string.
Variable tostring : heap -> nat -> string.

Lemma set_hidden_root self s hide (h : heap) :
  h !! self = Some s -> cls s <> NodeComment -> parent s = None ->
  set_hidden encode tostring self hide h
  = (Raise AttributeError, alter (set_is_hidden hide) self h).
Proof.
  intros Hs Hel Hp. unfold set_hidden, bind at 1, deref at 1, reads at 1.
  rewrite Hs, Hp. now destruct (cls s).
Qed.

Lemma set_hidden_run self s p po hide (h : heap) :
  h !! self = Some s -> cls s <> NodeComment -> parent s = Some p ->
  h !! p = Some po ->
  set_hidden encode tostring self hide h
  = if hide || bool_decide (self ∈ hidden_children po) then
      save_metadata encode tostring p
        (alter (set_hidden_children
                  (if hide then hidden_children po ++ [self]
                   else remove_first self (hidden_children po))) p
           (alter (set_is_hidden hide) self h))
    else (Raise ValueError, alter (set_is_hidden hide) self h).
Proof.
  intros Hs Hel Hp Hpo. unfold set_hidden, bind at 1, deref at 1, reads at 1.
  rewrite Hs, Hp.
  assert (E : forall (a b : M unit),
             match cls s with NodeComment => a | _ => b end = b)
    by (intros a b; now destruct (cls s)).
  rewrite E. clear E.
  unfold bind at 1, update at 1. unfold bind at 1, deref at 1, reads at 1.
  rewrite (lookup_alter_Some (set_is_hidden hide) self h p po Hpo).
  assert (Hh : hidden_children (if decide (self = p) then set_is_hidden hide po else po)
               = hidden_children po) by (now destruct (decide (self = p))).
  rewrite Hh. unfold bind at 1.
  destruct hide; [reflexivity|]. cbn [orb].
  now destruct (bool_decide (self ∈ hidden_children po)).
Qed.

(** [set_hidden] with a parent, and, to unhide, with the node among the
    hidden children of the parent, is [save_metadata] of the parent
    after the two assignments, and returns. *)
Lemma set_hidden_ok self s p po d hide (h : heap) :
  h !! self = Some s -> cls s <> NodeComment -> parent s = Some p ->
  h !! p = Some po -> cls po <> NodeComment -> metadata po = PyDict d ->
  owns h p ->
  hide = true \/ self ∈ hidden_children po ->
  let l := if hide then hidden_children po ++ [self]
           else remove_first self (hidden_children po) in
  let h2 := alter (set_hidden_children l) p (alter (set_is_hidden hide) self h) in
  let po2 := set_hidden_children l (if decide (self = p) then set_is_hidden hide po else po) in
  h2 !! p = Some po2 /\ owns h2 p /\
  (exists s2, h2 !! self = Some s2 /\ is_hidden s2 = hide /\ cls s2 = cls s /\
              parent s2 = Some p) /\
  set_hidden encode tostring self hide h = save_metadata encode tostring p h2 /\
  result (set_hidden encode tostring self hide) h = Ret tt.
Proof.
  intros Hs Hel Hp Hpo Hpel Hd Hown Hmem l h2 po2.
  assert (Hpo2 : h2 !! p = Some po2).
  { unfold h2. rewrite list_lookup_alter_eq.
    now rewrite (lookup_alter_Some (set_is_hidden hide) self h p po Hpo). }
  assert (Hown2 : owns h2 p) by (unfold h2; now repeat apply owns_alter).
  assert (Hrun : set_hidden encode tostring self hide h = save_metadata encode tostring p h2).
  { rewrite (set_hidden_run self s p po hide h Hs Hel Hp Hpo).
    destruct hide; [reflexivity|]. destruct Hmem as [Hmem|Hmem]; [discriminate|].
    now rewrite (bool_decide_eq_true_2 _ Hmem). }
  split; [exact Hpo2|]. split; [exact Hown2|]. split; [|split; [exact Hrun|]].
  - unfold h2. destruct (decide (p = self)) as [->|Hne].
    + rewrite list_lookup_alter_eq, list_lookup_alter_eq, Hs. eexists.
      split; [reflexivity|]. now cbn.
    + rewrite list_lookup_alter_ne, list_lookup_alter_eq, Hs by exact Hne. eexists.
      split; [reflexivity|]. now cbn.
  - unfold result. rewrite Hrun.
    assert (Hc2 : cls po2 <> NodeComment)
      by (unfold po2; destruct (decide (self = p)); exact Hpel).
    assert (Hd2 : metadata po2 = PyDict d)
      by (unfold po2; destruct (decide (self = p)); exact Hd).
    now rewrite (save_metadata_shape encode tostring p po2 d h2 Hpo2 Hc2 Hd2 Hown2).
Qed.

End SetHidden.

Lemma children_of_app (h l : heap) i :
  i < length h -> children_of (h ++ l) i = children_of h i.
Proof. intros Hi. unfold children_of. now rewrite lookup_app_l. Qed.

Lemma parent_of_app (h l : heap) i :
  i < length h -> parent_of (h ++ l) i = parent_of h i.
Proof. intros Hi. unfold parent_of. now rewrite lookup_app_l. Qed.

Lemma parent_of_lt (h : heap) c p : parent_of h c = Some p -> c < length h.
Proof.
  intros H. destruct (parent_of_Some h c p H) as (o & Ho & _).
  eapply lookup_lt_Some; eauto.
Qed.

Lemma children_retext v o : children (retext v o) = children o.
Proof. unfold retext. now destruct (is_meta_comment o). Qed.

Lemma parent_retext v o : parent (retext v o) = parent o.
Proof. unfold retext. now destruct (is_meta_comment o). Qed.

Lemma owns_fold_retext v l p : forall h : heap,
  owns h p -> owns (fold_left (fun h c => alter (retext v) c h) l h) p.
Proof.
  induction l as [|c l IH]; intros h H; [exact H|].
  cbn [fold_left]. apply IH. apply owns_alter; [apply children_retext | apply parent_retext | exact H].
Qed.

Lemma new_metadata_hidden tostring (h : heap) self s d :
  hidden_children s <> [] -> new_metadata tostring h self s d <> [].
Proof.
  intros H. unfold new_metadata. destruct (hidden_children s); [contradiction|].
  apply dict_set_nonempty.
Qed.

Lemma remove_first_last x l : x ∉ l -> remove_first x (l ++ [x]) = l.
Proof.
  induction l as [|y l IH]; intros H; cbn.
  - now rewrite Nat.eqb_refl.
  - apply not_elem_of_cons in H as [Hne Hl].
    destruct (Nat.eqb_spec y x) as [->|_]; [contradiction|]. now rewrite IH.
Qed.

Section SetHiddenEffects.

Variable encode : pyvalue -> string.
Variable tostring : heap -> nat -> string.

Lemma save_metadata_fixed self s d (h : heap) :
  h !! self = Some s -> cls s <> NodeComment -> metadata s = PyDict d ->
  owns h self ->
  preserves fixed_fields h (exec (save_metadata encode tostring self) h).
Proof.
  intros Hs Hel Hd Hown.
  eapply preserves_trans;
    [apply (preserves_deannotated fixed_fields (hidden_children s) h); reflexivity|].
  eapply preserves_trans;
    [|apply (save_metadata_after encode tostring fixed_fields self s d h Hs Hel Hd Hown);
      try reflexivity; now right].
  apply preserves_alter. reflexivity.
Qed.

(** When the mapping is not empty, no object loses its parent. *)
Lemma save_metadata_parents self s d (h : heap) :
  h !! self = Some s -> cls s <> NodeComment -> metadata s = PyDict d ->
  owns h self -> new_metadata tostring h self s d <> [] ->
  preserves (fun o => (cls o, parent o)) h (exec (save_metadata encode tostring self) h).
Proof.
  intros Hs Hel Hd Hown Hm.
  eapply preserves_trans;
    [apply (preserves_deannotated (fun o => (cls o, parent o)) (hidden_children s) h);
     reflexivity|].
  eapply preserves_trans;
    [|apply (save_metadata_after encode tostring (fun o => (cls o, parent o))
               self s d h Hs Hel Hd Hown); try reflexivity; now left].
  apply preserves_alter. reflexivity.
Qed.

Lemma save_metadata_mapping self s d (h : heap) :
  h !! self = Some s -> cls s <> NodeComment -> metadata s = PyDict d ->
  owns h self -> new_metadata tostring h self s d <> [] ->
  exists s', exec (save_metadata encode tostring self) h !! self = Some s' /\
             cls s' = cls s /\
             metadata s' = PyDict (new_metadata tostring h self s d).
Proof.
  intros Hs Hel Hd Hown Hm.
  destruct (deannotated_all_Some h (hidden_children s) self s Hs) as [a Ha].
  destruct (save_metadata_after encode tostring (fun o => (cls o, metadata o))
              self s d h Hs Hel Hd Hown ltac:(reflexivity) ltac:(reflexivity)
              (or_introl Hm) self
              (set_metadata (PyDict (new_metadata tostring h self s d)) (set_attrib a s)))
    as (s' & Hs' & E).
  { now rewrite list_lookup_alter_eq, Ha. }
  exists s'. split; [exact Hs'|]. now inversion E.
Qed.

(** When the mapping is not empty, the children of the node are still
    distinct and still name it as their parent. *)
Lemma save_metadata_owns self s d (h : heap) :
  h !! self = Some s -> cls s <> NodeComment -> metadata s = PyDict d ->
  owns h self -> new_metadata tostring h self s d <> [] ->
  owns (exec (save_metadata encode tostring self) h) self.
Proof.
  intros Hs Hel Hd Hown Hm. unfold exec.
  rewrite (save_metadata_shape encode tostring self s d h Hs Hel Hd Hown).
  cbn [snd].
  set (md := PyDict (new_metadata tostring h self s d)).
  set (v := sentinel +:+ " " +:+ encode md).
  set (h0 := alter (set_metadata md) self (deannotated_all h (hidden_children s))).
  assert (Ht : py_truth md = true)
    by (unfold md; cbn [py_truth]; now destruct (new_metadata tostring h self s d)).
  rewrite Ht.
  destruct (saved_base_facts md self s (hidden_children s) h Hs)
    as (Hlen & _ & Hch0 & Hpa0 & _).
  fold h0 in Hlen, Hch0, Hpa0.
  assert (Hown0 : owns h0 self).
  { apply (owns_same h); [apply Hch0 | intros c _; apply Hpa0 | exact Hown]. }
  assert (Hlt : self < length h) by (eapply lookup_lt_Some; eauto).
  destruct (keeps_metadata (cls s)); [|exact Hown0].
  destruct (existsb (meta_at h) (children s)); [now apply owns_fold_retext|].
  assert (Happ : owns (h0 ++ [new_comment v]) self).
  { apply (owns_same h0); [| |exact Hown0].
    - apply children_of_app. lia.
    - intros c Hc. apply parent_of_app. destruct Hown0 as [_ Hp0].
      eapply parent_of_lt. now apply Hp0. }
  destruct (accepts_comment s); [|exact Happ].
  destruct Happ as [Hnd Hp].
  assert (Hch : children_of (alter (fun o => set_children (children o ++ [length h]) o) self
                               (h0 ++ [new_comment v])) self
                = children_of (h0 ++ [new_comment v]) self ++ [length h]).
  { unfold children_of. rewrite list_lookup_alter_eq.
    destruct ((h0 ++ [new_comment v]) !! self) as [o|] eqn:Ho; [reflexivity|].
    apply lookup_ge_None in Ho. rewrite length_app in Ho. lia. }
  assert (Hnew : forall c, c ∈ children_of (h0 ++ [new_comment v]) self -> c < length h).
  { intros c Hc. rewrite children_of_app in Hc by lia.
    destruct Hown0 as [_ Hp0]. apply Hp0, parent_of_lt in Hc. lia. }
  split.
  - rewrite !children_of_alter by reflexivity. rewrite Hch.
    apply NoDup_app. split; [exact Hnd|]. split; [|apply NoDup_singleton].
    intros c Hc Hc'. apply Hnew in Hc. apply list_elem_of_singleton in Hc'. lia.
  - rewrite !children_of_alter by reflexivity. rewrite Hch.
    intros c Hc. rewrite parent_of_alter_children by reflexivity.
    apply elem_of_app in Hc as [Hc|Hc].
    + assert (Hne : length h <> c) by (apply Hnew in Hc; lia).
      unfold parent_of at 1. rewrite list_lookup_alter_ne by exact Hne.
      fold (parent_of (alter (fun o => set_children (children o ++ [length h]) o) self
                         (h0 ++ [new_comment v])) c).
      rewrite parent_of_alter_children by reflexivity. now apply Hp.
    + apply list_elem_of_singleton in Hc. subst c.
      unfold parent_of. rewrite list_lookup_alter_eq.
      rewrite list_lookup_alter_ne by lia.
      now rewrite lookup_app_r, Hlen, Nat.sub_diag by lia.
Qed.

(** [set_hidden] raises for a node without a parent, and, to unhide, for
    a node that is not among the hidden children of its parent; in both
    cases [is_hidden] has been assigned already, and nothing else. *)
Theorem set_hidden_raises self s hide (h : heap) :
  h !! self = Some s -> cls s <> NodeComment ->
  (parent s = None ->
   set_hidden encode tostring self hide h
   = (Raise AttributeError, alter (set_is_hidden hide) self h)) /\
  (forall p po, parent s = Some p -> h !! p = Some po ->
     self ∉ hidden_children po ->
     set_hidden encode tostring self false h
     = (Raise ValueError, alter (set_is_hidden false) self h)).
Proof.
  intros Hs Hel. split.
  - now apply set_hidden_root.
  - intros p po Hp Hpo Hmem.
    rewrite (set_hidden_run encode tostring self s p po false h Hs Hel Hp Hpo).
    cbn [orb]. now rewrite (bool_decide_eq_false_2 _ Hmem).
Qed.

(** [set_hidden] returns for a node with a parent and, to unhide, among
    the hidden children of the parent: the node has the new state, and
    it has joined, or left, the hidden children of the parent. *)
Theorem set_hidden_returns self s p po d hide (h : heap) :
  tree_linked h = true -> children_nodup h = true ->
  h !! self = Some s -> cls s <> NodeComment -> parent s = Some p ->
  h !! p = Some po -> cls po <> NodeComment -> metadata po = PyDict d ->
  hide = true \/ self ∈ hidden_children po ->
  let h' := exec (set_hidden encode tostring self hide) h in
  result (set_hidden encode tostring self hide) h = Ret tt /\
  (exists s', h' !! self = Some s' /\ is_hidden s' = hide) /\
  (exists po', h' !! p = Some po' /\
     hidden_children po' = if hide then hidden_children po ++ [self]
                           else remove_first self (hidden_children po)).
Proof.
  intros L D Hs Hel Hp Hpo Hpel Hd Hmem h'.
  destruct (set_hidden_ok encode tostring self s p po d hide h Hs Hel Hp Hpo Hpel Hd
              (owns_linked h p L D) Hmem)
    as (Hpo2 & Hown2 & (s2 & Hs2 & Hhid & _) & Hrun & Hres).
  split; [exact Hres|].
  assert (Hc2 : cls (set_hidden_children
                       (if hide then hidden_children po ++ [self]
                        else remove_first self (hidden_children po))
                       (if decide (self = p) then set_is_hidden hide po else po))
                <> NodeComment)
    by (destruct (decide (self = p)); exact Hpel).
  assert (Hd2 : metadata (set_hidden_children
                       (if hide then hidden_children po ++ [self]
                        else remove_first self (hidden_children po))
                       (if decide (self = p) then set_is_hidden hide po else po))
                = PyDict d)
    by (destruct (decide (self = p)); exact Hd).
  pose proof (save_metadata_fixed p _ d _ Hpo2 Hc2 Hd2 Hown2) as Hfix.
  unfold h', exec. rewrite Hrun. fold (exec (save_metadata encode tostring p)
    (alter (set_hidden_children
              (if hide then hidden_children po ++ [self]
               else remove_first self (hidden_children po))) p
       (alter (set_is_hidden hide) self h))).
  split.
  - destruct (Hfix self s2 Hs2) as (s' & Hs' & E). exists s'. split; [exact Hs'|].
    unfold fixed_fields in E. inversion E. congruence.
  - destruct (Hfix p _ Hpo2) as (po' & Hpo' & E). exists po'. split; [exact Hpo'|].
    unfold fixed_fields in E. inversion E. reflexivity.
Qed.

(** Hiding a node and then unhiding it returns, and gives back the
    hidden children of the parent and the visible state of the node. *)
Theorem set_hidden_round_trip self s p po d (h : heap) :
  tree_linked h = true -> children_nodup h = true ->
  h !! self = Some s -> cls s <> NodeComment -> parent s = Some p ->
  h !! p = Some po -> cls po <> NodeComment -> metadata po = PyDict d ->
  self ∉ hidden_children po ->
  let m := set_hidden encode tostring self true ;;;
           set_hidden encode tostring self false in
  result m h = Ret tt /\
  (exists s', exec m h !! self = Some s' /\ is_hidden s' = false) /\
  (exists po', exec m h !! p = Some po' /\ hidden_children po' = hidden_children po).
Proof.
  intros L D Hs Hel Hp Hpo Hpel Hd Hmem m.
  destruct (set_hidden_ok encode tostring self s p po d true h Hs Hel Hp Hpo Hpel Hd
              (owns_linked h p L D) (or_introl eq_refl))
    as (Hpo2 & Hown2 & (s2 & Hs2 & _ & Hcls2 & Hpar2) & Hrun & Hres).
  cbv zeta in Hpo2, Hown2, Hs2, Hrun.
  set (h2 := alter (set_hidden_children (hidden_children po ++ [self])) p
               (alter (set_is_hidden true) self h)) in *.
  set (po2 := set_hidden_children (hidden_children po ++ [self])
                (if decide (self = p) then set_is_hidden true po else po)) in *.
  assert (Hc2 : cls po2 <> NodeComment)
    by (unfold po2; destruct (decide (self = p)); exact Hpel).
  assert (Hd2 : metadata po2 = PyDict d)
    by (unfold po2; destruct (decide (self = p)); exact Hd).
  assert (Hm : new_metadata tostring h2 p po2 d <> []).
  { apply new_metadata_hidden. unfold po2. cbn [hidden_children set_hidden_children].
    intros E. now apply app_eq_nil in E as [_ E]. }
  set (h1 := exec (save_metadata encode tostring p) h2).
  assert (E1 : set_hidden encode tostring self true h = (Ret tt, h1)).
  { unfold result in Hres. unfold h1, exec. rewrite <- Hrun.
    destruct (set_hidden encode tostring self true h) as [r hh]. cbn in *. now subst r. }
  destruct (save_metadata_parents p po2 d h2 Hpo2 Hc2 Hd2 Hown2 Hm self s2 Hs2)
    as (s1 & Hs1 & Es1).
  inversion Es1 as [[Ecls Epar]]. fold h1 in Hs1.
  destruct (save_metadata_mapping p po2 d h2 Hpo2 Hc2 Hd2 Hown2 Hm)
    as (po1 & Hpo1 & Ecls1 & Emd1). fold h1 in Hpo1.
  destruct (save_metadata_fixed p po2 d h2 Hpo2 Hc2 Hd2 Hown2 p po2 Hpo2)
    as (po1' & Hpo1' & Efix). fold h1 in Hpo1'.
  assert (po1' = po1) by congruence. subst po1'.
  assert (Hh1 : hidden_children po1 = hidden_children po ++ [self])
    by (unfold fixed_fields in Efix; inversion Efix; reflexivity).
  pose proof (save_metadata_owns p po2 d h2 Hpo2 Hc2 Hd2 Hown2 Hm) as Hown1.
  fold h1 in Hown1.
  assert (Hmem1 : self ∈ hidden_children po1)
    by (rewrite Hh1; apply elem_of_app; right; left).
  destruct (set_hidden_ok encode tostring self s1 p po1 _ false h1 Hs1
              ltac:(congruence) ltac:(congruence) Hpo1 ltac:(congruence) Emd1
              Hown1 (or_intror Hmem1))
    as (Hpo3 & Hown3 & (s3 & Hs3 & Hhid3 & _) & Hrun3 & Hres3).
  cbv zeta in Hpo3, Hown3, Hs3, Hrun3.
  set (h3 := alter (set_hidden_children (remove_first self (hidden_children po1))) p
               (alter (set_is_hidden false) self h1)) in *.
  set (po3 := set_hidden_children (remove_first self (hidden_children po1))
                (if decide (self = p) then set_is_hidden false po1 else po1)) in *.
  assert (Hc3 : cls po3 <> NodeComment)
    by (unfold po3; destruct (decide (self = p)); cbn; congruence).
  assert (Hd3 : metadata po3 = PyDict (new_metadata tostring h2 p po2 d))
    by (unfold po3; destruct (decide (self = p)); exact Emd1).
  pose proof (save_metadata_fixed p po3 _ h3 Hpo3 Hc3 Hd3 Hown3) as Hfix.
  assert (Em : m h = set_hidden encode tostring self false h1)
    by (unfold m, bind; now rewrite E1).
  unfold result, exec. rewrite Em.
  split; [exact Hres3|]. rewrite Hrun3.
  fold (exec (save_metadata encode tostring p) h3).
  split.
  - destruct (Hfix self s3 Hs3) as (s' & Hs' & E). exists s'. split; [exact Hs'|].
    unfold fixed_fields in E. inversion E. congruence.
  - destruct (Hfix p po3 Hpo3) as (po' & Hpo' & E). exists po'. split; [exact Hpo'|].
    assert (E' : hidden_children po' = hidden_children po3)
      by (unfold fixed_fields in E; congruence).
    rewrite E'. unfold po3. cbn [hidden_children set_hidden_children].
    rewrite Hh1. now apply remove_first_last.
Qed.

End SetHiddenEffects.

Lemma set_hidden_raises_witness :
  result (set_hidden no_encode no_tostring 3 true) plugin_with_files
  = Raise AttributeError /\
  result (set_hidden no_encode no_tostring 2 false) plugin_with_files
  = Raise ValueError.
Proof.
  unfold result. split.
  - rewrite (proj1 (set_hidden_raises no_encode no_tostring 3 _ true plugin_with_files
                      eq_refl ltac:(discriminate)) eq_refl).
    reflexivity.
  - rewrite (proj2 (set_hidden_raises no_encode no_tostring 2 _ false plugin_with_files
                      eq_refl ltac:(discriminate)) 1 _ eq_refl eq_refl
               ltac:(apply not_elem_of_nil)).
    reflexivity.
Defined.

Lemma set_hidden_returns_witness :
  tree_linked plugin_with_files = true /\
  children_nodup plugin_with_files = true /\
  result (set_hidden no_encode no_tostring 2 true) plugin_with_files = Ret tt.
Proof.
  split; [reflexivity|]. split; [reflexivity|].
  exact (proj1 (set_hidden_returns no_encode no_tostring 2 _ 1 _ [] true
                  plugin_with_files eq_refl eq_refl eq_refl ltac:(discriminate)
                  eq_refl eq_refl ltac:(discriminate) eq_refl (or_introl eq_refl))).
Defined.

Lemma set_hidden_round_trip_witness :
  tree_linked plugin_with_files = true /\
  children_nodup plugin_with_files = true /\
  result (set_hidden no_encode no_tostring 2 true ;;;
          set_hidden no_encode no_tostring 2 false) plugin_with_files = Ret tt.
Proof.
  split; [reflexivity|]. split; [reflexivity|].
  exact (proj1 (set_hidden_round_trip no_encode no_tostring 2 _ 1 _ []
                  plugin_with_files eq_refl eq_refl eq_refl ltac:(discriminate)
                  eq_refl eq_refl ltac:(discriminate) eq_refl
                  ltac:(apply not_elem_of_nil))).
Defined.

(** C9 fails on the code. [set_hidden(True)] on a root raises, but not
    rather than toggling: [is_hidden] is assigned before the parent is
    asked for, so the root is marked hidden when the exception leaves
    the method, and [write_attribs], which returned before the call,
    raises after it. *)
Lemma set_hidden_root_marked_hidden :
  let h := plugin_with_files in
  let h' := exec (set_hidden no_encode no_tostring 3 true) h in
  parent_of h 3 = None /\
  is_hidden <$> h !! 3 = Some false /\
  result (set_hidden no_encode no_tostring 3 true) h = Raise AttributeError /\
  is_hidden <$> h' !! 3 = Some true /\
  result (NodeElement_write_attribs no_encode no_tostring 3) h = Ret tt /\
  result (NodeElement_write_attribs no_encode no_tostring 3) h'
  = Raise AttributeError.
Proof. repeat split. Qed.

(** ** Reading back what [save_metadata] wrote *)

Lemma meta_at_fold_retext v l i : forall h : heap,
  meta_at (fold_left (fun h c => alter (retext (sentinel +:+ v)) c h) l h) i = meta_at h i.
Proof.
  induction l as [|c l IH]; intros h; [reflexivity|].
  cbn [fold_left]. now rewrite IH, meta_at_retext.
Qed.

Lemma children_of_fold_retext v l i : forall h : heap,
  children_of (fold_left (fun h c => alter (retext v) c h) l h) i = children_of h i.
Proof.
  induction l as [|c l IH]; intros h; [reflexivity|].
  cbn [fold_left]. rewrite IH. apply children_of_alter, children_retext.
Qed.

Lemma set_metadata_id o : set_metadata (metadata o) o = o.
Proof. now destruct o. Qed.

Lemma span_word_app w r :
  PyStr.span_word w = (w, EmptyString) ->
  PyStr.span_word (w +:+ String " " r) = (w, String " " r).
Proof.
  induction w as [|a w IH]; intros H; [reflexivity|].
  cbn [PyStr.span_word] in H.
  change (String a w +:+ String " " r) with (String a (w +:+ String " " r)).
  cbn [PyStr.span_word].
  destruct (PyStr.isspace a); [discriminate|].
  destruct (PyStr.span_word w) as [x y]. inversion H; subst x y.
  now rewrite IH.
Qed.

Lemma split_maxsplit1_two s a s' w r b r' :
  PyStr.lstrip s = String a s' -> PyStr.span_word (String a s') = (w, r) ->
  PyStr.lstrip r = String b r' ->
  PyStr.split_maxsplit1 s = [w; String b r'].
Proof.
  intros H1 H2 H3. unfold PyStr.split_maxsplit1. rewrite H1, H2, H3. reflexivity.
Qed.

Lemma split_sentinel c r :
  PyStr.isspace c = false ->
  PyStr.split_maxsplit1 (sentinel +:+ " " +:+ String c r) !! 1 = Some (String c r).
Proof.
  intros Hc.
  rewrite (split_maxsplit1_two _ "<"
             ("designer.metadata.do.not.edit>" +:+ " " +:+ String c r)
             sentinel (String " " (String c r)) c r); [reflexivity| | |].
  - change (sentinel +:+ " " +:+ String c r)
      with (String "<" ("designer.metadata.do.not.edit>" +:+ " " +:+ String c r)).
    cbn [PyStr.lstrip].
    now replace (PyStr.isspace "<") with false by (vm_compute; reflexivity).
  - change (String "<" ("designer.metadata.do.not.edit>" +:+ " " +:+ String c r))
      with (sentinel +:+ String " " (String c r)).
    apply span_word_app. vm_compute. reflexivity.
  - cbn [PyStr.lstrip].
    replace (PyStr.isspace " ") with true by (vm_compute; reflexivity).
    now rewrite Hc.
Qed.

Section LoadScan.

Variable decode : string -> option pyvalue.

(** The first loop of [load_metadata] over children whose metadata
    comments all hold the text [v], of payload [e]. *)
Lemma load_scan_loop self md e v l :
  PyStr.split_maxsplit1 v !! 1 = Some e -> decode e = Some md ->
  forall h : heap,
    (forall c, c ∈ l -> is_Some (h !! c)) ->
    (forall c, c ∈ l -> meta_at h c = true -> text_of h c = v) ->
    for_each l (fun child =>
      c <- deref child ;;
      if bool_decide (cls c = NodeComment) && PyStr.startswith (text c) sentinel
      then
        match PyStr.split_maxsplit1 (text c) !! 1 with
        | Some payload =>
            match decode payload with
            | Some v => update self (set_metadata v)
            | None => ret tt
            end
        | None => raise IndexError
        end
      else ret tt) h
    = (Ret tt, if existsb (meta_at h) l then alter (set_metadata md) self h else h).
Proof.
  intros Hsplit Hdec. induction l as [|c l IH]; intros h Hall Htext; [reflexivity|].
  destruct (Hall c ltac:(left)) as [co Hco].
  cbn [for_each existsb].
  unfold bind at 1. unfold bind at 1, deref at 1, reads at 1. rewrite Hco.
  pose proof (Htext c ltac:(left)) as Hc.
  unfold meta_at, text_of in Hc. rewrite Hco in Hc. unfold is_meta_comment in Hc.
  unfold meta_at at 1. rewrite Hco. unfold is_meta_comment at 1.
  destruct (bool_decide (cls co = NodeComment) && PyStr.startswith (text co) sentinel).
  - rewrite (Hc eq_refl), Hsplit, Hdec. unfold update at 1.
    rewrite IH.
    + cbn [orb]. rewrite set_metadata_twice.
      now destruct (existsb _ l).
    + intros x Hx. destruct (Hall x ltac:(now right)) as [o Ho].
      rewrite (lookup_alter_Some _ _ _ _ _ Ho). now eexists.
    + intros x Hx. rewrite meta_at_alter by (now intros o).
      rewrite text_of_alter by (now intros o). apply Htext. now right.
  - cbn [orb]. unfold ret at 1. apply IH.
    + intros x Hx. apply Hall. now right.
    + intros x Hx. apply Htext. now right.
Qed.

Lemma load_metadata_scan_reads self s md e v (h : heap) :
  PyStr.split_maxsplit1 v !! 1 = Some e -> decode e = Some md ->
  h !! self = Some s ->
  (forall c, c ∈ children s -> is_Some (h !! c)) ->
  (forall c, c ∈ children s -> meta_at h c = true -> text_of h c = v) ->
  existsb (meta_at h) (children s) = true ->
  load_metadata_scan decode self h = (Ret tt, alter (set_metadata md) self h).
Proof.
  intros Hsplit Hdec Hs Hall Htext Hex.
  unfold load_metadata_scan, bind at 1, deref at 1, reads at 1. rewrite Hs.
  rewrite (load_scan_loop self md e v (children s) Hsplit Hdec h Hall Htext).
  now rewrite Hex.
Qed.

End LoadScan.

Section SaveLoad.

Variable decode : string -> option pyvalue.
Variable encode : pyvalue -> string.
Variable tostring : heap -> nat -> string.

(** After [save_metadata] with a mapping that is not empty, a node that
    takes a metadata comment holds one, and each one it holds has the
    new text. *)
Lemma save_metadata_comments self s d (h : heap) :
  h !! self = Some s -> cls s <> NodeComment -> metadata s = PyDict d ->
  owns h self ->
  keeps_metadata (cls s) = true ->
  new_metadata tostring h self s d <> [] ->
  existsb (meta_at h) (children s) = true \/ accepts_comment s = true ->
  let md := PyDict (new_metadata tostring h self s d) in
  let h' := exec (save_metadata encode tostring self) h in
  existsb (meta_at h') (children_of h' self) = true /\
  forall c, c ∈ children_of h' self -> meta_at h' c = true ->
    text_of h' c = sentinel +:+ " " +:+ encode md.
Proof.
  intros Hs Hel Hd Hown Hk Hm Hcase md h'. unfold h', exec.
  rewrite (save_metadata_shape encode tostring self s d h Hs Hel Hd Hown).
  cbn [snd]. rewrite Hk. fold md.
  set (v := sentinel +:+ " " +:+ encode md).
  set (h0 := alter (set_metadata md) self (deannotated_all h (hidden_children s))).
  assert (Ht : py_truth md = true)
    by (unfold md; cbn [py_truth]; now destruct (new_metadata tostring h self s d)).
  rewrite Ht.
  destruct (saved_base_facts md self s (hidden_children s) h Hs)
    as (Hlen & Hm0 & Hch0' & _ & _ & (a0 & Hs0) & _).
  fold h0 in Hlen, Hm0, Hch0', Hs0.
  assert (Hch0 : children_of h0 self = children s)
    by (rewrite Hch0'; unfold children_of; now rewrite Hs).
  assert (Hlt : self < length h) by (eapply lookup_lt_Some; eauto).
  destruct (existsb (meta_at h) (children s)) eqn:Hex.
  - split.
    + rewrite children_of_fold_retext, Hch0.
      rewrite <- Hex. apply existsb_ext_in. intros x.
      unfold v. now rewrite meta_at_fold_retext, Hm0.
    + intros c Hc Hmc. rewrite children_of_fold_retext, Hch0 in Hc.
      unfold v in Hmc. rewrite meta_at_fold_retext in Hmc.
      unfold text_of. unfold v. rewrite fold_retext_lookup.
      destruct (decide (c ∈ children s)) as [_|n]; [|contradiction].
      unfold meta_at in Hmc. destruct (h0 !! c) as [o|]; [|discriminate].
      cbn. unfold retext. now rewrite Hmc.
  - destruct Hcase as [Hcase|Hacc]; [discriminate|]. rewrite Hacc.
    set (h1 := alter (fun o => set_children (children o ++ [length h]) o) self
                 (h0 ++ [new_comment v])).
    assert (Hch : children_of
                    (alter (fun o => set_text (prop_value o "<node_text>") o) (length h)
                       (alter (set_parent (Some self)) (length h) h1)) self
                  = children s ++ [length h]).
    { rewrite !children_of_alter by reflexivity. unfold h1, children_of.
      rewrite list_lookup_alter_eq, lookup_app_l by lia.
      now rewrite Hs0. }
    assert (Hnew : meta_at
                     (alter (fun o => set_text (prop_value o "<node_text>") o) (length h)
                        (alter (set_parent (Some self)) (length h) h1)) (length h) = true
                   /\ text_of
                     (alter (fun o => set_text (prop_value o "<node_text>") o) (length h)
                        (alter (set_parent (Some self)) (length h) h1)) (length h) = v).
    { unfold meta_at, text_of. rewrite !list_lookup_alter_eq. unfold h1.
      rewrite list_lookup_alter_ne by lia.
      rewrite lookup_app_r, Hlen, Nat.sub_diag by lia. cbn.
      split; [|reflexivity]. unfold is_meta_comment. cbn. apply startswith_sentinel. }
    destruct Hnew as [Hnew Htxt]. rewrite Hch. split.
    + rewrite existsb_app. cbn [existsb]. rewrite Hnew. now rewrite orb_true_r.
    + intros c Hc Hmc. apply elem_of_app in Hc as [Hc|Hc].
      * exfalso. destruct Hown as [_ Hp]. unfold children_of in Hp. rewrite Hs in Hp.
        pose proof (parent_of_lt _ _ _ (Hp c Hc)) as Hcl.
        assert (Hmh : meta_at h c = true).
        { rewrite <- Hmc. unfold meta_at. rewrite !list_lookup_alter_ne by lia.
          unfold h1. destruct (decide (self = c)) as [<-|Hne].
          - rewrite list_lookup_alter_eq, lookup_app_l by lia.
            rewrite Hs0, Hs. reflexivity.
          - rewrite list_lookup_alter_ne, lookup_app_l by (congruence || lia).
            fold (meta_at h0 c). rewrite Hm0. reflexivity. }
        assert (existsb (meta_at h) (children s) = true)
          by (apply existsb_exists; exists c; split; [now apply list_elem_of_In | exact Hmh]).
        congruence.
      * apply list_elem_of_singleton in Hc. now subst c.
Qed.

(** What [save_metadata] stored is what the first loop of
    [load_metadata] reads: for a decoder that inverts the encoder on the
    mapping, and an encoding that starts with a character that is not a
    space, the loop returns and puts the mapping back, whatever mapping
    the node had in between. *)
Theorem save_load_round_trip self s d m0 a r (h : heap) :
  tree_linked h = true -> children_nodup h = true ->
  h !! self = Some s -> cls s <> NodeComment -> metadata s = PyDict d ->
  keeps_metadata (cls s) = true ->
  new_metadata tostring h self s d <> [] ->
  existsb (meta_at h) (children s) = true \/ accepts_comment s = true ->
  let md := PyDict (new_metadata tostring h self s d) in
  encode md = String a r -> PyStr.isspace a = false ->
  decode (encode md) = Some md ->
  let h' := exec (save_metadata encode tostring self) h in
  load_metadata_scan decode self (alter (set_metadata m0) self h') = (Ret tt, h').
Proof.
  intros L D Hs Hel Hd Hk Hm Hcase md Henc Ha Hdec h'.
  pose proof (owns_linked h self L D) as Hown.
  destruct (save_metadata_comments self s d h Hs Hel Hd Hown Hk Hm Hcase)
    as [Hex Htext].
  destruct (save_metadata_mapping encode tostring self s d h Hs Hel Hd Hown Hm)
    as (s' & Hs' & _ & Hmd).
  pose proof (save_metadata_owns encode tostring self s d h Hs Hel Hd Hown Hm)
    as [_ Hp].
  fold h' in Hex, Htext, Hs', Hp. fold md in Htext, Hmd.
  assert (Hch : children_of h' self = children s')
    by (unfold children_of; now rewrite Hs').
  rewrite Hch in Hex, Htext, Hp.
  assert (Hsplit : PyStr.split_maxsplit1 (sentinel +:+ " " +:+ encode md) !! 1
                   = Some (encode md))
    by (rewrite Henc; now apply split_sentinel).
  rewrite (load_metadata_scan_reads decode self (set_metadata m0 s') md (encode md)
             (sentinel +:+ " " +:+ encode md)
             (alter (set_metadata m0) self h') Hsplit Hdec).
  - rewrite set_metadata_twice. f_equal. apply alter_id_at.
    intros o Ho. assert (o = s') by congruence. subst o.
    rewrite <- Hmd. apply set_metadata_id.
  - now rewrite list_lookup_alter_eq, Hs'.
  - intros c Hc. cbn [children set_metadata] in Hc.
    destruct (parent_of_Some h' c self (Hp c Hc)) as (o & Ho & _).
    rewrite (lookup_alter_Some _ _ _ _ _ Ho). now eexists.
  - intros c Hc. cbn [children set_metadata] in Hc.
    rewrite meta_at_alter by (now intros o).
    rewrite text_of_alter by (now intros o). now apply Htext.
  - cbn [children set_metadata]. rewrite <- Hex.
    apply existsb_ext_in. intros x. apply meta_at_alter. now intros o.
Qed.

End SaveLoad.

Lemma save_load_round_trip_witness :
  load_metadata_scan (fun _ => Some (PyDict [("name", PyStr "Textures")])) 0
    (alter (set_metadata (PyDict []))
       0 (exec (save_metadata no_encode no_tostring 0) renamed_plugin_unsaved))
  = (Ret tt, exec (save_metadata no_encode no_tostring 0) renamed_plugin_unsaved).
Proof.
  exact (save_load_round_trip (fun _ => Some (PyDict [("name", PyStr "Textures")]))
           no_encode no_tostring 0 _ [] (PyDict []) "{" "}" renamed_plugin_unsaved
           eq_refl eq_refl eq_refl ltac:(discriminate) eq_refl eq_refl
           ltac:(discriminate) (or_intror eq_refl) eq_refl eq_refl eq_refl).
Defined.

(** ** More on [sort] *)

Lemma sort_sorts_document_witness :
  tree_linked unsorted_config = true /\
  is_sorted (sort_key (exec (sort 1) unsorted_config))
    (children_of (exec (sort 1) unsorted_config) 3) = true.
Proof.
  split; [reflexivity|].
  apply (sort_sorts_document unsorted_config 1 _ eq_refl eq_refl ltac:(discriminate) 3).
  vm_compute. right. right. left.
Defined.

Lemma reordered_nodup h h' :
  reordered h h' -> children_nodup h = true -> children_nodup h' = true.
Proof.
  intros H. rewrite !children_nodup_spec. intros D p o' Hp.
  destruct (Forall2_lookup_r _ _ _ _ _ H Hp) as (o & Ho & _ & HP).
  rewrite HP. exact (D p o Ho).
Qed.

Lemma sort_element self s (h : heap) :
  h !! self = Some s -> cls s <> NodeComment -> sort self h = NodeElement_sort self h.
Proof.
  intros Hs Hel. unfold sort, bind, deref, reads. rewrite Hs. now destruct (cls s).
Qed.

(** A document that is in order is left as it is: when the children of
    every element that the XPath selects are sorted, [sort()] returns
    and changes nothing; equal keys do not move. *)
Theorem sort_sorted_unchanged (h : heap) (self : nat) (s : node) :
  tree_linked h = true -> h !! self = Some s -> cls s <> NodeComment ->
  forallb (fun p => is_sorted (sort_key h) (children_of h p)) (xpath_parents h self)
  = true ->
  sort self h = (Ret tt, h).
Proof.
  intros L Hs Hel Hall.
  rewrite (sort_element self s h Hs Hel), (NodeElement_sort_spec self h L).
  rewrite fold_sort_sorted_id; [reflexivity|].
  intros p Hp. rewrite forallb_forall in Hall. apply Hall. now apply list_elem_of_In.
Qed.

Lemma sort_sorted_unchanged_witness :
  tree_linked sorted_config = true /\ sort 4 sorted_config = (Ret tt, sorted_config).
Proof.
  split; [reflexivity|].
  exact (sort_sorted_unchanged sorted_config 4 _ eq_refl eq_refl ltac:(discriminate)
           eq_refl).
Defined.

(** [sort()] keeps the tree well-formed: after it, every child still
    names its parent and the children of every node are still
    distinct. *)
Theorem sort_keeps_tree (h : heap) (self : nat) :
  tree_linked h = true -> children_nodup h = true ->
  tree_linked (exec (sort self) h) = true /\
  children_nodup (exec (sort self) h) = true.
Proof.
  intros L D. pose proof (sort_reordered self h L) as H. split.
  - exact (reordered_linked _ _ H L).
  - exact (reordered_nodup _ _ H D).
Qed.

Lemma sort_keeps_tree_witness :
  tree_linked unsorted_config = true /\ children_nodup unsorted_config = true /\
  tree_linked (exec (sort 3) unsorted_config) = true.
Proof.
  split; [reflexivity|]. split; [reflexivity|].
  exact (proj1 (sort_keeps_tree unsorted_config 3 eq_refl eq_refl)).
Defined.

(** ** [add_child] and [remove_child] together *)

Lemma class_of_alter g j (h : heap) x :
  (forall o, cls (g o) = cls o) -> class_of (alter g j h) x = class_of h x.
Proof.
  intros Hg. unfold class_of. destruct (decide (j = x)) as [<-|Hne].
  - rewrite list_lookup_alter_eq. destruct (h !! j); simpl; [now rewrite Hg | reflexivity].
  - now rewrite list_lookup_alter_ne.
Qed.

Lemma count_class_ext (h h' : heap) k l :
  (forall x, class_of h' x = class_of h x) -> count_class h' k l = count_class h k l.
Proof.
  intros H. unfold count_class. f_equal. apply list_filter_iff. intros x.
  now rewrite H.
Qed.

Lemma count_class_app (h : heap) k l x :
  count_class h k (l ++ [x])
  = count_class h k l + (if bool_decide (class_of h x = Some k) then 1 else 0).
Proof.
  unfold count_class. rewrite filter_app, length_app. f_equal.
  rewrite filter_cons, filter_nil.
  destruct (decide _) as [H|H]; cbn beta in H;
    destruct (bool_decide (class_of h x = Some k)); try reflexivity;
    exfalso; [exact H | now apply H].
Qed.

Lemma can_add_child_true_element (h : heap) P C (b : bool) h' :
  can_add_child P C h = (Ret b, h') ->
  exists p, h !! P = Some p /\ cls p <> NodeComment.
Proof.
  unfold can_add_child, bind, deref, reads. destruct (h !! P) as [p|]; [|discriminate].
  intros H. exists p. split; [reflexivity|]. intros E. rewrite E in H. discriminate.
Qed.

Section AddRemove.

Variable os_sep : ascii.
Variable decode : string -> option pyvalue.
Variable encode : pyvalue -> string.
Variable tostring : heap -> nat -> string.
Variable restore_hidden_node : nat -> string -> M unit.

Local Abbreviation add_child' :=
  (add_child os_sep decode encode tostring restore_hidden_node).

(** A fresh element that [add_child] accepts and [remove_child] takes
    out again leaves the children of the parent as they were, and is
    outside the tree again. *)
Theorem add_remove_round_trip (h : heap) (P C : nat) (p c : node) :
  h !! P = Some p -> h !! C = Some c -> P <> C ->
  cls c <> NodeComment -> fresh c ->
  can_add_child P C h = (Ret true, h) ->
  C ∉ children p ->
  let m := add_child' P C ;;; remove_child P C in
  result m h = Ret tt /\
  children_of (exec m h) P = children p /\
  parent_of (exec m h) C = None.
Proof.
  intros Hp Hc Hne Hel Hfresh Hok Hnew m.
  destruct (can_add_child_true_element h P C true h Hok) as (p' & Hp' & Hpel).
  assert (p' = p) by congruence. subst p'.
  destruct (add_child_fresh os_sep decode encode tostring restore_hidden_node
              h P C p c Hp Hc Hne Hel Hfresh Hok) as (f & Hf & E).
  set (h1 := alter (f ∘ set_parent (Some P)) C
               (alter (fun o => set_children (children o ++ [C]) o) P h)) in *.
  assert (Hp1 : h1 !! P = Some (set_children (children p ++ [C]) p))
    by (unfold h1; now rewrite list_lookup_alter_ne, list_lookup_alter_eq, Hp by congruence).
  assert (Hc1 : h1 !! C = Some (f (set_parent (Some P) c)))
    by (unfold h1; now rewrite list_lookup_alter_eq, list_lookup_alter_ne, Hc by congruence).
  assert (Hpar : parent (f (set_parent (Some P) c)) = Some P)
    by (destruct (Hf (set_parent (Some P) c)) as (_ & H & _); now rewrite H).
  assert (Em : m h = remove_child P C h1) by (unfold m, bind; now rewrite E).
  unfold result, exec. rewrite Em.
  rewrite (remove_child_run h1 P C _ _ Hp1 Hpel Hc1 Hpar). cbn [fst snd].
  split; [reflexivity|]. split.
  - unfold children_of. rewrite list_lookup_alter_ne, list_lookup_alter_eq, Hp1 by congruence.
    cbn. now apply remove_first_last.
  - unfold parent_of. rewrite list_lookup_alter_eq, list_lookup_alter_ne, Hc1 by congruence.
    reflexivity.
Qed.

(** [add_child] keeps the bound on instances: if the children of the
    parent hold at most [allowed_instances] nodes of a bounded class,
    they still do after a fresh element went through [add_child],
    accepted or not. *)
Theorem add_child_keeps_limit (h : heap) (P C : nat) (p c : node) (k : node_class) :
  h !! P = Some p -> cls p <> NodeComment -> h !! C = Some c -> P <> C ->
  cls c <> NodeComment -> fresh c ->
  0 < allowed_instances k ->
  count_class h k (children p) <= allowed_instances k ->
  let h' := exec (add_child' P C) h in
  result (add_child' P C) h = Ret tt /\
  count_class h' k (children_of h' P) <= allowed_instances k.
Proof.
  intros Hp Hpel Hc Hne Hel Hfresh Hpos Hle h'.
  pose proof (can_add_child_run h P C p c Hp Hc Hpel) as Hcan.
  destruct (NodeElement_can_add_child h p c
            && (if decide (cls p = NodeConfigTypeDesc)
                then Nat.ltb (length (children p)) 1 else true)) eqn:Hb.
  - destruct (add_child_fresh os_sep decode encode tostring restore_hidden_node
                h P C p c Hp Hc Hne Hel Hfresh Hcan) as (f & Hf & E).
    unfold h', result, exec. rewrite E. cbn [fst snd]. split; [reflexivity|].
    set (h1 := alter (f ∘ set_parent (Some P)) C
                 (alter (fun o => set_children (children o ++ [C]) o) P h)).
    assert (Hcls : forall x, class_of h1 x = class_of h x).
    { intros x. unfold h1. rewrite class_of_alter.
      - now apply class_of_alter.
      - intros o. cbn. now destruct (Hf (set_parent (Some P) o)) as (-> & _). }
    assert (Hch : children_of h1 P = children p ++ [C]).
    { unfold h1, children_of.
      now rewrite list_lookup_alter_ne, list_lookup_alter_eq, Hp by congruence. }
    rewrite Hch, (count_class_ext h h1 k _ Hcls), count_class_app.
    destruct (bool_decide (class_of h C = Some k)) eqn:Hk; [|lia].
    apply bool_decide_eq_true in Hk. unfold class_of in Hk. rewrite Hc in Hk.
    cbn in Hk. assert (cls c = k) by congruence. subst k.
    apply andb_true_iff in Hb as [Hb _]. unfold NodeElement_can_add_child in Hb.
    destruct (Nat.eqb_spec (allowed_instances (cls c)) 0) as [|_]; [lia|].
    cbn [negb] in Hb.
    destruct (Nat.leb_spec (allowed_instances (cls c))
                (count_class h (cls c) (children p))); [discriminate | lia].
  - unfold h', result, exec.
    rewrite (add_child_refused os_sep decode encode tostring restore_hidden_node
               h P C Hcan).
    cbn [fst snd]. split; [reflexivity|]. unfold children_of. now rewrite Hp.
Qed.

End AddRemove.

Lemma add_remove_round_trip_witness :
  children_of
    (exec (add_child "/" no_decode no_encode no_tostring no_restore 0 1 ;;;
           remove_child 0 1) empty_type_descriptor) 0 = [].
Proof.
  exact (proj1 (proj2 (add_remove_round_trip "/" no_decode no_encode no_tostring
                         no_restore empty_type_descriptor 0 1 _ _ eq_refl eq_refl
                         ltac:(discriminate) ltac:(discriminate)
                         (fresh_new_node NodeConfigDependencyType) eq_refl
                         ltac:(apply not_elem_of_nil)))).
Defined.

Lemma add_child_keeps_limit_witness :
  count_class config_with_name NodeConfigModName (children_of config_with_name 0) = 1 /\
  count_class
    (exec (add_child "/" no_decode no_encode no_tostring no_restore 0 2) config_with_name)
    NodeConfigModName
    (children_of
       (exec (add_child "/" no_decode no_encode no_tostring no_restore 0 2)
          config_with_name) 0) <= 1.
Proof.
  split; [reflexivity|].
  exact (proj2 (add_child_keeps_limit "/" no_decode no_encode no_tostring no_restore
                  config_with_name 0 2 _ _ NodeConfigModName eq_refl
                  ltac:(discriminate) eq_refl ltac:(discriminate) ltac:(discriminate)
                  (fresh_new_node NodeConfigModName) ltac:(vm_compute; lia)
                  ltac:(vm_compute; lia))).
Defined.

(** ** What an escaped snapshot does not hold *)

Section EscapeOutput.
Import PyStr.

Local Abbreviation r1 := (replace "<!--" "<!- -").
Local Abbreviation r2 := (replace "-->" "- ->").

Lemma contains_unfold sub c s :
  contains sub (String c s) = String.prefix sub (String c s) || contains sub s.
Proof. reflexivity. Qed.

Lemma contains_more sub c s : contains sub s = true -> contains sub (String c s) = true.
Proof. intros H. rewrite contains_unfold, H. apply orb_true_r. Qed.

Lemma contains_of_prefix sub s : String.prefix sub s = true -> contains sub s = true.
Proof. intros H. destruct s; cbn [contains]; now rewrite H. Qed.

Lemma r1_cases s :
  (exists q, s = String "<" (String "!" (String "-" (String "-" q))) /\
             r1 s = String "<" (String "!" (String "-" (String " " (String "-" (r1 q)))))) \/
  (s = EmptyString /\ r1 s = EmptyString) \/
  (exists c s', s = String c s' /\ String.prefix "<!--" s = false /\
                r1 s = String c (r1 s')).
Proof.
  destruct (String.prefix "<!--" s) eqn:E.
  - left. destruct (prefix_app_inv _ _ E) as [q ->]. exists q. split; [reflexivity|].
    apply r1_match.
  - right. destruct s as [|c s']; [left; now split|].
    right. exists c, s'. split; [reflexivity|]. split; [reflexivity|].
    now apply replace_nomatch.
Qed.

Lemma r2_cases t :
  (exists q, t = String "-" (String "-" (String ">" q)) /\
             r2 t = String "-" (String " " (String "-" (String ">" (r2 q))))) \/
  (t = EmptyString /\ r2 t = EmptyString) \/
  (exists c t', t = String c t' /\ String.prefix "-->" t = false /\
                r2 t = String c (r2 t')).
Proof.
  destruct (String.prefix "-->" t) eqn:E.
  - left. destruct (prefix_app_inv _ _ E) as [q ->]. exists q. split; [reflexivity|].
    apply r2_match.
  - right. destruct t as [|c t']; [left; now split|].
    right. exists c, t'. split; [reflexivity|]. split; [reflexivity|].
    now apply replace_nomatch.
Qed.

(** The output of the second pass does not start with [-->]. *)
Lemma r2_head t : String.prefix "-->" (r2 t) = false.
Proof.
  destruct (r2_cases t) as [(q & -> & ->)|[[-> ->]|(c & t' & -> & E & ->)]];
    [reflexivity | reflexivity |].
  destruct (ascii_dec "-" c) as [<-|Hc]; [|now apply prefix_cons_ne].
  rewrite prefix_cons_eq. rewrite prefix_cons_eq in E.
  destruct (r2_cases t') as [(q & -> & ->)|[[-> ->]|(c' & t'' & -> & E' & ->)]];
    [reflexivity | reflexivity |].
  destruct (ascii_dec "-" c') as [<-|Hc']; [|now apply prefix_cons_ne].
  rewrite prefix_cons_eq. rewrite prefix_cons_eq in E.
  destruct (String.prefix ">" (r2 t'')) eqn:E2; [|reflexivity].
  destruct (prefix_app_inv _ _ E2) as [x Hx].
  change (">" +:+ x) with (String ">" x) in Hx.
  apply replace_cons_inv in Hx as (y & -> & _).
  rewrite prefix_cons_eq in E. destruct y; discriminate E.
Qed.

Lemma r2_free_bounded n : forall t, String.length t <= n -> contains "-->" (r2 t) = false.
Proof.
  induction n as [|n IH]; intros t Hn.
  - destruct t; [reflexivity | cbn in Hn; lia].
  - destruct (r2_cases t) as [(q & Ht & E)|[[-> ->]|(c & t' & Ht & _ & E)]];
      [| reflexivity |].
    + rewrite E. subst t. cbn [String.length] in Hn.
      rewrite !contains_unfold. rewrite (IH q) by lia.
      rewrite orb_false_r.
      reflexivity.
    + pose proof (r2_head t) as Hh. rewrite E in Hh. rewrite E.
      subst t. cbn [String.length] in Hn.
      rewrite contains_unfold, Hh. apply IH. lia.
Qed.

(** The output of the first pass does not start with [<!--]. *)
Lemma r1_head s : String.prefix "<!--" (r1 s) = false.
Proof.
  destruct (r1_cases s) as [(q & -> & ->)|[[-> ->]|(c & s' & -> & E & ->)]];
    [reflexivity | reflexivity |].
  destruct (ascii_dec "<" c) as [<-|Hc]; [|now apply prefix_cons_ne].
  rewrite prefix_cons_eq. rewrite prefix_cons_eq in E.
  destruct (String.prefix "!--" (r1 s')) eqn:E2; [|reflexivity].
  destruct (prefix_app_inv _ _ E2) as [x Hx].
  change ("!--" +:+ x) with (String "!" (String "-" (String "-" x))) in Hx.
  apply replace_cons_inv in Hx as (y & -> & K). specialize (K ltac:(discriminate)).
  symmetry in K. apply replace_cons_inv in K as (z & -> & K).
  specialize (K ltac:(discriminate)).
  symmetry in K. apply replace_cons_inv in K as (w & -> & _).
  rewrite !prefix_cons_eq in E. destruct w; discriminate E.
Qed.

Lemma r1_free_bounded n : forall s, String.length s <= n -> contains "<!--" (r1 s) = false.
Proof.
  induction n as [|n IH]; intros s Hn.
  - destruct s; [reflexivity | cbn in Hn; lia].
  - destruct (r1_cases s) as [(q & Hs & E)|[[-> ->]|(c & s' & Hs & _ & E)]];
      [| reflexivity |].
    + rewrite E. subst s. cbn [String.length] in Hn.
      rewrite !contains_unfold. rewrite (IH q) by lia.
      rewrite orb_false_r.
      reflexivity.
    + pose proof (r1_head s) as Hh. rewrite E in Hh. rewrite E.
      subst s. cbn [String.length] in Hn.
      rewrite contains_unfold, Hh. apply IH. lia.
Qed.

(** The second pass makes no [<!--]: one at the head of its output is
    at the head of its input. *)
Lemma r2_open_head t :
  String.prefix "<!--" (r2 t) = true -> String.prefix "<!--" t = true.
Proof.
  intros H. destruct (prefix_app_inv _ _ H) as [x Hx].
  change ("<!--" +:+ x) with (String "<" (String "!" (String "-" (String "-" x)))) in Hx.
  apply replace_cons_inv in Hx as (t1 & -> & K). specialize (K ltac:(discriminate)).
  symmetry in K. apply replace_cons_inv in K as (t2 & -> & K).
  specialize (K ltac:(discriminate)). symmetry in K.
  destruct (r2_cases t2) as [(q & -> & _)|[[-> E]|(c & t3 & -> & _ & E)]];
    [reflexivity | rewrite E in K; discriminate K |].
  rewrite E in K. injection K as -> K.
  apply replace_cons_inv in K as (t4 & -> & _).
  rewrite !prefix_cons_eq. now destruct t4.
Qed.

Lemma r2_open_bounded n : forall t,
  String.length t <= n -> contains "<!--" (r2 t) = true -> contains "<!--" t = true.
Proof.
  induction n as [|n IH]; intros t Hn H.
  - destruct t; [discriminate H | cbn in Hn; lia].
  - destruct (r2_cases t) as [(q & Ht & E)|[[-> E]|(c & t' & Ht & _ & E)]].
    + rewrite E in H. subst t. cbn [String.length] in Hn.
      rewrite !contains_unfold in H.
      rewrite !(prefix_cons_ne "<") in H by discriminate.
      cbn [orb] in H. do 3 apply contains_more. apply (IH q); [lia | exact H].
    + rewrite E in H. discriminate H.
    + pose proof (r2_open_head t) as Hh. rewrite E in Hh, H.
      rewrite contains_unfold in H. apply orb_true_iff in H as [H|H].
      * apply contains_of_prefix, Hh, H.
      * subst t. cbn [String.length] in Hn. apply contains_more.
        apply (IH t'); [lia | exact H].
Qed.

End EscapeOutput.

(** An escaped snapshot holds neither [<!--] nor [-->], whatever the
    snapshot: it can stand inside the metadata comment. *)
Theorem escape_snapshot_no_delimiter (s : string) :
  PyStr.contains "<!--" (escape_snapshot s) = false /\
  PyStr.contains "-->" (escape_snapshot s) = false.
Proof.
  unfold escape_snapshot. split.
  - destruct (PyStr.contains "<!--"
                (PyStr.replace "-->" "- ->" (PyStr.replace "<!--" "<!- -" s))) eqn:E;
      [|reflexivity].
    apply (r2_open_bounded _ _ (le_n _)) in E.
    now rewrite (r1_free_bounded _ s (le_n _)) in E.
  - apply (r2_free_bounded _ _ (le_n _)).
Qed.

(** ** [write_attribs] *)

Lemma property_keys_nodup c : NoDup (property_keys c).
Proof. destruct c; apply (bool_decide_unpack _); vm_compute; exact I. Qed.

Lemma assoc_set_new l key v :
  key ∉ map fst l -> assoc_set l key v = l ++ [(key, v)].
Proof.
  induction l as [|[k w] l IH]; intros H; [reflexivity|].
  cbn in H. apply not_elem_of_cons in H as [Hne Hl].
  cbn [assoc_set]. destruct (String.eqb_spec k key) as [->|_]; [contradiction|].
  now rewrite IH.
Qed.

Section WriteAttribs.

Variable encode : pyvalue -> string.
Variable tostring : heap -> nat -> string.

Lemma write_loop_run C s keys : forall (h : heap) o,
  h !! C = Some o -> NoDup keys ->
  (forall key, key ∈ keys -> key ∉ map fst (attrib o)) ->
  for_each keys (fun key =>
    if String.eqb key "<node_text>"
    then update C (set_text (prop_value s key))
    else update C (fun o => set_attrib (assoc_set (attrib o) key (prop_value s key)) o)) h
  = (Ret tt,
     alter (fun _ =>
       set_text (if bool_decide ("<node_text>" ∈ keys)
                 then prop_value s "<node_text>" else text o)
         (set_attrib
            (attrib o ++
             map (fun key => (key, prop_value s key))
               (List.filter (fun key => negb (String.eqb key "<node_text>")) keys)) o))
       C h).
Proof.
  induction keys as [|key keys IH]; intros h o Ho Hnd Hnew.
  - cbn. unfold ret. f_equal. symmetry. apply alter_id_at. intros o' Ho'.
    assert (o' = o) by congruence. subst o'.
    rewrite app_nil_r. now destruct o.
  - apply NoDup_cons in Hnd as [Hkey Hnd].
    cbn [for_each]. unfold bind at 1.
    destruct (String.eqb_spec key "<node_text>") as [->|Hne].
    + unfold update at 1.
      rewrite (IH _ (set_text (prop_value s "<node_text>") o)).
      * rewrite list_alter_alter_eq. f_equal.
        apply list_alter_ext; [|reflexivity]. intros o' _. cbn.
        rewrite (bool_decide_eq_true_2 ("<node_text>" ∈ "<node_text>" :: keys))
          by (now left).
        rewrite (bool_decide_eq_false_2 _ Hkey). reflexivity.
      * now rewrite list_lookup_alter_eq, Ho.
      * exact Hnd.
      * intros k Hk. cbn. apply Hnew. now right.
    + unfold update at 1.
      rewrite (IH _ (set_attrib (assoc_set (attrib o) key (prop_value s key)) o)).
      * rewrite list_alter_alter_eq. f_equal.
        apply list_alter_ext; [|reflexivity]. intros o' _. cbn.
        rewrite assoc_set_new by (apply Hnew; now left).
        destruct (String.eqb_spec key "<node_text>") as [|_]; [contradiction|].
        cbn. rewrite <- app_assoc. cbn.
        destruct (bool_decide ("<node_text>" ∈ keys)) eqn:E.
        -- rewrite (bool_decide_eq_true_2 ("<node_text>" ∈ key :: keys)); [reflexivity|].
           right. now apply bool_decide_eq_true in E.
        -- rewrite (bool_decide_eq_false_2 ("<node_text>" ∈ key :: keys)); [reflexivity|].
           apply bool_decide_eq_false in E. intros H.
           apply elem_of_cons in H as [H|H]; [now apply Hne | now apply E].
      * now rewrite list_lookup_alter_eq, Ho.
      * exact Hnd.
      * intros k Hk. cbn. rewrite assoc_set_new by (apply Hnew; now left).
        rewrite map_app. cbn. intros H. apply elem_of_app in H as [H|H].
        -- revert H. apply Hnew. now right.
        -- apply list_elem_of_singleton in H. subst k. contradiction.
Qed.

(** [write_attribs] of a visible element returns, and makes the XML
    attributes the properties of the node: the old attributes are
    dropped, each property but the text becomes an attribute, in the
    order of the properties, and the text property becomes the text. *)
Theorem write_attribs_effect C c (h : heap) :
  h !! C = Some c -> cls c <> NodeComment -> is_hidden c = false ->
  NodeElement_write_attribs encode tostring C h
  = (Ret tt, alter (fun o => set_text (written_text c) (set_attrib (written_attribs c) o))
               C h).
Proof.
  intros Hc _ Hv. unfold NodeElement_write_attribs, bind at 1, deref at 1, reads at 1.
  rewrite Hc. unfold bind at 1, update at 1. unfold bind at 1.
  rewrite (write_loop_run C c (property_keys (cls c)) _ (set_attrib [] c)).
  - rewrite Hv. unfold ret. f_equal. rewrite list_alter_alter_eq.
    apply list_alter_ext; [|reflexivity]. intros o Ho.
    assert (o = c) by congruence. subst o. reflexivity.
  - now rewrite list_lookup_alter_eq, Hc.
  - apply property_keys_nodup.
  - intros key _. apply not_elem_of_nil.
Qed.

End WriteAttribs.

Lemma write_attribs_effect_witness :
  is_hidden (new_node NodeConfigFile) = false /\
  attrib <$> exec (NodeElement_write_attribs no_encode no_tostring 0)
               file_with_stale_attribute !! 0
  = Some [("source", "a/b.esp"); ("destination", ""); ("priority", "3");
          ("alwaysInstall", ""); ("installIfUsable", "")].
Proof.
  split; [reflexivity|]. unfold exec.
  rewrite (write_attribs_effect no_encode no_tostring 0 _ file_with_stale_attribute
             eq_refl ltac:(discriminate) eq_refl).
  reflexivity.
Defined.

(** ** The label of a file or a folder *)

Lemma last_component_free sep s :
  PyStr.contains (String sep EmptyString) (last_component sep s) = false.
Proof.
  induction s as [|c s IH]; [reflexivity|].
  cbn [last_component].
  destruct (PyStr.contains (String sep EmptyString) s) eqn:E; [exact IH|].
  destruct (Ascii.eqb_spec c sep) as [->|Hne]; [exact E|].
  rewrite contains_unfold, E, orb_false_r. apply prefix_cons_ne. congruence.
Qed.

Lemma last_component_split sep s :
  s = last_component sep s \/
  exists p, s = p +:+ String sep (last_component sep s).
Proof.
  induction s as [|c s IH]; [now left|].
  cbn [last_component].
  destruct (PyStr.contains (String sep EmptyString) s) eqn:E.
  - right. destruct IH as [IH|[p IH]].
    + rewrite IH, last_component_free in E. discriminate E.
    + exists (String c p).
      change (String c p +:+ String sep (last_component sep s))
        with (String c (p +:+ String sep (last_component sep s))).
      now rewrite <- IH.
  - destruct (Ascii.eqb_spec c sep) as [->|_].
    + right. now exists EmptyString.
    + now left.
Qed.

(** [update_item_name] of a [file] or a [folder] whose source is set:
    the label is the last item of the source split at the separator.
    It holds no separator, and the source is the label alone or ends
    with a separator and the label.  It becomes the text of the item. *)
Theorem update_item_name_path (os_sep : ascii) self s (h : heap) :
  h !! self = Some s ->
  cls s = NodeConfigFile \/ cls s = NodeConfigFolder ->
  prop_value s "source" <> EmptyString ->
  let label := last_component os_sep (prop_value s "source") in
  update_item_name os_sep self h = (Ret label, alter (set_item_text label) self h) /\
  PyStr.contains (String os_sep EmptyString) label = false /\
  (prop_value s "source" = label \/
   exists p, prop_value s "source" = p +:+ String os_sep label).
Proof.
  intros Hs Hc Hsrc label.
  split; [|split; [apply last_component_free | apply last_component_split]].
  unfold update_item_name, bind at 1, deref at 1, reads at 1. rewrite Hs.
  destruct (String.eqb_spec (prop_value s "source") "") as [E|_]; [contradiction|].
  destruct Hc as [-> | ->]; reflexivity.
Qed.

Lemma update_item_name_path_witness :
  update_item_name "/" 0 file_with_stale_attribute
  = (Ret "b.esp", alter (set_item_text "b.esp") 0 file_with_stale_attribute) /\
  exists p, "a/b.esp" = p +:+ String "/" "b.esp".
Proof.
  pose proof (update_item_name_path "/" 0 _ file_with_stale_attribute eq_refl
                (or_introl eq_refl) ltac:(discriminate)) as (H1 & _ & [H2|H2]).
  - discriminate H2.
  - split; [exact H1 | exact H2].
Defined.

(** ** The schema and [can_add_child] *)

Lemma schema_children_allowed c r :
  r ∈ required_children c ++ either_children_group c ++ at_least_one_children_group c ->
  r ∈ allowed_children c.
Proof.
  assert (H : forallb (fun r => bool_decide (r ∈ allowed_children c))
                (required_children c ++ either_children_group c
                 ++ at_least_one_children_group c) = true)
    by (destruct c; vm_compute; reflexivity).
  intros Hr. rewrite forallb_forall in H.
  apply list_elem_of_In, H in Hr. now apply bool_decide_eq_true in Hr.
Qed.

(** Every class that the schema requires of a node, or lists in its
    either-group or its at-least-one-group, is a class that the node
    accepts while it has no child: [can_add_child] answers [True]. *)
Theorem schema_child_accepted (h : heap) (P C : nat) (p c : node) :
  h !! P = Some p -> h !! C = Some c -> children p = [] ->
  cls c ∈ required_children (cls p) ++ either_children_group (cls p)
          ++ at_least_one_children_group (cls p) ->
  can_add_child P C h = (Ret true, h).
Proof.
  intros Hp Hc Hch Hr.
  assert (Hel : cls p <> NodeComment).
  { intros E. rewrite E in Hr. cbn in Hr. now apply elem_of_nil in Hr. }
  rewrite (can_add_child_run h P C p c Hp Hc Hel). do 2 f_equal.
  apply schema_children_allowed in Hr.
  rewrite Hch. cbn [length Nat.ltb Nat.leb].
  assert (E : NodeElement_can_add_child h p c = true).
  { unfold NodeElement_can_add_child. rewrite Hch. unfold count_class. cbn.
    rewrite (bool_decide_eq_true_2 _ Hr). cbn.
    destruct (allowed_instances (cls c)); reflexivity. }
  rewrite E. now destruct (decide (cls p = NodeConfigTypeDesc)).
Qed.

Lemma schema_child_accepted_witness :
  can_add_child 0 1 empty_type_descriptor = (Ret true, empty_type_descriptor).
Proof.
  apply (schema_child_accepted empty_type_descriptor 0 1 _ _ eq_refl eq_refl eq_refl).
  vm_compute. left.
Defined.

(** ** Saving and then loading *)

Lemma dict_get_set_eq d k v : dict_get (dict_set d k v) k = Some v.
Proof.
  induction d as [|[k' v'] d IH]; cbn.
  - now rewrite String.eqb_refl.
  - destruct (String.eqb k' k) eqn:E; cbn; now rewrite E.
Qed.

Lemma dict_get_set_ne d k k' v :
  String.eqb k k' = false -> dict_get (dict_set d k v) k' = dict_get d k'.
Proof.
  intros Hne. induction d as [|[k0 v0] d IH]; cbn.
  - now rewrite Hne.
  - destruct (String.eqb_spec k0 k) as [->|Hk]; cbn; [now rewrite Hne|].
    now rewrite IH.
Qed.

Lemma dict_get_pop_ne d k k' :
  String.eqb k k' = false -> dict_get (dict_pop d k) k' = dict_get d k'.
Proof.
  intros Hne. induction d as [|[k0 v0] d IH]; cbn; [reflexivity|].
  destruct (String.eqb_spec k0 k) as [->|Hk]; cbn; [now rewrite Hne|].
  now rewrite IH.
Qed.

Lemma dict_get_None d k : k ∉ d.*1 -> dict_get d k = None.
Proof.
  induction d as [|[k0 v0] d IH]; intros H; [reflexivity|].
  cbn in *. apply not_elem_of_cons in H as [Hne H].
  destruct (String.eqb_spec k0 k) as [->|_]; [contradiction | now apply IH].
Qed.

Lemma dict_get_pop_eq d k : NoDup d.*1 -> dict_get (dict_pop d k) k = None.
Proof.
  induction d as [|[k0 v0] d IH]; intros H; [reflexivity|].
  cbn in H. apply NoDup_cons in H as [Hk H]. cbn.
  destruct (String.eqb_spec k0 k) as [->|Hne].
  - now apply dict_get_None.
  - cbn. destruct (String.eqb_spec k0 k) as [|_]; [contradiction | now apply IH].
Qed.

Lemma dict_set_keys d k v :
  (dict_set d k v).*1 = if bool_decide (k ∈ d.*1) then d.*1 else d.*1 ++ [k].
Proof.
  induction d as [|[k0 v0] d IH]; [reflexivity|].
  cbn. destruct (String.eqb_spec k0 k) as [->|Hne].
  - rewrite bool_decide_eq_true_2 by (now left). reflexivity.
  - cbn. rewrite IH. destruct (bool_decide (k ∈ d.*1)) eqn:E.
    + rewrite bool_decide_eq_true_2; [reflexivity|].
      right. now apply bool_decide_eq_true in E.
    + rewrite bool_decide_eq_false_2; [reflexivity|].
      apply bool_decide_eq_false in E. intros H.
      apply elem_of_cons in H as [->|H]; [now apply Hne | now apply E].
Qed.

Lemma dict_set_nodup d k v : NoDup d.*1 -> NoDup (dict_set d k v).*1.
Proof.
  intros H. rewrite dict_set_keys. destruct (bool_decide (k ∈ d.*1)) eqn:E; [exact H|].
  apply bool_decide_eq_false in E. apply NoDup_app. split; [exact H|].
  split; [|apply NoDup_singleton].
  intros x Hx Hx'. apply list_elem_of_singleton in Hx'. now subst x.
Qed.

Lemma dict_pop_nodup d k : NoDup d.*1 -> NoDup (dict_pop d k).*1.
Proof.
  induction d as [|[k0 v0] d IH]; intros H; [exact H|].
  cbn in H. apply NoDup_cons in H as [Hk H]. cbn.
  destruct (String.eqb k0 k); [exact H|]. cbn. apply NoDup_cons. split; [|now apply IH].
  intros Hin. apply Hk. clear -Hin.
  induction d as [|[k1 v1] d IH]; [exact Hin|]. cbn in *.
  destruct (String.eqb k1 k); [now right|]. cbn in Hin.
  apply elem_of_cons in Hin as [->|Hin]; [now left | right; now apply IH].
Qed.

(** What [load_metadata] finds in the mapping that [save_metadata]
    made. *)
Lemma new_metadata_get tostring (h : heap) self s d :
  NoDup d.*1 ->
  let md := new_metadata tostring h self s d in
  dict_get md "name"
  = (if negb (String.eqb (item_text s) (name (cls s)))
     then Some (PyStr (item_text s)) else None) /\
  default (PyStr (PyStr.zfill 7 "0")) (dict_get md "user_sort")
  = PyStr (PyStr.zfill 7 (user_sort_order s)) /\
  (hidden_children s = [] -> dict_get md "hidden_nodes" = None).
Proof.
  intros Hd. unfold new_metadata.
  set (d1 := if negb (String.eqb (item_text s) (name (cls s)))
             then dict_set d "name" (PyStr (item_text s)) else dict_pop d "name").
  set (d2 := if negb (String.eqb (user_sort_order s) "")
                && negb (String.eqb (user_sort_order s) (PyStr.zfill 7 "0"))
             then dict_set d1 "user_sort" (PyStr (PyStr.zfill 7 (user_sort_order s)))
             else dict_pop d1 "user_sort").
  assert (Hd1 : NoDup d1.*1)
    by (unfold d1; destruct (negb _); [now apply dict_set_nodup | now apply dict_pop_nodup]).
  assert (Hd2 : NoDup d2.*1)
    by (unfold d2; destruct (_ && _); [now apply dict_set_nodup | now apply dict_pop_nodup]).
  assert (Hn1 : dict_get d1 "name"
                = if negb (String.eqb (item_text s) (name (cls s)))
                  then Some (PyStr (item_text s)) else None).
  { unfold d1. destruct (negb _); [apply dict_get_set_eq | now apply dict_get_pop_eq]. }
  assert (Hn2 : dict_get d2 "name" = dict_get d1 "name").
  { unfold d2. destruct (_ && _); [now apply dict_get_set_ne | now apply dict_get_pop_ne]. }
  assert (Hu2 : default (PyStr (PyStr.zfill 7 "0")) (dict_get d2 "user_sort")
                = PyStr (PyStr.zfill 7 (user_sort_order s))).
  { unfold d2.
    destruct (String.eqb_spec (user_sort_order s) "") as [->|H1]; cbn [negb andb].
    - now rewrite dict_get_pop_eq.
    - destruct (String.eqb_spec (user_sort_order s) (PyStr.zfill 7 "0")) as [->|H2];
        cbn [negb].
      + now rewrite dict_get_pop_eq.
      + now rewrite dict_get_set_eq. }
  destruct (hidden_children s) as [|x l] eqn:Hh.
  - split; [|split].
    + rewrite dict_get_pop_ne by reflexivity. now rewrite Hn2.
    + rewrite dict_get_pop_ne by reflexivity. exact Hu2.
    + intros _. now apply dict_get_pop_eq.
  - split; [|split].
    + rewrite dict_get_set_ne by reflexivity. now rewrite Hn2.
    + rewrite dict_get_set_ne by reflexivity. exact Hu2.
    + discriminate.
Qed.

Section SaveThenLoad.

Variable os_sep : ascii.
Variable decode : string -> option pyvalue.
Variable encode : pyvalue -> string.
Variable tostring : heap -> nat -> string.
Variable restore_hidden_node : nat -> string -> M unit.

(** [save_metadata] and then [load_metadata] on a node return, for a
    decoder that inverts the encoder on the mapping: the node holds the
    saved mapping, its user rank is the old one filled with zeros to
    seven characters, and a label that differs from the name of the
    class is kept.  No hidden node is restored. *)
Theorem save_then_load self s d a r (h : heap) :
  tree_linked h = true -> children_nodup h = true ->
  h !! self = Some s -> cls s <> NodeComment ->
  metadata s = PyDict d -> NoDup d.*1 ->
  keeps_metadata (cls s) = true ->
  new_metadata tostring h self s d <> [] ->
  existsb (meta_at h) (children s) = true \/ accepts_comment s = true ->
  let md := PyDict (new_metadata tostring h self s d) in
  encode md = String a r -> PyStr.isspace a = false ->
  decode (encode md) = Some md ->
  let m := save_metadata encode tostring self ;;;
           NodeElement_load_metadata os_sep decode restore_hidden_node self in
  result m h = Ret tt /\
  exists s', exec m h !! self = Some s' /\
    metadata s' = md /\
    user_sort_order s' = PyStr.zfill 7 (user_sort_order s) /\
    (item_text s <> name (cls s) -> item_text s' = item_text s).
Proof.
  intros L D Hs Hel Hd Hkeys Hk Hm Hcase md Henc Ha Hdec m.
  pose proof (owns_linked h self L D) as Hown.
  set (h' := exec (save_metadata encode tostring self) h).
  assert (Esave : save_metadata encode tostring self h = (Ret tt, h')).
  { unfold h', exec.
    now rewrite (save_metadata_shape encode tostring self s d h Hs Hel Hd Hown). }
  destruct (save_metadata_comments encode tostring self s d h Hs Hel Hd Hown Hk Hm Hcase)
    as [Hex Htext].
  destruct (save_metadata_mapping encode tostring self s d h Hs Hel Hd Hown Hm)
    as (s' & Hs' & Hcls & Hmd).
  pose proof (save_metadata_owns encode tostring self s d h Hs Hel Hd Hown Hm)
    as [_ Hp].
  destruct (save_metadata_fixed encode tostring self s d h Hs Hel Hd Hown self s Hs)
    as (s1 & Hs1 & Efix).
  fold h' in Hex, Htext, Hs', Hp, Hs1. fold md in Htext, Hmd.
  assert (s1 = s') by congruence. subst s1.
  assert (Hit : item_text s' = item_text s) by (unfold fixed_fields in Efix; congruence).
  assert (Hus : user_sort_order s' = user_sort_order s)
    by (unfold fixed_fields in Efix; congruence).
  assert (Hhc : hidden_children s' = hidden_children s)
    by (unfold fixed_fields in Efix; congruence).
  assert (Hch : children_of h' self = children s')
    by (unfold children_of; now rewrite Hs').
  rewrite Hch in Hex, Htext, Hp.
  assert (Hsplit : PyStr.split_maxsplit1 (sentinel +:+ " " +:+ encode md) !! 1
                   = Some (encode md))
    by (rewrite Henc; now apply split_sentinel).
  assert (Escan : load_metadata_scan decode self h' = (Ret tt, h')).
  { rewrite (load_metadata_scan_reads decode self s' md (encode md)
               (sentinel +:+ " " +:+ encode md) h' Hsplit Hdec Hs').
    - f_equal. apply alter_id_at. intros o Ho. assert (o = s') by congruence. subst o.
      rewrite <- Hmd. apply set_metadata_id.
    - intros c Hc. destruct (parent_of_Some h' c self (Hp c Hc)) as (o & Ho & _).
      now exists o.
    - exact Htext.
    - exact Hex. }
  destruct (update_item_name_run os_sep self s' h' Hs') as (f & label & Hf & Ename).
  destruct (new_metadata_get tostring h self s d Hkeys) as (Gname & Gsort & Ghid).
  set (t := match dict_get (new_metadata tostring h self s d) "name" with
            | Some (PyStr x) => x
            | _ => label
            end).
  set (h3 := alter (set_user_sort_order (PyStr.zfill 7 (user_sort_order s))) self
               (alter (set_item_text t) self (alter f self h'))).
  assert (Eload : NodeElement_load_metadata os_sep decode restore_hidden_node self h'
                  = (Ret tt, h3)).
  { unfold NodeElement_load_metadata. unfold bind at 1. rewrite Escan.
    unfold bind at 1, deref at 1, reads at 1. rewrite Hs'.
    rewrite Hmd. unfold md at 1. unfold bind at 1, ret at 1.
    unfold bind at 1. rewrite Ename.
    unfold md at 1. unfold bind at 1, lift at 1, py_get at 1.
    assert (Ev : default (PyStr label)
                   (dict_get (new_metadata tostring h self s d) "name") = PyStr t).
    { unfold t. rewrite Gname. now destruct (negb _). }
    rewrite Ev. unfold bind at 1, update at 1.
    unfold md at 1. unfold bind at 1, lift at 1, py_get at 1.
    rewrite Gsort. unfold bind at 1, update at 1.
    rewrite Hhc. destruct (hidden_children s) as [|x l] eqn:Hh; [|reflexivity].
    unfold md. unfold bind at 1, lift at 1, py_get at 1.
    rewrite (Ghid eq_refl). cbn [default]. reflexivity. }
  assert (Em : m h = (Ret tt, h3)) by (unfold m, bind; now rewrite Esave).
  unfold result, exec. rewrite Em. cbn [fst snd]. split; [reflexivity|].
  exists (set_user_sort_order (PyStr.zfill 7 (user_sort_order s))
            (set_item_text t (f s'))).
  split; [unfold h3; now rewrite !list_lookup_alter_eq, Hs'|].
  destruct (Hf s') as (_ & _ & _ & Hmf & _).
  split; [cbn; now rewrite Hmf|]. split; [reflexivity|].
  intros Hne. cbn. unfold t. rewrite Gname.
  destruct (String.eqb_spec (item_text s) (name (cls s))) as [E|_]; [contradiction|].
  reflexivity.
Qed.

End SaveThenLoad.

Lemma save_then_load_witness :
  result
    (save_metadata no_encode no_tostring 0 ;;;
     NodeElement_load_metadata "/"
       (fun _ => Some (PyDict [("name", PyStr "Textures")])) no_restore 0)
    renamed_plugin_unsaved = Ret tt.
Proof.
  exact (proj1 (save_then_load "/" (fun _ => Some (PyDict [("name", PyStr "Textures")]))
                  no_encode no_tostring no_restore 0 _ [] "{" "}" renamed_plugin_unsaved
                  eq_refl eq_refl eq_refl ltac:(discriminate) eq_refl
                  ltac:(constructor) eq_refl ltac:(discriminate) (or_intror eq_refl)
                  eq_refl eq_refl eq_refl)).
Defined.

(** ** When [load_metadata] raises *)

Section LoadErrors.

Variable os_sep : ascii.
Variable decode : string -> option pyvalue.
Variable restore_hidden_node : nat -> string -> M unit.




(** When the metadata comments of a node decode to a value that is not
    a mapping, [load_metadata] raises [AttributeError], and the value
    stays in [metadata]. *)
Theorem load_metadata_not_a_mapping self s md e v (h : heap) :
  tree_linked h = true -> h !! self = Some s ->
  PyStr.split_maxsplit1 v !! 1 = Some e -> decode e = Some md ->
  (forall d, md <> PyDict d) ->
  existsb (meta_at h) (children s) = true ->
  (forall c, c ∈ children s -> meta_at h c = true -> text_of h c = v) ->
  NodeElement_load_metadata os_sep decode restore_hidden_node self h
  = (Raise AttributeError, alter (set_metadata md) self h).
Proof.
  intros L Hs Hsplit Hdec Hmd Hex Htext.
  unfold NodeElement_load_metadata, bind at 1.
  rewrite (load_metadata_scan_reads decode self s md e v h Hsplit Hdec Hs); try assumption.
  - unfold bind at 1, deref at 1, reads at 1. rewrite list_lookup_alter_eq, Hs. cbn.
    destruct md; try reflexivity. exfalso. now eapply Hmd.
  - intros c Hc. pose proof (proj1 (tree_linked_spec h) L self s c Hs Hc) as Hp.
    destruct (parent_of_Some h c self Hp) as (o & Ho & _). now exists o.
Qed.

End LoadErrors.


Lemma load_metadata_not_a_mapping_witness :
  NodeElement_load_metadata "/" decode_list no_restore 0 plugin_with_list_payload
  = (Raise AttributeError,
     alter (set_metadata (PyList [])) 0 plugin_with_list_payload).
Proof.
  apply (load_metadata_not_a_mapping "/" decode_list no_restore 0 _ (PyList []) "[]"
           (sentinel +:+ " []") plugin_with_list_payload eq_refl eq_refl eq_refl
           eq_refl ltac:(discriminate) eq_refl).
  intros c Hc Hm. apply list_elem_of_singleton in Hc. now subst c.
Defined.

(** ** The order of the items and the order of the nodes *)

Lemma ascii_compare_trans_le a b c :
  Ascii.compare a b <> Gt -> Ascii.compare b c <> Gt -> Ascii.compare a c <> Gt.
Proof.
  unfold Ascii.compare. rewrite !N.compare_le_iff. lia.
Qed.

Lemma ascii_compare_Eq a b : Ascii.compare a b = Eq -> a = b.
Proof. apply Ascii.compare_eq_iff. Qed.

Lemma ascii_compare_lt_le a b c :
  Ascii.compare a b = Lt -> Ascii.compare b c <> Gt -> Ascii.compare a c = Lt.
Proof.
  unfold Ascii.compare. rewrite !N.compare_lt_iff, N.compare_le_iff. lia.
Qed.

Lemma ascii_compare_le_lt a b c :
  Ascii.compare a b <> Gt -> Ascii.compare b c = Lt -> Ascii.compare a c = Lt.
Proof.
  unfold Ascii.compare. rewrite !N.compare_lt_iff, N.compare_le_iff. lia.
Qed.

Lemma string_compare_trans_le a : forall b c,
  String.compare a b <> Gt -> String.compare b c <> Gt -> String.compare a c <> Gt.
Proof.
  induction a as [|x a IH]; intros [|y b] [|z c]; cbn; try congruence.
  destruct (Ascii.compare x y) eqn:Exy; [| |congruence];
    destruct (Ascii.compare y z) eqn:Eyz; try congruence.
  - apply ascii_compare_Eq in Exy, Eyz. subst y z.
    replace (Ascii.compare x x) with Eq
      by (symmetry; unfold Ascii.compare; apply N.compare_refl).
    apply IH.
  - apply ascii_compare_Eq in Exy. subst y. rewrite Eyz. congruence.
  - apply ascii_compare_Eq in Eyz. subst z. rewrite Exy. congruence.
  - rewrite (ascii_compare_lt_le x y z Exy) by congruence. congruence.
Qed.

Lemma string_leb_trans a b c :
  String.leb a b = true -> String.leb b c = true -> String.leb a c = true.
Proof.
  unfold String.leb. intros H1 H2.
  pose proof (string_compare_trans_le a b c) as H.
  destruct (String.compare a b); try discriminate;
    destruct (String.compare b c); try discriminate;
    destruct (String.compare a c); try reflexivity;
    exfalso; apply H; congruence.
Qed.

Lemma string_leb_not_ltb a b : String.leb a b = true -> String.ltb b a = false.
Proof.
  unfold String.leb, String.ltb. rewrite (String.compare_antisym a b).
  now destruct (String.compare b a).
Qed.

Lemma is_sorted_head key l : forall a,
  is_sorted key (a :: l) = true ->
  forall z, z ∈ l -> String.leb (key a) (key z) = true.
Proof.
  induction l as [|b l IH]; intros a Hs z Hz; [now apply elem_of_nil in Hz|].
  rewrite is_sorted_cons in Hs. apply andb_true_iff in Hs as [Hab Hs].
  apply elem_of_cons in Hz as [->|Hz]; [exact Hab|].
  apply (string_leb_trans _ (key b)); [exact Hab | now apply IH].
Qed.

Lemma is_sorted_pairs key l :
  is_sorted key l = true ->
  forall i j x y, i < j -> l !! i = Some x -> l !! j = Some y ->
    String.leb (key x) (key y) = true.
Proof.
  induction l as [|a l IH]; intros Hs i j x y Hij Hi Hj; [discriminate|].
  destruct j as [|j]; [lia|]. cbn in Hj. destruct i as [|i].
  - cbn in Hi. inversion Hi; subst a.
    apply (is_sorted_head key l x Hs). eapply list_elem_of_lookup_2; eauto.
  - cbn in Hi. apply (IH (is_sorted_tail _ _ _ Hs) i j x y); [lia | exact Hi | exact Hj].
Qed.

(** After [sort()], the order of the children in the tree is the order
    that the items have under [NodeStandardItem.__lt__]: no child of an
    element that the XPath selects is less than a child before it. *)
Theorem sort_agrees_with_lt (h : heap) (self : nat) (s : node) :
  tree_linked h = true -> h !! self = Some s -> cls s <> NodeComment ->
  let h' := exec (sort self) h in
  forall p i j x y,
    p ∈ xpath_parents h self -> i < j ->
    children_of h' p !! i = Some x -> children_of h' p !! j = Some y ->
    NodeStandardItem_lt h' y x = false.
Proof.
  intros L Hs Hel h' p i j x y Hp Hij Hi Hj.
  assert (Hsorted : is_sorted (sort_key h') (children_of h' p) = true).
  { unfold h', exec. rewrite (sort_element self s h Hs Hel).
    rewrite (NodeElement_sort_spec self h L). cbn [snd].
    now apply (fold_sort_sorted (xpath_parents h self) p h). }
  unfold NodeStandardItem_lt.
  rewrite (string_leb_not_ltb _ _
             (is_sorted_pairs _ _ Hsorted i j x y Hij Hi Hj)).
  reflexivity.
Qed.

Lemma sort_agrees_with_lt_witness :
  tree_linked unsorted_config = true /\
  NodeStandardItem_lt unsorted_config 4 5 = true /\
  children_of unsorted_config 3 = [5; 4] /\
  NodeStandardItem_lt (exec (sort 1) unsorted_config) 5 4 = false.
Proof.
  split; [reflexivity|]. split; [reflexivity|]. split; [reflexivity|].
  apply (sort_agrees_with_lt unsorted_config 1 _ eq_refl eq_refl ltac:(discriminate)
           3 0 1 4 5); [|lia|reflexivity|reflexivity].
  vm_compute. right. right. left.
Defined.

(** ** [remove_child] *)

Lemma remove_child_outside (h : heap) P D p d :
  h !! P = Some p -> cls p <> NodeComment ->
  h !! D = Some d -> parent d <> Some P ->
  remove_child P D h = (Ret tt, h).
Proof.
  intros Hp Hel Hd Hpar. unfold remove_child, bind at 1, deref at 1, reads at 1.
  rewrite Hp.
  assert (E : forall (a b : M unit),
             match cls p with NodeComment => a | _ => b end = b)
    by (intros a b; now destruct (cls p)).
  rewrite E. unfold bind, reads, etree_contains, parent_of. rewrite Hd.
  now rewrite (bool_decide_eq_false_2 _ Hpar).
Qed.

(** [remove_child] returns for every node: one that is not a child is
    left where it is, with the whole document; a child leaves the
    children of the parent, the other children stay, in order, and the
    tree is still well-formed. *)
Theorem remove_child_removes (h : heap) (P D : nat) (p d : node) :
  tree_linked h = true -> children_nodup h = true ->
  h !! P = Some p -> cls p <> NodeComment -> h !! D = Some d ->
  let h' := exec (remove_child P D) h in
  result (remove_child P D) h = Ret tt /\
  children_of h' P = filter (fun x => x <> D) (children p) /\
  (parent d <> Some P -> h' = h) /\
  tree_linked h' = true /\ children_nodup h' = true.
Proof.
  intros L N Hp Hel Hd h'.
  pose proof (proj1 (tree_linked_spec h) L) as HL.
  pose proof (proj1 (children_nodup_spec h) N) as HN.
  destruct (decide (parent d = Some P)) as [Hpar|Hpar].
  - unfold h', result, exec. rewrite (remove_child_run h P D p d Hp Hel Hd Hpar).
    cbn [fst snd].
    set (h1 := alter (fun o => set_children (remove_first D (children o)) o) P h).
    assert (Hch : forall q, children_of (alter (set_parent None) D h1) q
                            = if decide (q = P) then filter (fun x => x <> D) (children p)
                              else children_of h q).
    { intros q. rewrite children_of_alter by reflexivity. unfold h1, children_of.
      destruct (decide (q = P)) as [->|Hne].
      - rewrite list_lookup_alter_eq, Hp. cbn.
        apply remove_first_filter. exact (HN P p Hp).
      - now rewrite list_lookup_alter_ne by congruence. }
    assert (Hpa : forall c, c <> D ->
                  parent_of (alter (set_parent None) D h1) c = parent_of h c).
    { intros c Hc. unfold parent_of at 1. rewrite list_lookup_alter_ne by congruence.
      fold (parent_of h1 c). unfold h1. now apply parent_of_alter_children. }
    split; [reflexivity|]. split; [|split; [contradiction|split]].
    + rewrite Hch. now rewrite decide_True.
    + apply tree_linked_spec. intros q o c Hq Hc.
      assert (Hc' : c ∈ children_of (alter (set_parent None) D h1) q)
        by (unfold children_of; now rewrite Hq).
      rewrite Hch in Hc'. destruct (decide (q = P)) as [->|Hne].
      * apply list_elem_of_filter in Hc' as [HcD Hc'].
        rewrite Hpa by exact HcD. exact (HL P p c Hp Hc').
      * assert (HcD : c <> D).
        { intros ->. unfold children_of in Hc'.
          destruct (h !! q) as [oq|] eqn:Hoq; [|now apply elem_of_nil in Hc'].
          pose proof (HL q oq D Hoq Hc') as H. unfold parent_of in H. rewrite Hd in H.
          congruence. }
        rewrite Hpa by exact HcD. unfold children_of in Hc'.
        destruct (h !! q) as [oq|] eqn:Hoq; [|now apply elem_of_nil in Hc'].
        exact (HL q oq c Hoq Hc').
    + apply children_nodup_spec. intros q o Hq.
      assert (E : children o = children_of (alter (set_parent None) D h1) q)
        by (unfold children_of; now rewrite Hq).
      rewrite E, Hch. destruct (decide (q = P)) as [->|Hne].
      * apply NoDup_filter. exact (HN P p Hp).
      * unfold children_of. destruct (h !! q) as [oq|] eqn:Hoq; [|constructor].
        exact (HN q oq Hoq).
  - unfold h', result, exec. rewrite (remove_child_outside h P D p d Hp Hel Hd Hpar).
    cbn [fst snd]. split; [reflexivity|]. split; [|split; [reflexivity|now split]].
    unfold children_of. rewrite Hp. symmetry. apply filter_all.
    intros x Hx ->. pose proof (HL P p D Hp Hx) as H.
    unfold parent_of in H. rewrite Hd in H. contradiction.
Qed.

Lemma remove_child_removes_witness :
  tree_linked plain_plugin = true /\ children_nodup plain_plugin = true /\
  children_of (exec (remove_child 0 2) plain_plugin) 0 = [1] /\
  tree_linked (exec (remove_child 0 2) plain_plugin) = true.
Proof.
  split; [reflexivity|]. split; [reflexivity|].
  pose proof (remove_child_removes plain_plugin 0 2 _ _ eq_refl eq_refl eq_refl
                ltac:(discriminate) eq_refl) as (_ & H1 & _ & H2 & _).
  split; [exact H1 | exact H2].
Defined.

(** ** [add_child] and the shape of the tree *)

Section AddKeepsTree.

Variable os_sep : ascii.
Variable decode : string -> option pyvalue.
Variable encode : pyvalue -> string.
Variable tostring : heap -> nat -> string.
Variable restore_hidden_node : nat -> string -> M unit.

Local Abbreviation add_child' :=
  (add_child os_sep decode encode tostring restore_hidden_node).

(** [add_child] of a fresh element keeps the tree well-formed, whether
    the element is accepted or refused: every child still names its
    parent, and no node has a child twice. *)
Theorem add_child_keeps_tree (h : heap) (P C : nat) (p c : node) :
  tree_linked h = true -> children_nodup h = true ->
  h !! P = Some p -> cls p <> NodeComment -> h !! C = Some c -> P <> C ->
  cls c <> NodeComment -> fresh c ->
  let h' := exec (add_child' P C) h in
  tree_linked h' = true /\ children_nodup h' = true.
Proof.
  intros L N Hp Hpel Hc Hne Hel Hfresh h'.
  pose proof (proj1 (tree_linked_spec h) L) as HL.
  pose proof (proj1 (children_nodup_spec h) N) as HN.
  pose proof (can_add_child_run h P C p c Hp Hc Hpel) as Hcan.
  destruct (NodeElement_can_add_child h p c
            && (if decide (cls p = NodeConfigTypeDesc)
                then Nat.ltb (length (children p)) 1 else true)).
  2:{ unfold h', exec.
      rewrite (add_child_refused os_sep decode encode tostring restore_hidden_node
                 h P C Hcan). now split. }
  destruct (add_child_fresh os_sep decode encode tostring restore_hidden_node
              h P C p c Hp Hc Hne Hel Hfresh Hcan) as (f & Hf & E).
  unfold h', exec. rewrite E. cbn [snd].
  set (h1 := alter (fun o => set_children (children o ++ [C]) o) P h).
  assert (Hout : forall q, C ∉ children_of h q).
  { intros q Hin. unfold children_of in Hin.
    destruct (h !! q) as [oq|] eqn:Hq; [|now apply elem_of_nil in Hin].
    pose proof (HL q oq C Hq Hin) as H. unfold parent_of in H. rewrite Hc in H.
    destruct Hfresh as (Hpar & _). congruence. }
  assert (Hch : forall q, children_of (alter (f ∘ set_parent (Some P)) C h1) q
                          = if decide (q = P) then children p ++ [C]
                            else children_of h q).
  { intros q. rewrite children_of_alter
      by (intros o; cbn; now destruct (Hf (set_parent (Some P) o)) as (_ & _ & -> & _)).
    unfold h1, children_of. destruct (decide (q = P)) as [->|Hq].
    - now rewrite list_lookup_alter_eq, Hp.
    - now rewrite list_lookup_alter_ne by congruence. }
  assert (Hpa : forall x, parent_of (alter (f ∘ set_parent (Some P)) C h1) x
                          = if decide (x = C) then Some P else parent_of h x).
  { intros x. unfold parent_of at 1. destruct (decide (x = C)) as [->|Hx].
    - rewrite list_lookup_alter_eq. unfold h1.
      rewrite list_lookup_alter_ne, Hc by congruence. cbn.
      now destruct (Hf (set_parent (Some P) c)) as (_ & -> & _).
    - rewrite list_lookup_alter_ne by congruence. fold (parent_of h1 x).
      unfold h1. now apply parent_of_alter_children. }
  split.
  - apply tree_linked_spec. intros q o x Hq Hx.
    assert (Hx' : x ∈ children_of (alter (f ∘ set_parent (Some P)) C h1) q)
      by (unfold children_of; now rewrite Hq).
    rewrite Hch in Hx'. rewrite Hpa. destruct (decide (q = P)) as [->|HqP].
    + apply elem_of_app in Hx' as [Hx'|Hx'].
      * destruct (decide (x = C)) as [->|_]; [reflexivity|]. exact (HL P p x Hp Hx').
      * apply list_elem_of_singleton in Hx'. subst x. now rewrite decide_True.
    + destruct (decide (x = C)) as [->|_]; [exfalso; now apply (Hout q)|].
      unfold children_of in Hx'.
      destruct (h !! q) as [oq|] eqn:Hoq; [|now apply elem_of_nil in Hx'].
      exact (HL q oq x Hoq Hx').
  - apply children_nodup_spec. intros q o Hq.
    assert (Eo : children o = children_of (alter (f ∘ set_parent (Some P)) C h1) q)
      by (unfold children_of; now rewrite Hq).
    rewrite Eo, Hch. destruct (decide (q = P)) as [->|HqP].
    + apply NoDup_app. split; [exact (HN P p Hp)|]. split; [|apply NoDup_singleton].
      intros x Hx Hx'. apply list_elem_of_singleton in Hx'. subst x.
      apply (Hout P). unfold children_of. now rewrite Hp.
    + unfold children_of. destruct (h !! q) as [oq|] eqn:Hoq; [|constructor].
      exact (HN q oq Hoq).
Qed.

End AddKeepsTree.

Lemma add_child_keeps_tree_witness :
  tree_linked empty_type_descriptor = true /\
  children_nodup empty_type_descriptor = true /\
  tree_linked
    (exec (add_child "/" no_decode no_encode no_tostring no_restore 0 1)
       empty_type_descriptor) = true.
Proof.
  split; [reflexivity|]. split; [reflexivity|].
  exact (proj1 (add_child_keeps_tree "/" no_decode no_encode no_tostring no_restore
                  empty_type_descriptor 0 1 _ _ eq_refl eq_refl eq_refl
                  ltac:(discriminate) eq_refl ltac:(discriminate) ltac:(discriminate)
                  (fresh_new_node NodeConfigDependencyType))).
Defined.

(** ** The metadata comment after [save_metadata] *)

Lemma meta_at_not_element (h : heap) c : meta_at h c = true -> is_element h c = false.
Proof.
  unfold meta_at, is_element, is_meta_comment. destruct (h !! c) as [o|]; [|reflexivity].
  destruct (bool_decide (cls o = NodeComment)); [reflexivity | discriminate].
Qed.

Lemma subtree_elements_element (h : heap) x i :
  i ∈ subtree_elements h x -> is_element h i = true.
Proof.
  unfold subtree_elements. intros H. apply list_elem_of_filter in H as [H _].
  now apply Is_true_true.
Qed.

Lemma deannotated_all_meta (h : heap) l c :
  meta_at h c = true -> deannotated_all h l !! c = h !! c.
Proof.
  intros Hm. rewrite deannotated_all_lookup.
  destruct (decide _) as [Hin|_]; [|reflexivity].
  apply list_elem_of_In, in_flat_map in Hin as (x & _ & Hin).
  apply list_elem_of_In, subtree_elements_element in Hin.
  rewrite (meta_at_not_element h c Hm) in Hin. discriminate Hin.
Qed.

Section MetadataComment.

Variable encode : pyvalue -> string.
Variable tostring : heap -> nat -> string.

(** C8, as amended. [save_metadata] on an element of a well-formed
    tree whose [metadata] is a mapping returns.  When the class of the
    node has children or text: the metadata comments that the node
    holds are rewritten in place to the sentinel, a space and the
    newly encoded mapping, or, when the new mapping is empty, removed;
    when it holds none, a new comment with that text becomes its last
    child exactly when the new mapping is not empty.  When the class
    has neither children nor text, no object is made and the node keeps
    its children, each with its text: it gets no metadata comment, and
    one that it holds stays as it is.  A [typeDescriptor] that has a
    child and no metadata comment is left out. *)
Theorem save_metadata_comment self s d (h : heap) :
  tree_linked h = true -> children_nodup h = true ->
  h !! self = Some s -> cls s <> NodeComment -> metadata s = PyDict d ->
  (cls s = NodeConfigTypeDesc -> existsb (meta_at h) (children s) = false ->
   children s = []) ->
  let md := PyDict (new_metadata tostring h self s d) in
  let v := sentinel +:+ " " +:+ encode md in
  let h' := exec (save_metadata encode tostring self) h in
  result (save_metadata encode tostring self) h = Ret tt /\
  if keeps_metadata (cls s) then
    if existsb (meta_at h) (children s) then
      if py_truth md then
        length h' = length h /\
        children_of h' self = children s /\
        forall c, c ∈ children s -> meta_at h c = true ->
          h' !! c = set_text v <$> h !! c
      else
        length h' = length h /\
        children_of h' self = filter (fun c => meta_at h c = false) (children s) /\
        forall c, c ∈ children s -> meta_at h c = true -> parent_of h' c = None
    else
      if py_truth md then
        length h' = S (length h) /\
        children_of h' self = children s ++ [length h] /\
        h' !! length h = Some (set_text v (set_parent (Some self) (new_comment v)))
      else
        length h' = length h /\ children_of h' self = children s
  else
    length h' = length h /\
    children_of h' self = children s /\
    forall c, c ∈ children s -> text_of h' c = text_of h c.
Proof.
  intros L N Hs Hel Hd Htd md v h'.
  pose proof (owns_linked h self L N) as Hown.
  unfold h', exec, result.
  rewrite (save_metadata_shape encode tostring self s d h Hs Hel Hd Hown).
  fold md. fold v. cbn [fst snd]. split; [reflexivity|].
  set (h1 := deannotated_all h (hidden_children s)).
  destruct (saved_base_facts md self s (hidden_children s) h Hs)
    as (Hlen & Hm0 & Hch0 & Hpa0 & Htx0 & (a & Hs0) & Hall).
  fold h1 in Hlen, Hm0, Hch0, Hpa0, Htx0, Hs0, Hall.
  set (h0 := alter (set_metadata md) self h1) in *.
  assert (Hchs : children_of h self = children s)
    by (unfold children_of; now rewrite Hs).
  assert (Hself : meta_at h self = false).
  { unfold meta_at, is_meta_comment. rewrite Hs.
    now rewrite (bool_decide_eq_false_2 _ Hel). }
  assert (Hlt : self < length h) by (eapply lookup_lt_Some; eauto).
  destruct (keeps_metadata (cls s)).
  2:{ split; [exact Hlen|]. split; [now rewrite Hch0|]. intros c _. apply Htx0. }
  destruct (existsb (meta_at h) (children s)) eqn:Hex.
  - destruct (py_truth md) eqn:Ht.
    + split; [now rewrite fold_retext_length|].
      split; [now rewrite children_of_fold_retext, Hch0|].
      intros c Hc Hmc. unfold v. rewrite fold_retext_lookup.
      destruct (decide (c ∈ children s)) as [_|n]; [|contradiction].
      assert (Hne : self <> c) by (intros <-; congruence).
      unfold h0. rewrite list_lookup_alter_ne by exact Hne.
      unfold h1. rewrite (deannotated_all_meta h _ c Hmc).
      unfold meta_at in Hmc. destruct (h !! c) as [o|]; [|discriminate].
      cbn. unfold retext. now rewrite Hmc.
    + split; [now rewrite fold_unlink_length|].
      split.
      * rewrite fold_unlink_children, Hch0, Hchs.
        -- apply filter_ext_in. intros x Hx. rewrite Hm0. split.
           ++ intros H. destruct (meta_at h x); [exfalso; now apply H | reflexivity].
           ++ intros H [_ H']. congruence.
        -- rewrite Hch0, Hchs. exact (proj1 (children_nodup_spec h) N self s Hs).
        -- now rewrite Hm0.
      * intros c Hc Hmc. apply fold_unlink_parent; [exact Hc | now rewrite Hm0].
  - destruct (py_truth md) eqn:Ht.
    + assert (Hacc : accepts_comment s = true).
      { unfold accepts_comment. destruct (decide (cls s = NodeConfigTypeDesc)) as [E|_];
          [|reflexivity]. now rewrite (Htd E eq_refl). }
      rewrite Hacc.
      assert (Hne : self <> length h) by lia.
      split; [rewrite !length_alter, length_app, Hlen; cbn; lia|].
      split.
      * unfold children_of. rewrite !list_lookup_alter_ne by congruence.
        rewrite list_lookup_alter_eq, lookup_app_l by (rewrite Hlen; lia).
        rewrite Hs0. reflexivity.
      * rewrite !list_lookup_alter_eq.
        rewrite list_lookup_alter_ne by exact Hne.
        rewrite lookup_app_r, Hlen, Nat.sub_diag by (rewrite Hlen; lia).
        reflexivity.
    + rewrite fold_unlink_none
        by (rewrite <- Hex; apply existsb_ext_in; exact Hm0).
      split; [exact Hlen|]. now rewrite Hch0.
Qed.

End MetadataComment.

Lemma save_metadata_comment_witness :
  children_of (exec (save_metadata no_encode no_tostring 0) renamed_plugin_unsaved) 0
  = [1; 2] /\
  exec (save_metadata no_encode no_tostring 0) renamed_plugin_unsaved !! 2
  = Some (set_text (sentinel +:+ " {}")
            (set_parent (Some 0) (new_comment (sentinel +:+ " {}")))) /\
  exec (save_metadata no_encode no_tostring 0) renamed_plugin !! 1
  = set_text (sentinel +:+ " {}") <$> renamed_plugin !! 1 /\
  children_of (exec (save_metadata no_encode no_tostring 0) plain_plugin) 0 = [2].
Proof.
  pose proof (proj2 (save_metadata_comment no_encode no_tostring 0 _ []
                       renamed_plugin_unsaved eq_refl eq_refl eq_refl
                       ltac:(discriminate) eq_refl ltac:(discriminate)))
    as (_ & H1 & H2).
  pose proof (proj2 (save_metadata_comment no_encode no_tostring 0 _ []
                       renamed_plugin eq_refl eq_refl eq_refl
                       ltac:(discriminate) eq_refl ltac:(discriminate)))
    as (_ & _ & H3).
  pose proof (proj2 (save_metadata_comment no_encode no_tostring 0 _ []
                       plain_plugin eq_refl eq_refl eq_refl
                       ltac:(discriminate) eq_refl ltac:(discriminate)))
    as (_ & H4 & _).
  split; [exact H1|]. split; [exact H2|].
  split; [exact (H3 1 ltac:(left) eq_refl) | exact H4].
Defined.

(** C8, as stated, fails on a node of a class without children or
    text.  The [file] of [file_with_metadata_comment] holds a metadata
    comment; [save_metadata] leaves it among the children with its old
    text, when the new mapping is empty and when, the [file] having
    another label, it is not. *)
Lemma save_metadata_leaf_stale_comment :
  let h := file_with_metadata_comment in
  let g := alter (set_item_text "readme") 0 file_with_metadata_comment in
  meta_at h 1 = true /\
  new_metadata no_tostring h 0 (new_node NodeConfigFile) [] = [] /\
  children_of (exec (save_metadata no_encode no_tostring 0) h) 0 = [1] /\
  text_of (exec (save_metadata no_encode no_tostring 0) h) 1 = sentinel +:+ " {old}" /\
  metadata <$> exec (save_metadata no_encode no_tostring 0) g !! 0
  = Some (PyDict [("name", PyStr "readme")]) /\
  children_of (exec (save_metadata no_encode no_tostring 0) g) 0 = [1] /\
  text_of (exec (save_metadata no_encode no_tostring 0) g) 1 = sentinel +:+ " {old}".
Proof. repeat split. Qed.
